(** * TTV pipeline: script parser, frame renderer, speech synthesis, assembler

    A shallow embedding of the Python sources under [src/pipeline]
    ([parser.py], [visual_gen.py], [audio_synth.py], [assembler.py]) and of
    what [cli.py] does between them, with the properties of them that the
    specification states (C1 to C10) and further properties of the code (X1
    and on).

    Conventions of the embedding.
    - Python [str] values are [string]s of 8-bit characters, read as the code
      points U+0000..U+00FF.  On that range [str.isspace], the regular
      expression classes [\s] and [\d] and case-insensitive matching of the
      ASCII letters are exactly the predicates of module [Text].
    - Python [int] is [N] or [Z] (unbounded); [float] is IEEE binary64, as
      [spec_float] with precision 53 and maximal exponent 1024.
    - A function that can raise returns a [result]; [Raise e] is the
      exception [e] propagating to the caller.
    - A [dict] with a fixed set of keys is a record; a key that the code may
      [pop] or that may hold [None] is a [slot]. *)

From Stdlib Require Import ZArith NArith String Ascii List Bool Lia DecimalString DecimalN.
From Stdlib Require Import Floats.SpecFloat.
From Stdlib Require Import Sorting.Sorted Sorting.Permutation.
From stdpp Require Import gmap strings.

Local Open Scope string_scope.
Local Open Scope list_scope.

(** ** Exceptions and results *)

(** The exceptions the pipeline raises or lets through.  [parser.py],
    [audio_synth.py] and [assembler.py] raise the builtin [ValueError] and
    [RuntimeError]; the constructors below keep which [raise] statement it
    was, so that the specification's error names can be told apart. *)
Inductive exn : Type :=
| EmptyInputError      (* ValueError("Script text is empty or contains only whitespace") *)
| NoScenesFoundError   (* ValueError("No scenes found in script. ...") *)
| EmptyTextError       (* ValueError("Text input is empty") *)
| SynthesisFailure (primary fallback : exn)
                       (* RuntimeError("Both pyttsx3 and gTTS failed. pyttsx3: {e}, gTTS: {e2}") *)
| NoFramesError        (* ValueError("No image frames found in {frames_dir}") *)
| MissingToolError     (* RuntimeError("ffmpeg not found on PATH. ...") *)
| NoOutputFile         (* RuntimeError("pyttsx3 did not create output file: ...") *)
| NoFallbackEngine     (* RuntimeError("gTTS not installed. ...") *)
| ConversionFailed     (* RuntimeError("ffmpeg not found. Cannot convert MP3 to WAV.") *)
| ZeroDivisionError
| OverflowError
| TypeError
| WaveError            (* wave.Error, EOFError or OSError from wave.open *)
| StructError          (* struct.error: a header field that does not fit its width *)
| AudioError           (* audioop.error / numpy ValueError *)
| ImportError
| ValueError           (* any other ValueError of a builtin, e.g. int(nan), float("x") *)
| NoScenesInJson       (* ValueError("No scenes found in scenes_json") *)
| External (msg : string)  (* any other exception of a collaborator *).

Inductive result (A : Type) : Type :=
| Ok (a : A)
| Raise (e : exn).
Arguments Ok {A} a.
Arguments Raise {A} e.

Definition bind {A B : Type} (r : result A) (k : A -> result B) : result B :=
  match r with
  | Ok a => k a
  | Raise e => Raise e
  end.

(** [try: body  except Exception as e: handler e] *)
Definition try_except {A : Type} (body : result A) (handler : exn -> result A) : result A :=
  match body with
  | Ok a => Ok a
  | Raise e => handler e
  end.

Notation "'let!' x ':=' c1 'in' c2" := (bind c1 (fun x => c2))
  (at level 10, x name, c1 at level 100, c2 at level 200).

(** A dictionary key that may be missing or hold [None]. *)
Inductive slot (A : Type) : Type :=
| Missing            (* the key is not in the dict *)
| PyNone             (* the key is present and holds None *)
| Value (a : A).
Arguments Missing {A}.
Arguments PyNone {A}.
Arguments Value {A} a.

(** ** Python string operations *)
Module Text.

Definition code (c : ascii) : N := N_of_ascii c.

Definition newline : ascii := ascii_of_N 10.

(** [str.isspace] on one character, which is also the class [\s]. *)
Definition is_space (c : ascii) : bool :=
  let n := code c in
  ((9 <=? n) && (n <=? 13) || (28 <=? n) && (n <=? 32) || (n =? 133) || (n =? 160))%N.

(** The class [\d]. *)
Definition is_digit (c : ascii) : bool :=
  let n := code c in ((48 <=? n) && (n <=? 57))%N.

(** The class [[A-Z]]. *)
Definition is_upper (c : ascii) : bool :=
  let n := code c in ((65 <=? n) && (n <=? 90))%N.

(** The class [[a-z]]. *)
Definition is_lower (c : ascii) : bool :=
  let n := code c in ((97 <=? n) && (n <=? 122))%N.

(** Lower case of an ASCII letter, the folding used by [re.IGNORECASE]. *)
Definition fold_case (c : ascii) : ascii :=
  if is_upper c then ascii_of_N (code c + 32) else c.

(** [str.lower] on one character of U+0000..U+00FF. *)
Definition lower_char (c : ascii) : ascii :=
  let n := code c in
  if is_upper c then ascii_of_N (n + 32)
  else if ((192 <=? n) && (n <=? 222) && negb (n =? 215))%N then ascii_of_N (n + 32)
  else c.

Fixpoint lower (s : string) : string :=
  match s with
  | EmptyString => EmptyString
  | String c r => String (lower_char c) (lower r)
  end.

Fixpoint lstrip (s : string) : string :=
  match s with
  | EmptyString => EmptyString
  | String c r => if is_space c then lstrip r else s
  end.

Fixpoint rstrip (s : string) : string :=
  match s with
  | EmptyString => EmptyString
  | String c r =>
      match rstrip r with
      | EmptyString => if is_space c then EmptyString else String c EmptyString
      | r' => String c r'
      end
  end.

(** [s.strip()] *)
Definition strip (s : string) : string := rstrip (lstrip s).

(** Every character is whitespace (true of the empty string too). *)
Fixpoint all_space (s : string) : bool :=
  match s with
  | EmptyString => true
  | String c r => is_space c && all_space r
  end.

(** Every character is an ASCII letter. *)
Fixpoint all_letters (s : string) : bool :=
  match s with
  | EmptyString => true
  | String c r => (is_upper c || is_lower c) && all_letters r
  end.

(** Every character is a decimal digit. *)
Fixpoint all_digits (s : string) : bool :=
  match s with
  | EmptyString => true
  | String c r => is_digit c && all_digits r
  end.

(** No character is a newline, as in a piece of [split_lines]. *)
Fixpoint one_line (s : string) : bool :=
  match s with
  | EmptyString => true
  | String c r => negb (Ascii.eqb c newline) && one_line r
  end.

(** Truth value of a [str]: [not s] is [is_empty s]. *)
Definition is_empty (s : string) : bool :=
  match s with
  | EmptyString => true
  | String _ _ => false
  end.

(** [s.split('\n')]: the pieces between newlines, never an empty list. *)
Fixpoint split_lines (s : string) : list string :=
  match s with
  | EmptyString => [EmptyString]
  | String c r =>
      if Ascii.eqb c newline then EmptyString :: split_lines r
      else match split_lines r with
           | [] => [String c EmptyString]
           | l :: ls => String c l :: ls
           end
  end.

(** [s.endswith(suffix)] *)
Definition endswith (s suffix : string) : bool :=
  let n := String.length s in
  let k := String.length suffix in
  (k <=? n)%nat && String.eqb (substring (n - k) k s) suffix.

Definition digit_value (c : ascii) : N := (code c - 48)%N.

(** [int(s)] for a string of decimal digits.  Python's integers are
    unbounded; the conversion is modelled without the interpreter's limit on
    the length of a decimal string (4300 digits by default from CPython
    3.11 on), beyond which [int] raises ValueError. *)
Definition int_of_digits (s : string) : N :=
  fold_left (fun acc c => (10 * acc + digit_value c)%N) (list_ascii_of_string s) 0%N.

(** [int_of_digits] continued from an accumulator. *)
Definition int_from (acc : N) (s : string) : N :=
  fold_left (fun acc c => (10 * acc + digit_value c)%N) (list_ascii_of_string s) acc.

(** [str(n)] for a natural number. *)
Definition str_of_N (n : N) : string := NilEmpty.string_of_uint (N.to_uint n).

(** [f"{n:02d}"]: decimal, padded with zeros to at least two characters. *)
Definition format_02d (n : N) : string :=
  let s := str_of_N n in
  if (String.length s <? 2)%nat then String "0" s else s.

Fixpoint zeros (k : nat) : string :=
  match k with
  | O => EmptyString
  | S k' => String "0" (zeros k')
  end.

(** [f"{n:06d}"]: decimal, padded with zeros to at least six characters. *)
Definition format_06d (n : N) : string :=
  let s := str_of_N n in
  zeros (6 - String.length s) +:+ s.

(** [float(s)] for [s] of the shape digits or digits.digits: the binary64
    number nearest to the decimal, ties to even; infinity when it overflows.
    The quotient of the two integers is rounded once. *)
Definition float_of_decimal (int_part frac_part : string) : spec_float :=
  let m := Z.of_N (int_of_digits (int_part +:+ frac_part)) in
  let k := Z.of_nat (String.length frac_part) in
  match m with
  | Zpos p => SFdiv 53 1024 (S754_finite false p 0) (S754_finite false (Z.to_pos (10 ^ k)) 0)
  | _ => S754_zero false
  end.

(** [s.split()]: the maximal runs of characters that are not whitespace;
    [cur] is the run being read. *)
Fixpoint split_from (cur s : string) : list string :=
  match s with
  | EmptyString => if is_empty cur then [] else [cur]
  | String c r =>
      if is_space c then
        if is_empty cur then split_from EmptyString r else cur :: split_from EmptyString r
      else split_from (cur +:+ String c EmptyString) r
  end.

Definition split_words (s : string) : list string := split_from EmptyString s.

(** ["\n".join(lines)] *)
Definition join_lines (lines : list string) : string :=
  String.concat (String newline EmptyString) lines.

(** [float(s)] for a string matched by [\d+(?:\.\d+)?]. *)
Fixpoint float_of_str_from (int_part s : string) : spec_float :=
  match s with
  | EmptyString => float_of_decimal int_part EmptyString
  | String c r =>
      if Ascii.eqb c "." then float_of_decimal int_part r
      else float_of_str_from (int_part +:+ String c EmptyString) r
  end.

Definition float_of_str (s : string) : spec_float := float_of_str_from EmptyString s.

End Text.

(** ** Regular expressions, as [re.match] runs them *)
Module Re.

(** The fragment of the pattern language that [parser.py] uses.  Matching is
    the backtracking search of Python's engine: alternatives are tried left
    to right, a greedy repetition tries one more iteration before it tries
    to stop, a lazy one tries to stop first. *)
Inductive regex : Type :=
| Eps
| Lit (c : ascii)                      (* a literal character *)
| Class (p : ascii -> bool)            (* \s, \d, ., [...] *)
| Cat (r1 r2 : regex)
| Alt (r1 r2 : regex)
| Star (greedy : bool) (r : regex)
| Group (i : nat) (r : regex)          (* capturing group number i *)
| Bol                                  (* ^ *)
| Eol                                  (* $ *).

Definition Opt (r : regex) : regex := Alt r Eps.             (* r? *)
Definition Plus (r : regex) : regex := Cat r (Star true r).  (* r+ *)
Definition LazyPlus (r : regex) : regex := Cat r (Star false r).  (* r+? *)

Fixpoint lits (s : string) : regex :=
  match s with
  | EmptyString => Eps
  | String c r => Cat (Lit c) (lits r)
  end.

Definition captures : Type := list (nat * string).

Definition lit_eqb (icase : bool) (p c : ascii) : bool :=
  if icase then Ascii.eqb (Text.fold_case p) (Text.fold_case c) else Ascii.eqb p c.

(** [$] without [re.MULTILINE]: at the end, or before a final newline. *)
Definition at_eol (s : string) : bool :=
  match s with
  | EmptyString => true
  | String c EmptyString => Ascii.eqb c Text.newline
  | _ => false
  end.

Definition orelse {A : Type} (a b : option A) : option A :=
  match a with
  | Some x => Some x
  | None => b
  end.

(** [run icase r pos s caps k]: match [r] at offset [pos], where [s] is the
    rest of the subject, then continue with [k]. *)
Fixpoint run (icase : bool) (r : regex) (pos : nat) (s : string) (caps : captures)
    (k : nat -> string -> captures -> option captures) {struct r} : option captures :=
  match r with
  | Eps => k pos s caps
  | Lit p =>
      match s with
      | String c s' => if lit_eqb icase p c then k (S pos) s' caps else None
      | EmptyString => None
      end
  | Class p =>
      match s with
      | String c s' => if p c then k (S pos) s' caps else None
      | EmptyString => None
      end
  | Cat r1 r2 => run icase r1 pos s caps (fun pos' s' caps' => run icase r2 pos' s' caps' k)
  | Alt r1 r2 => orelse (run icase r1 pos s caps k) (run icase r2 pos s caps k)
  | Star greedy r1 =>
      (fix loop (fuel : nat) (pos : nat) (s : string) (caps : captures) {struct fuel} :=
         match fuel with
         | O => k pos s caps
         | S fuel' =>
             let again :=
               run icase r1 pos s caps
                 (fun pos' s' caps' => if (pos <? pos')%nat then loop fuel' pos' s' caps' else None) in
             if greedy then orelse again (k pos s caps) else orelse (k pos s caps) again
         end) (String.length s) pos s caps
  | Group i r1 =>
      run icase r1 pos s caps
        (fun pos' s' caps' => k pos' s' ((i, substring 0 (pos' - pos) s) :: caps'))
  | Bol => if (pos =? 0)%nat then k pos s caps else None
  | Eol => if at_eol s then k pos s caps else None
  end.

(** The loop that [run] makes for a repetition, by itself. *)
Definition star_loop (icase greedy : bool) (r1 : regex)
    (k : nat -> string -> captures -> option captures)
    : nat -> nat -> string -> captures -> option captures :=
  fix loop (fuel : nat) (pos : nat) (s : string) (caps : captures) {struct fuel} :=
    match fuel with
    | O => k pos s caps
    | S fuel' =>
        let again :=
          run icase r1 pos s caps
            (fun pos' s' caps' => if (pos <? pos')%nat then loop fuel' pos' s' caps' else None) in
        if greedy then orelse again (k pos s caps) else orelse (k pos s caps) again
    end.

(** [re.match(pattern, s, flags)]: the captures of the first successful
    match at the start of [s], or [None]. *)
Definition rmatch (icase : bool) (r : regex) (s : string) : option captures :=
  run icase r 0 s [] (fun _ _ caps => Some caps).

(** [m.group(i)] for a group that took part in the match. *)
Fixpoint group (i : nat) (caps : captures) : string :=
  match caps with
  | [] => EmptyString
  | (j, v) :: rest => if (i =? j)%nat then v else group i rest
  end.

Definition any_char : regex := Class (fun c => negb (Ascii.eqb c Text.newline)).  (* . *)
Definition space : regex := Class Text.is_space.                                  (* \s *)
Definition digit : regex := Class Text.is_digit.                                  (* \d *)
Definition colon_or_dash : regex :=                                               (* [:\-] *)
  Class (fun c => Ascii.eqb c ":" || Ascii.eqb c "-").
Definition letter_or_space : regex :=                                             (* [A-Za-z\s] *)
  Class (fun c => Text.is_upper c || Text.is_lower c || Text.is_space c).

Fixpoint cat (rs : list regex) : regex :=
  match rs with
  | [] => Eps
  | [r] => r
  | r :: rest => Cat r (cat rest)
  end.

End Re.

(** ** parser.py *)
Module Parser.
Import Re.

Record dialogue_item : Type := { speaker : string; text : string }.

(** A scene dictionary.  The keys [start_cue] and [duration_hint] are
    created holding [None] and may be popped by [_finalize_scene]. *)
Record scene : Type := {
  scene_id : string;
  start_cue : slot string;
  description : string;
  characters : list string;
  dialogue : list dialogue_item;
  visual_prompts : list string;
  duration_hint : slot spec_float
}.

Definition set_scene_id (v : string) (sc : scene) : scene :=
  {| scene_id := v; start_cue := start_cue sc; description := description sc;
     characters := characters sc; dialogue := dialogue sc;
     visual_prompts := visual_prompts sc; duration_hint := duration_hint sc |}.

Definition set_start_cue (v : slot string) (sc : scene) : scene :=
  {| scene_id := scene_id sc; start_cue := v; description := description sc;
     characters := characters sc; dialogue := dialogue sc;
     visual_prompts := visual_prompts sc; duration_hint := duration_hint sc |}.

Definition set_description (v : string) (sc : scene) : scene :=
  {| scene_id := scene_id sc; start_cue := start_cue sc; description := v;
     characters := characters sc; dialogue := dialogue sc;
     visual_prompts := visual_prompts sc; duration_hint := duration_hint sc |}.

Definition set_characters (v : list string) (sc : scene) : scene :=
  {| scene_id := scene_id sc; start_cue := start_cue sc; description := description sc;
     characters := v; dialogue := dialogue sc;
     visual_prompts := visual_prompts sc; duration_hint := duration_hint sc |}.

Definition set_dialogue (v : list dialogue_item) (sc : scene) : scene :=
  {| scene_id := scene_id sc; start_cue := start_cue sc; description := description sc;
     characters := characters sc; dialogue := v;
     visual_prompts := visual_prompts sc; duration_hint := duration_hint sc |}.

Definition set_visual_prompts (v : list string) (sc : scene) : scene :=
  {| scene_id := scene_id sc; start_cue := start_cue sc; description := description sc;
     characters := characters sc; dialogue := dialogue sc;
     visual_prompts := v; duration_hint := duration_hint sc |}.

Definition set_duration_hint (v : slot spec_float) (sc : scene) : scene :=
  {| scene_id := scene_id sc; start_cue := start_cue sc; description := description sc;
     characters := characters sc; dialogue := dialogue sc;
     visual_prompts := visual_prompts sc; duration_hint := v |}.

(** The dict literal of lines 63-71 and 78-86. *)
Definition new_scene (id desc : string) : scene :=
  {| scene_id := id; start_cue := PyNone; description := desc;
     characters := []; dialogue := []; visual_prompts := []; duration_hint := PyNone |}.

(** Line 53, with re.IGNORECASE: "^Scene\s+(\d+)[:\-]?\s*", then group 2,
    which is any run of characters, then "$". *)
Definition scene_re : regex :=
  cat [Bol; lits "Scene"; Plus space; Group 1 (Plus digit); Opt colon_or_dash;
       Star true space; Group 2 (Star true any_char); Eol].

(** The pattern "^Narration:\s*(.+)$" with re.IGNORECASE. *)
Definition narration_re : regex :=
  cat [Bol; lits "Narration:"; Star true space; Group 1 (Plus any_char); Eol].

(** The pattern "^([A-Z][A-Za-z\s]+?):\s*(.+)$", case sensitive. *)
Definition dialogue_re : regex :=
  cat [Bol; Group 1 (Cat (Class Text.is_upper) (LazyPlus letter_or_space)); Lit ":";
       Star true space; Group 2 (Plus any_char); Eol].

(** The pattern "^Visual[:\-]?\s*(.+)$" with re.IGNORECASE. *)
Definition visual_re : regex :=
  cat [Bol; lits "Visual"; Opt colon_or_dash; Star true space; Group 1 (Plus any_char); Eol].

(** The pattern "^Duration[:\-]?\s*(\d+(?:\.\d+)?)\s*(?:seconds?|sec|s)?$"
    with re.IGNORECASE. *)
Definition duration_re : regex :=
  cat [Bol; lits "Duration"; Opt colon_or_dash; Star true space;
       Group 1 (Cat (Plus digit) (Opt (Cat (Lit ".") (Plus digit))));
       Star true space;
       Opt (Alt (Cat (lits "second") (Opt (Lit "s"))) (Alt (lits "sec") (Lit "s")));
       Eol].

(** [x in lst] for strings *)
Definition mem (x : string) (l : list string) : bool := existsb (String.eqb x) l.

(** Lines 151-171. *)
Definition _finalize_scene (sc : scene) (scene_num : N) : scene :=
  let sc := if Text.is_empty (scene_id sc)
            then set_scene_id ("scene_" +:+ Text.format_02d scene_num) sc else sc in
  let sc := if Text.is_empty (description sc)
            then set_description ("Scene " +:+ Text.str_of_N scene_num) sc else sc in
  let sc := match visual_prompts sc with
            | [] => set_visual_prompts [description sc] sc
            | _ => sc
            end in
  let sc := match start_cue sc with
            | Value _ => sc
            | _ => set_start_cue Missing sc
            end in
  let sc := match duration_hint sc with
            | Value _ => sc
            | _ => set_duration_hint Missing sc
            end in
  sc.

(** The variables of the loop of [parse_script]. *)
Record pstate : Type := {
  scenes : list scene;
  current_scene : option scene;
  scene_counter : N
}.

Definition initial : pstate :=
  {| scenes := []; current_scene := None; scene_counter := 0 |}.

(** [if current_scene: scenes.append(_finalize_scene(current_scene, scene_counter))] *)
Definition close_scene (st : pstate) : list scene :=
  match current_scene st with
  | Some sc => scenes st ++ [_finalize_scene sc (scene_counter st)]
  | None => scenes st
  end.

(** Lines 88-137: a line that is neither blank nor a scene marker, applied
    to the open scene. *)
Definition apply_line (sc : scene) (line : string) : scene :=
  match rmatch true narration_re line with
  | Some m =>
      let narration_text := Text.strip (group 1 m) in
      let sc := set_description narration_text sc in
      match visual_prompts sc with
      | [] => set_visual_prompts [narration_text] sc
      | _ => sc
      end
  | None =>
  match rmatch false dialogue_re line with
  | Some m =>
      let speaker := Text.strip (group 1 m) in
      let text := Text.strip (group 2 m) in
      let sc := if mem speaker (characters sc) then sc
                else set_characters (characters sc ++ [speaker]) sc in
      set_dialogue (dialogue sc ++ [{| speaker := speaker; text := text |}]) sc
  | None =>
  match rmatch true visual_re line with
  | Some m =>
      let prompt := Text.strip (group 1 m) in
      set_visual_prompts (visual_prompts sc ++ [prompt]) sc
  | None =>
  match rmatch true duration_re line with
  | Some m => set_duration_hint (Value (Text.float_of_str (group 1 m))) sc
  | None =>
      if Text.is_empty (description sc) then
        let sc := set_description line sc in
        match visual_prompts sc with
        | [] => set_visual_prompts [line] sc
        | _ => sc
        end
      else set_description (description sc +:+ " " +:+ line) sc
  end end end end.

(** A line that only the last rule takes: it is not blank and matches none
    of the five patterns. *)
Definition is_plain (line : string) : bool :=
  negb (Text.is_empty line) &&
  match rmatch true scene_re line, rmatch true narration_re line,
        rmatch false dialogue_re line, rmatch true visual_re line,
        rmatch true duration_re line with
  | None, None, None, None, None => true
  | _, _, _, _, _ => false
  end.

(** The scene that is open after the first of some plain lines: its
    description is the lines so far, joined with spaces. *)
Definition prose_scene (first : string) (seen : list string) : scene :=
  {| scene_id := "scene_01"; start_cue := PyNone;
     description := String.concat " " (map Text.strip (first :: seen));
     characters := []; dialogue := []; visual_prompts := [Text.strip first];
     duration_hint := PyNone |}.

(** One iteration of the [while] loop (lines 40-139) on [lines[i]]. *)
Definition step (st : pstate) (raw : string) : pstate :=
  let line := Text.strip raw in
  if Text.is_empty line then
    {| scenes := close_scene st; current_scene := None; scene_counter := scene_counter st |}
  else
    match rmatch true scene_re line with
    | Some m =>
        let scene_counter := (scene_counter st + 1)%N in
        let scene_num := Text.int_of_digits (group 1 m) in
        let scene_title := Text.strip (group 2 m) in
        {| scenes := close_scene st;
           current_scene :=
             Some (new_scene ("scene_" +:+ Text.format_02d scene_num)
                     (if Text.is_empty scene_title
                      then "Scene " +:+ Text.str_of_N scene_num else scene_title));
           scene_counter := scene_counter |}
    | None =>
        match current_scene st with
        | None =>
            let scene_counter := (scene_counter st + 1)%N in
            {| scenes := scenes st;
               current_scene :=
                 Some (apply_line
                         (new_scene ("scene_" +:+ Text.format_02d scene_counter) EmptyString)
                         line);
               scene_counter := scene_counter |}
        | Some sc =>
            {| scenes := scenes st;
               current_scene := Some (apply_line sc line);
               scene_counter := scene_counter st |}
        end
    end.

(** The scan has opened a scene, now or before. *)
Definition started (st : pstate) : Prop :=
  is_Some (current_scene st) \/ scenes st <> [].

(** What the specification asks of a scene that was closed. *)
Definition finalized (sc : scene) : Prop :=
  description sc <> EmptyString /\ visual_prompts sc <> [] /\
  start_cue sc <> PyNone /\ duration_hint sc <> PyNone.

(** The state when the loop ends. *)
Definition scan (script_text : string) : pstate :=
  fold_left step (Text.split_lines script_text) initial.

(** Lines 11-148. *)
Definition parse_script (script_text : string) : result (list scene) :=
  if Text.is_empty script_text || Text.is_empty (Text.strip script_text) then
    Raise EmptyInputError
  else
    let scenes := close_scene (scan script_text) in
    match scenes with
    | [] => Raise NoScenesFoundError
    | _ => Ok scenes
    end.

(** The call of [_finalize_scene] that closing the open scene makes: its
    two arguments, the open scene and the counter. *)
Definition closing (st : pstate) : list (scene * N) :=
  match current_scene st with
  | Some sc => [(sc, scene_counter st)]
  | None => []
  end.

(** The iteration on [raw] takes one of the two branches that close the
    open scene: the line is blank (line 44) or a scene marker (line 54). *)
Definition closes (raw : string) : bool :=
  let line := Text.strip raw in
  Text.is_empty line ||
  match rmatch true scene_re line with Some _ => true | None => false end.

(** The calls of [_finalize_scene] made by the loop on [lines] from the
    state [st] and by line 142 after it, in order. *)
Fixpoint finalize_calls (lines : list string) (st : pstate) : list (scene * N) :=
  match lines with
  | [] => closing st
  | raw :: rest =>
      (if closes raw then closing st else []) ++ finalize_calls rest (step st raw)
  end.

Definition finalize_call (c : scene * N) : scene := _finalize_scene (fst c) (snd c).

(** The identifier formatted from a counter value. *)
Definition numbered_id (n : N) : string := "scene_" +:+ Text.format_02d n.

(** Is a scene open: 1 or 0. *)
Definition open_count (st : pstate) : nat :=
  match current_scene st with Some _ => 1 | None => 0 end.

(** The counter is the number of scenes opened so far. *)
Definition counted (st : pstate) : Prop :=
  N.to_nat (scene_counter st) = (length (scenes st) + open_count st)%nat.

(** The identifiers of the scenes closed so far and of the open one. *)
Definition ids_so_far (st : pstate) : list string :=
  map scene_id (scenes st) ++
  match current_scene st with Some sc => [scene_id sc] | None => [] end.

Definition ids_numbered (st : pstate) : Prop :=
  ids_so_far st =
    map (fun i => numbered_id (N.of_nat i)) (seq 1 (N.to_nat (scene_counter st))) /\
  match current_scene st with Some sc => scene_id sc <> EmptyString | None => True end.

(** *** [parse_file], lines 174-197 *)

(** What a path can hold: a text, a JSON document with the key "scenes"
    (identified with the scenes it encodes), or something that cannot be
    read as UTF-8 text. *)
Inductive document : Type :=
| TextFile (content : string)
| ScenesJson (scenes : list scene)
| Unreadable.

(** The exceptions of [parse_file]. *)
Inductive file_exn : Type :=
| FileNotFoundError                  (* "Input file not found: ..." *)
| ReadIOError                        (* "Error reading input file ..." *)
| WriteIOError (cause : option exn)  (* "Error writing output file ...: {e}";
                                        [None] when [open] or the write failed *).

(** What lines 194-195 do with the output file. *)
Inductive write_outcome : Type :=
| Written                      (* the document is written and the file closed *)
| OpenFails                    (* [open(output_path, 'w')] raises: no file is
                                  created or truncated *)
| DumpFails (partial : string) (* [open] created or truncated the file, then
                                  [json.dump] raised; [partial] is the text
                                  that reached the file *).

Section ParseFile.

(** [json.dumps] of a scenes document, for a script that is read back from
    one; and what becomes of the write of lines 194-195. *)
Variable json_text : list scene -> string.
Variable write_json : string -> list scene -> write_outcome.

(** Lines 182-188. *)
Definition read_script (disk : gmap string document) (input_path : string)
    : file_exn + string :=
  match disk !! input_path with
  | None => inl FileNotFoundError
  | Some (TextFile s) => inr s
  | Some (ScenesJson l) => inr (json_text l)
  | Some Unreadable => inl ReadIOError
  end.

(** The exception raised, if any, and the files afterwards. *)
Definition parse_file (input_path output_path : string) (disk : gmap string document)
    : option file_exn * gmap string document :=
  match read_script disk input_path with
  | inl e => (Some e, disk)
  | inr script_text =>
      match parse_script script_text with
      | Raise e => (Some (WriteIOError (Some e)), disk)
      | Ok scenes =>
          match write_json output_path scenes with
          | Written => (None, <[output_path := ScenesJson scenes]> disk)
          | OpenFails => (Some (WriteIOError None), disk)
          | DumpFails partial =>
              (Some (WriteIOError None), <[output_path := TextFile partial]> disk)
          end
      end
  end.

End ParseFile.

End Parser.

(** ** Python floats *)
Module PyFloat.

Definition prec : Z := 53.
Definition emax : Z := 1024.

Definition fmul : spec_float -> spec_float -> spec_float := SFmul prec emax.
Definition fdiv : spec_float -> spec_float -> spec_float := SFdiv prec emax.

(** The literal [2.0]. *)
Definition two : spec_float := S754_finite false 4503599627370496 (-51).

(** [float(n)] for an [int]: nearest binary64, [OverflowError] when none. *)
Definition float_of_int (n : Z) : result spec_float :=
  match binary_normalize prec emax n 0 false with
  | S754_infinity _ => Raise OverflowError
  | f => Ok f
  end.

(** The integer part of a positive [m * 2^e]. *)
Definition magnitude (m : positive) (e : Z) : Z :=
  match e with
  | Zneg k => Z.shiftr (Zpos m) (Zpos k)
  | _ => Z.shiftl (Zpos m) e
  end.

(** Is [m * 2^e] an integer? *)
Definition is_integral (m : positive) (e : Z) : bool :=
  match e with
  | Zneg k => Z.eqb (Z.shiftl (magnitude m e) (Zpos k)) (Zpos m)
  | _ => true
  end.

(** [int(x)]: truncation towards zero; raises on infinities and NaN. *)
Definition int_of_float (x : spec_float) : result Z :=
  match x with
  | S754_zero _ => Ok 0%Z
  | S754_finite s m e => Ok (if s then Z.opp (magnitude m e) else magnitude m e)
  | S754_infinity _ => Raise OverflowError
  | S754_nan => Raise ValueError
  end.

(** [math.floor(x)] *)
Definition floor (x : spec_float) : result Z :=
  match x with
  | S754_zero _ => Ok 0%Z
  | S754_finite false m e => Ok (magnitude m e)
  | S754_finite true m e =>
      Ok (if is_integral m e then Z.opp (magnitude m e) else (Z.opp (magnitude m e) - 1)%Z)
  | S754_infinity _ => Raise OverflowError
  | S754_nan => Raise ValueError
  end.

(** [x * n] for a float [x] and an int [n]. *)
Definition mul_int (x : spec_float) (n : Z) : result spec_float :=
  let! y := float_of_int n in Ok (fmul x y).

(** [n / y] for an int [n] and a float [y] *)
Definition int_div (n : Z) (y : spec_float) : result spec_float :=
  let! x := float_of_int n in
  match y with
  | S754_zero _ => Raise ZeroDivisionError
  | _ => Ok (fdiv x y)
  end.

End PyFloat.

(** ** visual_gen.py *)
Module VisualGen.

(** A scene as [generate_frames] reads it from the decoded JSON: every key
    is looked up with [dict.get] and may be missing. *)
Record scene_info : Type := {
  scene_id : option string;
  description : option string;
  visual_prompts : option (list string);
  duration_hint : slot spec_float
}.

(** What [json.dump] followed by [json.load] makes of a parsed scene. *)
Definition of_scene (sc : Parser.scene) : scene_info :=
  {| scene_id := Some (Parser.scene_id sc);
     description := Some (Parser.description sc);
     visual_prompts := Some (Parser.visual_prompts sc);
     duration_hint := Parser.duration_hint sc |}.

(** The name of the cache directory inside [out_dir]. *)
Definition cache_dir : string := ".cache".

Definition frame_name (i : N) : string := "frame_" +:+ Text.format_06d i +:+ ".png".

(** Line 43: [scene.get('duration_hint', 2.0)]; a key holding [None] makes
    the product of line 44 raise. *)
Definition duration_or_default (sc : scene_info) : result spec_float :=
  match duration_hint sc with
  | Missing => Ok PyFloat.two
  | Value d => Ok d
  | PyNone => Raise TypeError
  end.

(** Line 44: [max(1, int(duration * fps_hint))]. *)
Definition num_frames (sc : scene_info) (fps_hint : Z) : result Z :=
  let! duration := duration_or_default sc in
  let! x := PyFloat.mul_int duration fps_hint in
  let! n := PyFloat.int_of_float x in
  Ok (Z.max 1 n).

(** Line 38: [scene.get('scene_id', 'scene_unknown')], the directory name. *)
Definition scene_dir (sc : scene_info) : string :=
  match scene_id sc with
  | Some id => id
  | None => "scene_unknown"
  end.

(** Lines 47-50. *)
Definition prompts_of (sc : scene_info) : list string :=
  match visual_prompts sc with
  | Some (p :: ps) => p :: ps
  | _ => [match description sc with Some d => d | None => "Scene" end]
  end.

(** [range(1, n + 1)] *)
Definition range1 (n : Z) : list N := map N.of_nat (seq 1 (Z.to_nat n)).

(** The names frame_000001.png, ..., frame_n.png. *)
Definition frame_files (n : Z) : list string := map frame_name (range1 n).

Section Render.

(** Decoded images; two images are equal when their pixels are. *)
Variable image : Type.

(** [hashlib.md5(prompt.encode('utf-8')).hexdigest()] *)
Variable md5_hexdigest : string -> string.

(** [_render_fallback_frame]: the drawing made with PIL from the prompt and
    the scene. *)
Variable _render_fallback_frame : string -> scene_info -> image.

(** The PNG files under [out_dir] are a map from (directory name, file name)
    to images.  A PNG file holds its image without loss, so a file is
    identified with the image that [Image.open] decodes from it. *)

(** Lines 187-189. *)
Definition _get_cache_key (prompt : string) : string := md5_hexdigest prompt.

(** [visual_prompts[0] if visual_prompts else "Scene"] *)
Definition primary_prompt (visual_prompts : list string) : string :=
  match visual_prompts with
  | p :: _ => p
  | [] => "Scene"
  end.

Definition cached_frame (visual_prompts : list string) : string * string :=
  (cache_dir, _get_cache_key (primary_prompt visual_prompts) +:+ ".png").

(** Lines 77-85: the base frame and the files after the cache was consulted. *)
Definition base_frame (visual_prompts : list string) (info : scene_info) (fs : gmap (string * string) image)
    : image * gmap (string * string) image :=
  match fs !! cached_frame visual_prompts with
  | Some img => (img, fs)
  | None =>
      let img := _render_fallback_frame (primary_prompt visual_prompts) info in
      (img, <[cached_frame visual_prompts := img]> fs)
  end.

(** Lines 88-94: [frame.save(frame_path)] for [i] in the given range. *)
Definition write_frames (scene_dir : string) (img : image) (indices : list N) (fs : gmap (string * string) image)
    : gmap (string * string) image :=
  fold_left (fun fs i => <[(scene_dir, frame_name i) := img]> fs) indices fs.

(** Lines 62-94. *)
Definition _generate_scene_frames (scene_dir : string) (visual_prompts : list string)
    (info : scene_info) (num_frames : Z) (fs : gmap (string * string) image) : gmap (string * string) image :=
  let '(img, fs) := base_frame visual_prompts info fs in
  write_frames scene_dir img (range1 num_frames) fs.

(** The body of the loop of lines 37-59 for one scene.  The file system is
    taken to accept every directory and file name and every write:
    [os.makedirs] and [Image.save] return, so what is stated of a rendering
    is stated of one on which they did. *)
Definition render_scene (fps_hint : Z) (fs : gmap (string * string) image) (sc : scene_info) : result (gmap (string * string) image) :=
  let! n := num_frames sc fps_hint in
  Ok (_generate_scene_frames (scene_dir sc) (prompts_of sc) sc n fs).

Fixpoint render_scenes (fps_hint : Z) (scenes : list scene_info) (fs : gmap (string * string) image) : result (gmap (string * string) image) :=
  match scenes with
  | [] => Ok fs
  | sc :: rest => let! fs := render_scene fps_hint fs sc in render_scenes fps_hint rest fs
  end.

(** The names of the files in the directory [dir]. *)
Definition listing (dir : string) (fs : gmap (string * string) image) : gset string :=
  set_map snd (dom (filter (fun kv => fst (fst kv) = dir) fs)).

(** Lines 11-59, for scenes already loaded; [fs] is what [out_dir] holds
    before the call. *)
Definition generate_frames (scenes : list scene_info) (fps_hint : Z)
    (fs : gmap (string * string) image) : result (gmap (string * string) image) :=
  match scenes with
  | [] => Raise NoScenesInJson
  | _ => render_scenes fps_hint scenes fs
  end.

End Render.

Arguments base_frame {image} md5_hexdigest _render_fallback_frame visual_prompts info fs.
Arguments write_frames {image} scene_dir img indices fs.
Arguments _generate_scene_frames {image} md5_hexdigest _render_fallback_frame
  scene_dir visual_prompts info num_frames fs.
Arguments render_scene {image} md5_hexdigest _render_fallback_frame fps_hint fs sc.
Arguments render_scenes {image} md5_hexdigest _render_fallback_frame fps_hint scenes fs.
Arguments generate_frames {image} md5_hexdigest _render_fallback_frame scenes fps_hint fs.
Arguments listing {image} dir fs.

Section Wrap.

(** [bbox = font.getbbox(s); bbox[2] - bbox[0]] for the font passed in. *)
Variable text_width : string -> Z.

(** [' '.join(words)] *)
Definition join_words (words : list string) : string := String.concat " " words.

(** One iteration of the loop of lines 165-176 on the state
    ([lines], [current_line]). *)
Definition wrap_step (max_width : Z) (st : list string * list string) (word : string)
    : list string * list string :=
  let '(lines, current_line) := st in
  let test_line := join_words (current_line ++ [word]) in
  if (text_width test_line <=? max_width)%Z then (lines, current_line ++ [word])
  else
    match current_line with
    | [] => (lines, [word])
    | _ => (lines ++ [join_words current_line], [word])
    end.

(** Lines 178-179. *)
Definition wrap_flush (st : list string * list string) : list string :=
  match snd st with
  | [] => fst st
  | current_line => fst st ++ [join_words current_line]
  end.

(** Lines 159-184. *)
Definition _wrap_text (text : string) (max_width : Z) : list string :=
  let words := Text.split_words text in
  let lines := wrap_flush (fold_left (wrap_step max_width) words ([], [])) in
  match lines with
  | [] => [substring 0 50 text]
  | _ => lines
  end.

(** The state of the loop after the words [ws]: nothing was seen, or there
    is a current line and the lines, once flushed, are the words. *)
Definition wrapped (ws : list string) (st : list string * list string) : Prop :=
  (ws = [] /\ st = ([], [])) \/
  (ws <> [] /\ snd st <> [] /\ join_words (wrap_flush st) = join_words ws).

(** A line is within the width, or it is a single word of the text. *)
Definition fits_or_word (max_width : Z) (words : list string) (line : string) : Prop :=
  (text_width line <= max_width)%Z \/ In line words.

Definition lines_fit (max_width : Z) (words : list string)
    (st : list string * list string) : Prop :=
  Forall (fits_or_word max_width words) (fst st) /\
  (snd st = [] \/ fits_or_word max_width words (join_words (snd st))).

End Wrap.

End VisualGen.

(** ** audio_synth.py *)
Module AudioSynth.

(** *** WAV files, as the [wave] module reads and writes them *)

(** The header fields and the bytes of the data chunk. *)
Record wav : Type := {
  nchannels : Z;
  sampwidth : Z;
  framerate : Z;
  data : list Byte.byte
}.

Inductive file : Type :=
| Wav (w : wav)
| Blob (content : string)   (* anything that is not a RIFF/WAVE file; [Blob ""] is an empty file *).

Definition framesize (w : wav) : Z := (nchannels w * sampwidth w)%Z.

(** [getnframes()]: the data chunk's size in whole frames. *)
Definition nframes (w : wav) : Z := (Z.of_nat (length (data w)) / framesize w)%Z.

(** [readframes(getnframes())] *)
Definition readframes (w : wav) : list Byte.byte :=
  firstn (Z.to_nat (nframes w * framesize w)) (data w).

Inductive engine : Type := Primary | Secondary.

(** What is observable of a run besides files: the engines that were
    started and the warnings printed to stderr. *)
Inductive event : Type :=
| Started (e : engine)
| NormalizationWarning (e : exn)   (* "Warning: Audio normalization failed: {e}" *)
| FallbackWarning (e : exn)        (* "Warning: pyttsx3 failed ({e}), trying gTTS fallback..." *).

Record world : Type := {
  files : gmap string file;
  log : list event
}.

(** Computations that read and write files, print, and may raise. *)
Definition M (A : Type) : Type := world -> result A * world.

Definition ret {A : Type} (a : A) : M A := fun w => (Ok a, w).

Definition throw {A : Type} (e : exn) : M A := fun w => (Raise e, w).

Definition mbind {A B : Type} (m : M A) (k : A -> M B) : M B :=
  fun w => match m w with
           | (Ok a, w') => k a w'
           | (Raise e, w') => (Raise e, w')
           end.

(** [try: body  except Exception as e: handler]; what [body] did to the
    files before it raised stays done. *)
Definition catch {A : Type} (body : M A) (handler : exn -> M A) : M A :=
  fun w => match body w with
           | (Ok a, w') => (Ok a, w')
           | (Raise e, w') => handler e w'
           end.

Definition lift {A : Type} (r : result A) : M A := fun w => (r, w).

(** The engines started, in order, among some events. *)
Definition engines_started (l : list event) : list engine :=
  flat_map (fun ev => match ev with Started e => [e] | _ => [] end) l.

Definition emit (ev : event) : M unit :=
  fun w => (Ok tt, {| files := files w; log := log w ++ [ev] |}).

Definition read_file (path : string) : M (option file) :=
  fun w => (Ok (files w !! path), w).

Definition write_file (path : string) (f : file) : M unit :=
  fun w => (Ok tt, {| files := <[path := f]> (files w); log := log w |}).

Definition unlink (path : string) : M unit :=
  fun w => (Ok tt, {| files := delete path (files w); log := log w |}).

(** A computation that prints nothing. *)
Definition quiet {A : Type} (m : M A) : Prop := forall w, log (snd (m w)) = log w.

(** A computation that removes no file. *)
Definition keeps {A : Type} (m : M A) : Prop :=
  forall w p, is_Some (files w !! p) -> is_Some (files (snd (m w)) !! p).

Notation "'do!' x ':=' c1 'in' c2" := (mbind c1 (fun x => c2))
  (at level 10, x name, c1 at level 100, c2 at level 200).

(** [with wave.open(path, "rb") as wav_in]: the reader refuses a header
    without channels or without a sample width; it accepts any frame rate. *)
Definition wave_open_read (path : string) : M wav :=
  do! f := read_file path in
  match f with
  | Some (Wav w) =>
      if (nchannels w <? 1)%Z || (sampwidth w <? 1)%Z then throw WaveError else ret w
  | _ => throw WaveError
  end.

(** [struct.pack('<L4s4sLHHLLHH4s', 36 + datalength, ..., nchannels,
    framerate, nchannels * framerate * sampwidth, nchannels * sampwidth,
    sampwidth * 8, ...)] of [Wave_write._write_header]: every [L] field is
    below 2^32 and every [H] field below 2^16. *)
Definition header_fits (nch sw fr datalength : Z) : bool :=
  ((36 + datalength <? 2 ^ 32) && (nch <? 2 ^ 16) && (fr <? 2 ^ 32) &&
   (nch * fr * sw <? 2 ^ 32) && (nch * sw <? 2 ^ 16) && (sw * 8 <? 2 ^ 16))%Z.

(** A file that exists has a RIFF length field, which holds 36 + the size of
    the data. *)
Definition riff_sized (w : wav) : bool :=
  (36 + Z.of_nat (length (data w)) <? 2 ^ 32)%Z.

(** A file that both branches of [_normalize_audio] can write back: a
    positive frame rate, a header that can be packed, and, for the mono
    16-bit file of the numpy branch, which may hold twice the bytes, a frame
    rate and a size that can be packed too. *)
Definition rewritable (w : wav) : bool :=
  ((0 <? framerate w) &&
   header_fits (nchannels w) (sampwidth w) (framerate w) (Z.of_nat (length (data w))) &&
   header_fits 1 2 (framerate w) (2 * Z.of_nat (length (data w))))%Z.

(** [with wave.open(path, "wb") as wav_out: setnchannels; setsampwidth;
    setframerate; writeframes].  Opening truncates the file.  A refused
    parameter raises after that and leaves the file empty.  A header that
    cannot be packed raises after "RIFF" was written, and again when the
    file is closed: the file is left with these eight bytes.  When the
    header was packed for whole frames and the data hold more, the lengths
    are packed once more after the data were written. *)
Definition wave_write (path : string) (nch sw fr : Z) (frames : list Byte.byte) : M unit :=
  if (nch <? 1)%Z || (sw <? 1)%Z || (4 <? sw)%Z || (fr <=? 0)%Z then
    do! _ := write_file path (Blob EmptyString) in throw WaveError
  else
    let len := Z.of_nat (length frames) in
    let datalength := (len / (nch * sw) * (nch * sw))%Z in
    if negb (header_fits nch sw fr datalength) then
      do! _ := write_file path (Blob "RIFFRIFF") in throw StructError
    else if (datalength =? len)%Z || (36 + len <? 2 ^ 32)%Z then
      write_file path (Wav {| nchannels := nch; sampwidth := sw; framerate := fr; data := frames |})
    else
      do! _ := write_file path
                 (Wav {| nchannels := nch; sampwidth := sw; framerate := fr;
                         data := firstn (Z.to_nat datalength) frames |}) in
      throw StructError.

(** *** Samples *)

Fixpoint chunks {A : Type} (fuel w : nat) (l : list A) : list (list A) :=
  match fuel with
  | O => []
  | S fuel' =>
      match l with
      | [] => []
      | _ => firstn w l :: chunks fuel' w (skipn w l)
      end
  end.

Definition byte_val (b : Byte.byte) : Z := Z.of_N (Byte.to_N b).

Definition byte_of (z : Z) : Byte.byte :=
  match Byte.of_N (Z.to_N (z mod 256)) with
  | Some b => b
  | None => Byte.x00
  end.

(** Little-endian bytes to an unsigned and to a signed integer. *)
Definition le_unsigned (bs : list Byte.byte) : Z :=
  fold_right (fun b acc => (byte_val b + 256 * acc)%Z) 0%Z bs.

Definition le_signed (bs : list Byte.byte) : Z :=
  let u := le_unsigned bs in
  let bits := (8 * Z.of_nat (length bs))%Z in
  if (2 ^ (bits - 1) <=? u)%Z then (u - 2 ^ bits)%Z else u.

(** [w] little-endian bytes of the two's complement of [x]. *)
Definition le_bytes (w : nat) (x : Z) : list Byte.byte :=
  map (fun i => byte_of (x / 256 ^ Z.of_nat i)) (seq 0 w).

(** The samples of a fragment, after the checks every [audioop] function
    makes: the width is 1, 2, 3 or 4 and the fragment holds whole samples. *)
Definition audioop_samples (fragment : list Byte.byte) (width : Z) : result (list Z) :=
  if (width <? 1)%Z || (4 <? width)%Z then Raise AudioError
  else if negb (Z.of_nat (length fragment) mod width =? 0)%Z then Raise AudioError
  else Ok (map le_signed (chunks (length fragment) (Z.to_nat width) fragment)).

Definition audioop_fragment (samples : list Z) (width : Z) : list Byte.byte :=
  concat (map (le_bytes (Z.to_nat width)) samples).

(** Consecutive pairs of a list; [e] is raised when one element is left. *)
Fixpoint pairs {A : Type} (e : exn) (l : list A) : result (list (A * A)) :=
  match l with
  | [] => Ok []
  | [_] => Raise e
  | a :: b :: rest => let! ps := pairs e rest in Ok ((a, b) :: ps)
  end.

(** *** The collaborators

    Everything [audio_synth.py] calls outside the repository and outside the
    [wave] module. *)
Record env : Type := {
  (** Is [import audioop] possible (it is not from Python 3.13 on), and is
      [import numpy]? *)
  has_audioop : bool;
  has_numpy : bool;
  (** The arithmetic of [audioop] on decoded samples of a given width:
      [tomono] with factors 0.5 and 0.5 on one frame, [rms] on a fragment,
      and [mul] by [3000.0 / current_rms] on one sample. *)
  audioop_mix : Z -> Z -> Z -> Z;
  audioop_rms_samples : Z -> list Z -> Z;
  audioop_gain : Z -> Z -> Z -> Z;
  (** The float32 arithmetic of numpy: the element type, the conversions of
      lines 149 and 151-152, the mean of a stereo frame (line 159), the root
      mean square (line 162), its test against zero, the clipped gain of
      lines 167-168 given the root mean square, and line 171's conversion
      back to a 16-bit integer. *)
  f32 : Type;
  np_of_int16 : Z -> f32;
  np_of_uint8 : Z -> f32;
  np_mean2 : f32 -> f32 -> f32;
  np_rms : list f32 -> f32;
  np_is_zero : f32 -> bool;
  np_gain : f32 -> f32 -> f32;
  np_to_int16 : f32 -> Z;
  (** [os.makedirs(..., exist_ok=True)] for the directory of [out_path]. *)
  makedirs : string -> result unit;
  (** The run of the pyttsx3 engine on (text, voice, rate), from the import
      to [runAndWait] and the wait: it raises, or returns with the file it
      saved (if any). *)
  pyttsx3_run : string -> option string -> option Z -> result (option file);
  (** Is [from gtts import gTTS] possible; and [gTTS(text, "en").save]: it
      raises or yields the MP3 file. *)
  has_gtts : bool;
  gtts_save : string -> result file;
  (** The ffmpeg run of [_convert_mp3_to_wav] on an input file: [None] when
      ffmpeg is absent or exits with an error. *)
  ffmpeg_to_wav : option file -> option file;
  (** The ffprobe run of [get_audio_duration]: it raises or yields stdout. *)
  ffprobe_duration : option file -> result string;
  (** The builtin [float] on a string. *)
  py_float : string -> result spec_float
}.

Section Synthesis.

Variable E : env.

(** **** [_normalize_audio], lines 115-214 *)

(** [audioop.tomono(frames, sampwidth, 0.5, 0.5)] *)
Definition audioop_tomono (fragment : list Byte.byte) (width : Z) : result (list Byte.byte) :=
  let! samples := audioop_samples fragment width in
  let! frames := pairs AudioError samples in
  Ok (audioop_fragment (map (fun lr => (audioop_mix E) width (fst lr) (snd lr)) frames) width).

(** [audioop.rms(fragment, width)] *)
Definition audioop_rms (fragment : list Byte.byte) (width : Z) : result Z :=
  let! samples := audioop_samples fragment width in
  Ok ((audioop_rms_samples E) width samples).

(** [audioop.mul(fragment, width, float(3000) / float(current_rms))] *)
Definition audioop_mul (fragment : list Byte.byte) (width current_rms : Z)
    : result (list Byte.byte) :=
  let! samples := audioop_samples fragment width in
  Ok (audioop_fragment (map ((audioop_gain E) width current_rms) samples) width).

(** [audioop.tostereo(fragment, width, 1.0, 1.0)] *)
Definition audioop_tostereo (fragment : list Byte.byte) (width : Z) : result (list Byte.byte) :=
  let! samples := audioop_samples fragment width in
  Ok (audioop_fragment (flat_map (fun v => [v; v]) samples) width).

(** Lines 183-210. *)
Definition normalize_with_audioop (wav_path : string) (w : wav) (frames : list Byte.byte)
    : M unit :=
  let n_channels := nchannels w in
  let sampwidth := sampwidth w in
  do! mono_frames := lift (if (n_channels =? 2)%Z then audioop_tomono frames sampwidth
                           else Ok frames) in
  do! current_rms := lift (audioop_rms mono_frames sampwidth) in
  if (current_rms =? 0)%Z then ret tt
  else
    do! normalized_mono := lift (audioop_mul mono_frames sampwidth current_rms) in
    do! normalized_frames := lift (if (n_channels =? 2)%Z
                                   then audioop_tostereo normalized_mono sampwidth
                                   else Ok normalized_mono) in
    wave_write wav_path n_channels sampwidth (framerate w) normalized_frames.

(** [np.frombuffer(frames, dtype=np.int16)] *)
Definition np_frombuffer_int16 (frames : list Byte.byte) : result (list Z) :=
  if Nat.even (length frames) then Ok (map le_signed (chunks (length frames) 2 frames))
  else Raise ValueError.

(** Lines 158-159: the two channels of a stereo signal are averaged. *)
Definition np_downmix (n_channels : Z) (audio_data : list (f32 E)) : result (list (f32 E)) :=
  if (n_channels =? 2)%Z
  then let! ps := pairs ValueError audio_data in
       Ok (map (fun lr => (np_mean2 E) (fst lr) (snd lr)) ps)
  else Ok audio_data.

(** Lines 146-179. *)
Definition normalize_with_numpy (wav_path : string) (w : wav) (frames : list Byte.byte)
    : M unit :=
  do! _ := lift (if (has_numpy E) then Ok tt else Raise ImportError) in
  let n_channels := nchannels w in
  let decoded : option (result (list (f32 E))) :=
    if (sampwidth w =? 2)%Z then
      Some (let! xs := np_frombuffer_int16 frames in Ok (map (np_of_int16 E) xs))
    else if (sampwidth w =? 1)%Z then
      Some (Ok (map (fun b => (np_of_uint8 E) (byte_val b)) frames))
    else None in
  match decoded with
  | None => ret tt
  | Some r =>
      do! audio_data := lift r in
      do! audio_data := lift (np_downmix n_channels audio_data) in
      let current_rms := (np_rms E) audio_data in
      if (np_is_zero E) current_rms then ret tt
      else
        let normalized_frames :=
          concat (map (fun x => le_bytes 2 ((np_to_int16 E) ((np_gain E) current_rms x))) audio_data) in
        wave_write wav_path 1 2 (framerate w) normalized_frames
  end.

Definition _normalize_audio (wav_path : string) : M unit :=
  catch
    (do! w := wave_open_read wav_path in
     let frames := readframes w in
     match frames with
     | [] => ret tt
     | _ =>
         if (has_audioop E) then normalize_with_audioop wav_path w frames
         else normalize_with_numpy wav_path w frames
     end)
    (fun e => emit (NormalizationWarning e)).

(** **** The engines *)

(** Lines 47-84. *)
Definition _synthesize_pyttsx3 (text out_path : string) (voice : option string)
    (rate : option Z) : M string :=
  do! _ := emit (Started Primary) in
  do! saved := lift ((pyttsx3_run E) text voice rate) in
  do! _ := match saved with
           | Some f => write_file out_path f
           | None => ret tt
           end in
  do! present := read_file out_path in
  match present with
  | None => throw NoOutputFile
  | Some _ =>
      do! _ := _normalize_audio out_path in
      ret out_path
  end.

(** [s.replace(old, new)] for a non-empty [old]. *)
Fixpoint replace_fuel (fuel : nat) (old new s : string) : string :=
  match fuel with
  | O => s
  | S fuel' =>
      match s with
      | EmptyString => EmptyString
      | String c r =>
          if String.prefix old s
          then new +:+ replace_fuel fuel' old new
                         (substring (String.length old) (String.length s) s)
          else String c (replace_fuel fuel' old new r)
      end
  end.

Definition replace (old new s : string) : string :=
  replace_fuel (String.length s) old new s.

(** Lines 217-227. *)
Definition _convert_mp3_to_wav (mp3_path wav_path : string) : M unit :=
  do! src := read_file mp3_path in
  match (ffmpeg_to_wav E) src with
  | Some f => write_file wav_path f
  | None => throw ConversionFailed
  end.

(** Lines 87-112. *)
Definition _synthesize_gtts (text out_path : string) : M string :=
  do! _ := emit (Started Secondary) in
  catch
    (do! _ := lift (if (has_gtts E) then Ok tt else Raise ImportError) in
     let mp3_path := if Text.endswith out_path ".wav" then replace ".wav" ".mp3" out_path
                     else out_path in
     do! mp3 := lift ((gtts_save E) text) in
     do! _ := write_file mp3_path mp3 in
     do! _ := if Text.endswith out_path ".wav" && negb (String.eqb mp3_path out_path)
              then do! _ := _convert_mp3_to_wav mp3_path out_path in unlink mp3_path
              else ret tt in
     ret out_path)
    (fun e => match e with
              | ImportError => throw NoFallbackEngine
              | _ => throw e
              end).

(** **** [synthesize], lines 13-44 *)
Definition synthesize (text out_path : string) (voice : option string) (rate : option Z)
    : M string :=
  if Text.is_empty text || Text.is_empty (Text.strip text) then throw EmptyTextError
  else
    do! _ := lift ((makedirs E) out_path) in
    catch (_synthesize_pyttsx3 text out_path voice rate)
      (fun e =>
         do! _ := emit (FallbackWarning e) in
         catch (_synthesize_gtts text out_path)
           (fun e2 => throw (SynthesisFailure e e2))).

(** **** [get_audio_duration], lines 230-257 *)

(** The body of the outer [try] (lines 241-245). *)
Definition duration_from_header (audio_path : string) : M spec_float :=
  do! w := wave_open_read audio_path in
  let frames := nframes w in
  let sample_rate := framerate w in
  lift (let! r := PyFloat.float_of_int sample_rate in PyFloat.int_div frames r).

(** The body of the inner [try] (lines 249-255). *)
Definition duration_from_probe (audio_path : string) : M spec_float :=
  do! f := read_file audio_path in
  do! stdout := lift ((ffprobe_duration E) f) in
  lift ((py_float E) (Text.strip stdout)).

Definition get_audio_duration (audio_path : string) : M spec_float :=
  catch (duration_from_header audio_path)
    (fun _ => catch (duration_from_probe audio_path)
                (fun _ => ret (S754_zero false))).

End Synthesis.

End AudioSynth.

(** ** assembler.py *)
Module Assembler.

(** A directory listing: plain files, and directories with their listings. *)
#[warnings="-register-all"]
Inductive entry : Type :=
| FileEntry (name : string)
| DirEntry (name : string) (children : list entry).

(** [os.path.join(root, name)] for a relative [name] *)
Definition join (root name : string) : string :=
  if Text.is_empty root then name
  else if Text.endswith root "/" then root +:+ name
  else root +:+ "/" +:+ name.

(** [f.lower().endswith(('.png','.jpg','.jpeg'))] *)
Definition is_frame (f : string) : bool :=
  let l := Text.lower f in
  Text.endswith l ".png" || Text.endswith l ".jpg" || Text.endswith l ".jpeg".

Definition frames_here (root : string) (listing : list entry) : list string :=
  flat_map (fun e => match e with
                     | FileEntry f => if is_frame f then [join root f] else []
                     | DirEntry _ _ => []
                     end) listing.

(** What one entry of the listing of [root] adds to the frames. *)
Definition here (root : string) (e : entry) : list string :=
  match e with
  | FileEntry f => if is_frame f then [join root f] else []
  | DirEntry _ _ => []
  end.

(** The frames below one entry of the directory [root], in the order in
    which [os.walk] reaches them. *)
Fixpoint frames_below (root : string) (e : entry) {struct e} : list string :=
  match e with
  | FileEntry _ => []
  | DirEntry d children =>
      frames_here (join root d) children ++ flat_map (frames_below (join root d)) children
  end.

(** Is there a file with an image extension at or below this entry? *)
Fixpoint contains_frame (e : entry) : bool :=
  match e with
  | FileEntry f => is_frame f
  | DirEntry _ children => existsb contains_frame children
  end.

(** Lines 15-19 on [frames_dir]; [None] when it is not a directory, and
    then [os.walk] yields nothing. *)
Definition collect_frames (frames_dir : string) (listing : option (list entry)) : list string :=
  match listing with
  | None => []
  | Some l => frames_here frames_dir l ++ flat_map (frames_below frames_dir) l
  end.

Fixpoint insert_sorted (x : string) (l : list string) : list string :=
  match l with
  | [] => [x]
  | y :: rest => if String.leb x y then x :: l else y :: insert_sorted x rest
  end.

(** [sorted(frames)] *)
Definition sorted (l : list string) : list string := fold_right insert_sorted [] l.

(** The external programs [assemble] starts. *)
Inductive tool_call : Type :=
| VersionProbe                       (* ffmpeg -version *)
| Encode (frames : list string)      (* ffmpeg -y -r fps -i frame_%06d.png ... out_path *).

Record world (video : Type) : Type := {
  output : option video;      (* the file at out_path *)
  calls : list tool_call
}.
Arguments output {video} w.
Arguments calls {video} w.

Section Assemble.

Variable image : Type.
Variable video : Type.

(** Does [ffmpeg -version] run and exit with 0? *)
Variable ffmpeg_present : bool.

(** [Image.open(src).convert("RGB")] *)
Variable open_image : string -> result image.

(** The encoder run of line 36 on the re-encoded frames, the audio file
    and the frame rate. *)
Variable ffmpeg_encode : list image -> string -> Z -> result video.

(** Lines 7-12. *)
Definition _check_ffmpeg (w : world video) : bool * world video :=
  (ffmpeg_present, {| output := output w; calls := calls w ++ [VersionProbe] |}).

Fixpoint open_all (frames : list string) : result (list image) :=
  match frames with
  | [] => Ok []
  | src :: rest =>
      let! img := open_image src in
      let! imgs := open_all rest in
      Ok (img :: imgs)
  end.

(** Lines 14-39. *)
Definition assemble (frames_dir : string) (listing : option (list entry))
    (audio_file : string) (fps : Z) (w : world video) : result unit * world video :=
  let frames := sorted (collect_frames frames_dir listing) in
  match frames with
  | [] => (Raise NoFramesError, w)
  | _ =>
      let '(present, w) := _check_ffmpeg w in
      if negb present then (Raise MissingToolError, w)
      else
        match open_all frames with
        | Raise e => (Raise e, w)
        | Ok imgs =>
            let w := {| output := output w; calls := calls w ++ [Encode frames] |} in
            match ffmpeg_encode imgs audio_file fps with
            | Raise e => (Raise e, w)
            | Ok v => (Ok tt, {| output := Some v; calls := calls w |})
            end
        end
  end.

End Assemble.

Arguments _check_ffmpeg {video} ffmpeg_present w.
Arguments open_all {image} open_image frames.
Arguments assemble {image video} ffmpeg_present open_image ffmpeg_encode
  frames_dir listing audio_file fps w.

End Assembler.

(** ** cli.py *)
Module Cli.

(** Lines 57-63: what one dialogue item adds to the text to speak. *)
Definition dialogue_part (d : Parser.dialogue_item) : list string :=
  if negb (Text.is_empty (Parser.speaker d)) && negb (Text.is_empty (Parser.text d))
  then [Parser.speaker d +:+ " says: " +:+ Parser.text d]
  else if negb (Text.is_empty (Parser.text d)) then [Parser.text d]
  else [].

(** Lines 50-63 for one scene. *)
Definition scene_parts (sc : Parser.scene) : list string :=
  (if Text.is_empty (Parser.description sc) then [] else [Parser.description sc]) ++
  flat_map dialogue_part (Parser.dialogue sc).

(** Lines 49-67: the text that [ttv_run] passes to [synthesize]. *)
Definition audio_text (scenes : list Parser.scene) : string :=
  let audio_text := String.concat ". " (flat_map scene_parts scenes) in
  if Text.is_empty (Text.strip audio_text) then "Scene narration." else audio_text.

(** Lines 41 and 71: [ttv_run] hands to [assemble] the directory that
    [generate_frames] wrote into.  What [os.walk] lists there, when the
    renderer's files are [fs]: one directory for each directory name that
    holds a file, with its files.  (An empty directory adds no frame.) *)
Definition dirs {image : Type} (fs : gmap (string * string) image) : gset string :=
  set_map fst (dom fs).

Definition tree_of {image : Type} (fs : gmap (string * string) image) : list Assembler.entry :=
  map (fun d => Assembler.DirEntry d
                  (map Assembler.FileEntry (elements (VisualGen.listing d fs))))
      (elements (dirs fs)).

End Cli.

(** ** Sample data *)
Module Samples.
Import VisualGen.

(** Stand-ins for the hash and for the PIL drawing: the image is the text
    drawn on it, title first. *)
Definition toy_digest (s : string) : string := s.
Definition toy_render (prompt : string) (info : scene_info) : string :=
  scene_dir info +:+ ": " +:+ prompt.

(** A WAV file with one frame of three 16-bit channels (1000, -1000, 500). *)
Definition three_channel_wav : AudioSynth.wav :=
  {| AudioSynth.nchannels := 3; AudioSynth.sampwidth := 2; AudioSynth.framerate := 22050;
     AudioSynth.data := [Byte.xe8; Byte.x03; Byte.x18; Byte.xfc; Byte.xf4; Byte.x01] |}.

(** Stand-ins for the collaborators of [audio_synth.py]: integers in place
    of float32, the largest magnitude in place of the root mean square, a
    gain of one; the offline engine saves [three_channel_wav], the fallback
    engine and the probe are absent. *)
Definition toy_env : AudioSynth.env :=
  {| AudioSynth.has_audioop := false;
     AudioSynth.has_numpy := true;
     AudioSynth.audioop_mix := fun _ l r => ((l + r) / 2)%Z;
     AudioSynth.audioop_rms_samples := fun _ l => fold_right (fun x m => Z.max (Z.abs x) m) 0%Z l;
     AudioSynth.audioop_gain := fun _ _ x => x;
     AudioSynth.f32 := Z;
     AudioSynth.np_of_int16 := fun x => x;
     AudioSynth.np_of_uint8 := fun x => (x - 128)%Z;
     AudioSynth.np_mean2 := fun l r => ((l + r) / 2)%Z;
     AudioSynth.np_rms := fun l => fold_right (fun x m => Z.max (Z.abs x) m) 0%Z l;
     AudioSynth.np_is_zero := Z.eqb 0;
     AudioSynth.np_gain := fun _ x => x;
     AudioSynth.np_to_int16 := fun x => x;
     AudioSynth.makedirs := fun _ => Ok tt;
     AudioSynth.pyttsx3_run := fun _ _ _ => Ok (Some (AudioSynth.Wav three_channel_wav));
     AudioSynth.has_gtts := false;
     AudioSynth.gtts_save := fun _ => Raise (External "offline");
     AudioSynth.ffmpeg_to_wav := fun _ => None;
     AudioSynth.ffprobe_duration := fun _ => Raise (External "ffprobe not found");
     AudioSynth.py_float := fun _ => Raise ValueError |}.

(** [toy_env] where making the directory and the offline engine end as
    given. *)
Definition toy_env_of (made : result unit) (spoken : result (option AudioSynth.file))
    : AudioSynth.env :=
  {| AudioSynth.has_audioop := false;
     AudioSynth.has_numpy := true;
     AudioSynth.audioop_mix := fun _ l r => ((l + r) / 2)%Z;
     AudioSynth.audioop_rms_samples := fun _ l => fold_right (fun x m => Z.max (Z.abs x) m) 0%Z l;
     AudioSynth.audioop_gain := fun _ _ x => x;
     AudioSynth.f32 := Z;
     AudioSynth.np_of_int16 := fun x => x;
     AudioSynth.np_of_uint8 := fun x => (x - 128)%Z;
     AudioSynth.np_mean2 := fun l r => ((l + r) / 2)%Z;
     AudioSynth.np_rms := fun l => fold_right (fun x m => Z.max (Z.abs x) m) 0%Z l;
     AudioSynth.np_is_zero := Z.eqb 0;
     AudioSynth.np_gain := fun _ x => x;
     AudioSynth.np_to_int16 := fun x => x;
     AudioSynth.makedirs := fun _ => made;
     AudioSynth.pyttsx3_run := fun _ _ _ => spoken;
     AudioSynth.has_gtts := false;
     AudioSynth.gtts_save := fun _ => Raise (External "offline");
     AudioSynth.ffmpeg_to_wav := fun _ => None;
     AudioSynth.ffprobe_duration := fun _ => Raise (External "ffprobe not found");
     AudioSynth.py_float := fun _ => Raise ValueError |}.

(** The output directory cannot be made. *)
Definition readonly_env : AudioSynth.env :=
  toy_env_of (Raise (External "Permission denied")) (Ok None).

(** The offline engine fails and the fallback engine is not installed. *)
Definition offline_env : AudioSynth.env :=
  toy_env_of (Ok tt) (Raise (External "no audio device")).

(** A world whose only file is [three_channel_wav], at out.wav. *)
Definition toy_world : AudioSynth.world :=
  {| AudioSynth.files := {[ "out.wav" := AudioSynth.Wav three_channel_wav ]};
     AudioSynth.log := [] |}.

(** A world with no files, where nothing was printed. *)
Definition silent_world : AudioSynth.world :=
  {| AudioSynth.files := ∅; AudioSynth.log := [] |}.

(** The literal [1.0]. *)
Definition one : spec_float := S754_finite false 4503599627370496 (-52).

(** The scene of [test_generate_frames_correct_number]. *)
Definition test_scene_48 : scene_info :=
  {| scene_id := Some "scene_01"; description := Some "Test scene";
     visual_prompts := Some ["Test prompt"]; duration_hint := Value PyFloat.two |}.

Definition frames_48 : gmap (string * string) string :=
  _generate_scene_frames toy_digest toy_render (scene_dir test_scene_48)
    (prompts_of test_scene_48) test_scene_48 48 ∅.

(** The two scenes of [test_generate_frames_caching]. *)
Definition caching_scene_1 : scene_info :=
  {| scene_id := Some "scene_01"; description := Some "Test";
     visual_prompts := Some ["Same prompt"]; duration_hint := Value one |}.

Definition caching_scene_2 : scene_info :=
  {| scene_id := Some "scene_02"; description := Some "Test 2";
     visual_prompts := Some ["Same prompt"]; duration_hint := Value one |}.

Definition caching_frames : gmap (string * string) string :=
  _generate_scene_frames toy_digest toy_render (scene_dir caching_scene_2)
    (prompts_of caching_scene_2) caching_scene_2 24
    (_generate_scene_frames toy_digest toy_render (scene_dir caching_scene_1)
       (prompts_of caching_scene_1) caching_scene_1 24 ∅).

(** Two blocks of dialogue and nothing else. *)
Definition two_speakers_script : string :=
  "Alice: Hi" +:+ String Text.newline (String Text.newline "Bob: Yo").

Definition two_speakers_scenes : list Parser.scene :=
  [ {| Parser.scene_id := "scene_01"; Parser.start_cue := Missing;
       Parser.description := "Scene 1"; Parser.characters := ["Alice"];
       Parser.dialogue := [ {| Parser.speaker := "Alice"; Parser.text := "Hi" |} ];
       Parser.visual_prompts := ["Scene 1"]; Parser.duration_hint := Missing |};
    {| Parser.scene_id := "scene_02"; Parser.start_cue := Missing;
       Parser.description := "Scene 2"; Parser.characters := ["Bob"];
       Parser.dialogue := [ {| Parser.speaker := "Bob"; Parser.text := "Yo" |} ];
       Parser.visual_prompts := ["Scene 2"]; Parser.duration_hint := Missing |} ].

(** A duration line, a blank line, a marker line. *)
Definition duplicate_id_script : string :=
  "duration: 5" +:+ String Text.newline (String Text.newline "Scene 1").

Definition duplicate_id_scene_1 : Parser.scene :=
  {| Parser.scene_id := "scene_01"; Parser.start_cue := Missing;
     Parser.description := "Scene 1"; Parser.characters := []; Parser.dialogue := [];
     Parser.visual_prompts := ["Scene 1"];
     Parser.duration_hint := Value (S754_finite false 5629499534213120 (-50)) |}.

Definition duplicate_id_scene_2 : Parser.scene :=
  {| Parser.scene_id := "scene_01"; Parser.start_cue := Missing;
     Parser.description := "Scene 1"; Parser.characters := []; Parser.dialogue := [];
     Parser.visual_prompts := ["Scene 1"]; Parser.duration_hint := Missing |}.

Definition duplicate_id_scenes : list Parser.scene :=
  [duplicate_id_scene_1; duplicate_id_scene_2].

(** The files after the first of these scenes was rendered at one frame per
    second, and after both were. *)
Definition duplicate_id_frames_1 : gmap (string * string) string :=
  _generate_scene_frames toy_digest toy_render "scene_01" ["Scene 1"]
    (of_scene duplicate_id_scene_1) 5 ∅.

Definition duplicate_id_frames : gmap (string * string) string :=
  _generate_scene_frames toy_digest toy_render "scene_01" ["Scene 1"]
    (of_scene duplicate_id_scene_2) 2 duplicate_id_frames_1.

(** The files after the first of the two scenes was rendered. *)
Definition caching_frames_1 : gmap (string * string) string :=
  _generate_scene_frames toy_digest toy_render (scene_dir caching_scene_1)
    (prompts_of caching_scene_1) caching_scene_1 24 ∅.

(** [toy_env] with the two imports of [_normalize_audio] as given. *)
Definition toy_env_with (audioop numpy : bool) : AudioSynth.env :=
  {| AudioSynth.has_audioop := audioop;
     AudioSynth.has_numpy := numpy;
     AudioSynth.audioop_mix := fun _ l r => ((l + r) / 2)%Z;
     AudioSynth.audioop_rms_samples := fun _ l => fold_right (fun x m => Z.max (Z.abs x) m) 0%Z l;
     AudioSynth.audioop_gain := fun _ _ x => x;
     AudioSynth.f32 := Z;
     AudioSynth.np_of_int16 := fun x => x;
     AudioSynth.np_of_uint8 := fun x => (x - 128)%Z;
     AudioSynth.np_mean2 := fun l r => ((l + r) / 2)%Z;
     AudioSynth.np_rms := fun l => fold_right (fun x m => Z.max (Z.abs x) m) 0%Z l;
     AudioSynth.np_is_zero := Z.eqb 0;
     AudioSynth.np_gain := fun _ x => x;
     AudioSynth.np_to_int16 := fun x => x;
     AudioSynth.makedirs := fun _ => Ok tt;
     AudioSynth.pyttsx3_run := fun _ _ _ => Ok (Some (AudioSynth.Wav three_channel_wav));
     AudioSynth.has_gtts := false;
     AudioSynth.gtts_save := fun _ => Raise (External "offline");
     AudioSynth.ffmpeg_to_wav := fun _ => None;
     AudioSynth.ffprobe_duration := fun _ => Raise (External "ffprobe not found");
     AudioSynth.py_float := fun _ => Raise ValueError |}.

(** A WAV file with one frame of two 16-bit channels (1000, 500). *)
Definition stereo_wav : AudioSynth.wav :=
  {| AudioSynth.nchannels := 2; AudioSynth.sampwidth := 2; AudioSynth.framerate := 22050;
     AudioSynth.data := [Byte.xe8; Byte.x03; Byte.xf4; Byte.x01] |}.

(** A mono file of one 16-bit sample (1000) whose header gives a frame rate
    of 0. *)
Definition zero_rate_wav : AudioSynth.wav :=
  {| AudioSynth.nchannels := 1; AudioSynth.sampwidth := 2; AudioSynth.framerate := 0;
     AudioSynth.data := [Byte.xe8; Byte.x03] |}.

(** The same file with a frame rate of 2^31 in its header. *)
Definition high_rate_wav : AudioSynth.wav :=
  {| AudioSynth.nchannels := 1; AudioSynth.sampwidth := 2;
     AudioSynth.framerate := 2147483648;
     AudioSynth.data := [Byte.xe8; Byte.x03] |}.

(** A world whose only file is [f], at out.wav. *)
Definition world_with (f : AudioSynth.file) : AudioSynth.world :=
  {| AudioSynth.files := {[ "out.wav" := f ]}; AudioSynth.log := [] |}.

(** A font in which every character is 10 units wide. *)
Definition toy_width (s : string) : Z := (10 * Z.of_nat (String.length s))%Z.

(** A frames directory with two scenes, one file that is no image, and the
    cache. *)
Definition frame_tree : list Assembler.entry :=
  [ Assembler.DirEntry "scene_02" [Assembler.FileEntry "frame_000001.png"];
    Assembler.DirEntry "scene_01"
      [Assembler.FileEntry "frame_000001.PNG"; Assembler.FileEntry "notes.txt"];
    Assembler.DirEntry ".cache" [Assembler.FileEntry "0a1b.png"] ].

(** Stand-ins for PIL and for the encoder: an image is its path, a video is
    the list of its frames; [picky_open] cannot read upper-case extensions. *)
Definition toy_open (src : string) : result string := Ok src.

Definition picky_open (src : string) : result string :=
  if Text.endswith src ".PNG" then Raise (External "cannot identify image file") else Ok src.

Definition toy_encode (imgs : list string) (audio_file : string) (fps : Z)
    : result (list string) := Ok imgs.

Definition idle : Assembler.world (list string) :=
  {| Assembler.output := None; Assembler.calls := [] |}.

End Samples.

(** * Properties *)

(** ** Strings *)
Module TextFacts.
Import Text.

Lemma is_empty_true (s : string) : is_empty s = true <-> s = EmptyString.
Proof. destruct s; simpl; split; congruence. Qed.

Lemma is_empty_false (s : string) : is_empty s = false <-> s <> EmptyString.
Proof. destruct s; simpl; split; congruence. Qed.

Lemma lstrip_empty (s : string) : lstrip s = EmptyString <-> all_space s = true.
Proof.
  induction s as [|c r IH]; simpl; [tauto|].
  destruct (is_space c); simpl; [exact IH|].
  split; discriminate.
Qed.

Lemma rstrip_empty (s : string) : rstrip s = EmptyString <-> all_space s = true.
Proof.
  induction s as [|c r IH]; simpl; [tauto|].
  destruct (rstrip r) eqn:E.
  - destruct (is_space c); simpl.
    + split; intros _; [apply IH|]; reflexivity.
    + split; discriminate.
  - split; [discriminate|].
    intros H. apply andb_true_iff in H as [_ H]. apply IH in H. discriminate.
Qed.

Lemma all_space_lstrip (s : string) : all_space (lstrip s) = all_space s.
Proof.
  induction s as [|c r IH]; simpl; [reflexivity|].
  destruct (is_space c) eqn:E; simpl; [exact IH|].
  rewrite E. reflexivity.
Qed.

(** [s.strip()] is empty exactly when [s] holds nothing but whitespace. *)
Lemma strip_empty (s : string) : strip s = EmptyString <-> all_space s = true.
Proof. unfold strip. rewrite rstrip_empty, all_space_lstrip. tauto. Qed.

Lemma split_lines_nonempty (s : string) : split_lines s <> [].
Proof.
  induction s as [|c r IH]; simpl; [discriminate|].
  destruct (Ascii.eqb c newline); [discriminate|].
  destruct (split_lines r); [discriminate|discriminate].
Qed.

(** A text is blank exactly when each of its lines is. *)
Lemma all_space_split_lines (s : string) :
  all_space s = forallb all_space (split_lines s).
Proof.
  induction s as [|c r IH]; simpl; [reflexivity|].
  destruct (Ascii.eqb c newline) eqn:E.
  - apply Ascii.eqb_eq in E. subst c. simpl. exact IH.
  - destruct (split_lines r) as [|l ls] eqn:El.
    + exfalso. exact (split_lines_nonempty r El).
    + simpl in *. rewrite IH. rewrite andb_assoc. reflexivity.
Qed.

Lemma length_append (a b : string) :
  String.length (a +:+ b) = (String.length a + String.length b)%nat.
Proof. induction a as [|c a IH]; simpl; [reflexivity|]. rewrite IH. reflexivity. Qed.

Lemma append_inj_l (s a b : string) : s +:+ a = s +:+ b -> a = b.
Proof. induction s; simpl; [auto|]. intros [= H]. auto. Qed.

Lemma append_inj_r (a b s : string) : a +:+ s = b +:+ s -> a = b.
Proof.
  intros H.
  assert (L : String.length a = String.length b).
  { apply (f_equal String.length) in H. rewrite !length_append in H. lia. }
  revert b H L. induction a as [|c a IH]; intros [|c' b] H L; simpl in *; try discriminate.
  - reflexivity.
  - injection H as -> H. f_equal. apply IH; [exact H|lia].
Qed.

Lemma int_from_uint (d : Decimal.uint) (acc : positive) :
  int_from (Npos acc) (NilEmpty.string_of_uint d) = Npos (Pos.of_uint_acc d acc).
Proof.
  revert acc. induction d; intros acc; simpl; try reflexivity;
    unfold int_from in *; simpl; rewrite <- IHd; f_equal;
    unfold digit_value, code; simpl; lia.
Qed.

Lemma int_from_zero (d : Decimal.uint) :
  int_from 0 (NilEmpty.string_of_uint d) = N.of_uint d.
Proof.
  induction d; try reflexivity; try exact IHd;
    unfold N.of_uint; simpl Pos.of_uint; rewrite <- int_from_uint; reflexivity.
Qed.

(** [int(str(n)) = n] *)
Lemma int_of_str (n : N) : int_of_digits (str_of_N n) = n.
Proof.
  unfold int_of_digits, str_of_N. fold (int_from 0 (NilEmpty.string_of_uint (N.to_uint n))).
  rewrite int_from_zero. apply Unsigned.of_to.
Qed.

Lemma int_of_zeros (k : nat) (s : string) : int_of_digits (zeros k +:+ s) = int_of_digits s.
Proof. induction k as [|k IH]; simpl; [reflexivity|]. exact IH. Qed.

Lemma int_of_format_06d (n : N) : int_of_digits (format_06d n) = n.
Proof. unfold format_06d. rewrite int_of_zeros. apply int_of_str. Qed.

Lemma int_of_format_02d (n : N) : int_of_digits (format_02d n) = n.
Proof.
  unfold format_02d. destruct (String.length (str_of_N n) <? 2)%nat.
  - change (String "0" (str_of_N n)) with (zeros 1 +:+ str_of_N n).
    rewrite int_of_zeros. apply int_of_str.
  - apply int_of_str.
Qed.

Lemma length_zeros (k : nat) : String.length (zeros k) = k.
Proof. induction k as [|k IH]; simpl; [reflexivity|]. rewrite IH. reflexivity. Qed.

Lemma all_digits_append (a b : string) :
  all_digits (a +:+ b) = all_digits a && all_digits b.
Proof.
  induction a as [|c a IH]; [reflexivity|].
  change (all_digits (String c (a +:+ b)) = all_digits (String c a) && all_digits b).
  simpl. rewrite IH, andb_assoc. reflexivity.
Qed.

Lemma all_digits_zeros (k : nat) : all_digits (zeros k) = true.
Proof. induction k as [|k IH]; [reflexivity|exact IH]. Qed.

Lemma all_digits_str (n : N) : all_digits (str_of_N n) = true.
Proof.
  unfold str_of_N. generalize (N.to_uint n). intros d.
  induction d; simpl; try exact IHd; reflexivity.
Qed.

(** [f"{n:06d}"] is the decimal numeral of [n], with zeros in front up to
    six characters. *)
Lemma format_06d_spec (n : N) :
  all_digits (format_06d n) = true /\ int_of_digits (format_06d n) = n /\
  String.length (format_06d n) = Nat.max 6 (String.length (str_of_N n)).
Proof.
  split; [|split].
  - unfold format_06d. rewrite all_digits_append, all_digits_zeros, all_digits_str. reflexivity.
  - unfold format_06d. rewrite int_of_zeros. apply int_of_str.
  - unfold format_06d. rewrite length_append, length_zeros. lia.
Qed.

Lemma format_06d_inj (i j : N) : format_06d i = format_06d j -> i = j.
Proof. intros H. rewrite <- (int_of_format_06d i), H. apply int_of_format_06d. Qed.

End TextFacts.

(** ** Floats *)
Module PyFloatFacts.
Import PyFloat.

Lemma magnitude_nonneg (m : positive) (e : Z) : (0 <= magnitude m e)%Z.
Proof.
  unfold magnitude. destruct e.
  - apply Z.shiftl_nonneg. lia.
  - apply Z.shiftl_nonneg. lia.
  - apply Z.shiftr_nonneg. lia.
Qed.

(** Truncation and floor differ on negative numbers only, where both are
    below 1: under [max(1, .)] they agree. *)
Lemma max_int_is_max_floor (x : spec_float) (n : Z) :
  int_of_float x = Ok n -> exists fl, floor x = Ok fl /\ Z.max 1 n = Z.max 1 fl.
Proof.
  destruct x as [s|s| |s m e]; simpl; try discriminate.
  - intros [= <-]. eauto.
  - pose proof (magnitude_nonneg m e). destruct s; intros [= <-].
    + destruct (is_integral m e); eexists; (split; [reflexivity|lia]).
    + eauto.
Qed.
End PyFloatFacts.

(** ** The parser *)
Module ParserFacts.
Import Text Re Parser TextFacts.

(** A pattern that starts with a literal matches only a subject that
    starts with that character (up to case, when case is ignored). *)
Lemma rmatch_first_literal (icase : bool) (p : ascii) (ps rest : regex)
    (c : ascii) (s : string) (m : captures) :
  rmatch icase (Cat Bol (Cat (Cat (Lit p) ps) rest)) (String c s) = Some m ->
  lit_eqb icase p c = true.
Proof.
  unfold rmatch. simpl. destruct (lit_eqb icase p c); [reflexivity|discriminate].
Qed.

Lemma narration_not_blank (m : captures) : rmatch true narration_re EmptyString <> Some m.
Proof. discriminate. Qed.

(** A narration line is not a scene marker: the two patterns start with
    different letters. *)
Lemma narration_not_marker (line : string) (m : captures) :
  rmatch true narration_re line = Some m -> rmatch true scene_re line = None.
Proof.
  intros H. destruct line as [|c s]; [discriminate|].
  apply (rmatch_first_literal true "N" (lits "arration:")) in H.
  destruct (rmatch true scene_re (String c s)) as [m'|] eqn:E; [|reflexivity].
  apply (rmatch_first_literal true "S" (lits "cene")) in E.
  unfold lit_eqb in H, E.
  apply Ascii.eqb_eq in H. apply Ascii.eqb_eq in E.
  rewrite <- H in E. discriminate.
Qed.

Lemma step_blank (st : pstate) (raw : string) :
  strip raw = EmptyString ->
  step st raw = {| scenes := close_scene st; current_scene := None;
                   scene_counter := scene_counter st |}.
Proof. intros H. unfold step. rewrite H. reflexivity. Qed.

(** After a line that is not blank a scene is open. *)
Lemma step_nonblank_opens (st : pstate) (raw : string) :
  strip raw <> EmptyString -> is_Some (current_scene (step st raw)).
Proof.
  intros H. unfold step.
  destruct (strip raw) as [|c s] eqn:E; [congruence|]. simpl is_empty. cbv iota.
  destruct (rmatch true scene_re (String c s)); [simpl; eauto|].
  destruct (current_scene st); simpl; eauto.
Qed.

Lemma close_scene_started (st : pstate) : started st -> close_scene st <> [].
Proof.
  unfold started, close_scene. intros [[sc H]|H].
  - rewrite H. intros E. apply app_eq_nil in E as [_ E]. discriminate.
  - destruct (current_scene st); [|exact H].
    intros E. apply app_eq_nil in E as [_ E]. discriminate.
Qed.

Lemma step_started (st : pstate) (raw : string) : started st -> started (step st raw).
Proof.
  intros H. destruct (string_dec (strip raw) EmptyString) as [E|E].
  - rewrite (step_blank st raw E). right. simpl. apply close_scene_started, H.
  - left. apply step_nonblank_opens, E.
Qed.

Lemma fold_step_started (lines : list string) (st : pstate) :
  started st \/ Exists (fun l => strip l <> EmptyString) lines ->
  started (fold_left step lines st).
Proof.
  revert st. induction lines as [|l ls IH]; intros st H; simpl.
  - destruct H as [H|H]; [exact H|inversion H].
  - apply IH. destruct H as [H|H].
    + left. apply step_started, H.
    + inversion H; subst.
      * left. left. apply step_nonblank_opens. assumption.
      * right. assumption.
Qed.

(** A text with a character that is not whitespace has a line that is not
    blank. *)
Lemma nonblank_line (text : string) :
  all_space text = false -> Exists (fun l => strip l <> EmptyString) (split_lines text).
Proof.
  rewrite all_space_split_lines. generalize (split_lines text).
  induction l as [|x xs IH]; simpl; [discriminate|].
  destruct (all_space x) eqn:E; simpl.
  - intros H. apply Exists_cons_tl, IH, H.
  - intros _. apply Exists_cons_hd. rewrite strip_empty. congruence.
Qed.

Lemma scan_started (text : string) : all_space text = false -> started (scan text).
Proof. intros H. apply fold_step_started. right. apply nonblank_line, H. Qed.

(** The test of line 31. *)
Lemma empty_check (text : string) :
  is_empty text || is_empty (strip text) = true <->
  text = EmptyString \/ all_space text = true.
Proof.
  rewrite orb_true_iff, !is_empty_true, strip_empty. tauto.
Qed.

(** The second [raise] of [parse_script] (line 146) is never reached: a
    text that passes the first check opens a scene. *)
Lemma parse_script_never_no_scenes (text : string) :
  parse_script text <> Raise NoScenesFoundError.
Proof.
  unfold parse_script.
  destruct (is_empty text || is_empty (strip text)) eqn:E; [discriminate|].
  assert (H : all_space text = false).
  { destruct (all_space text) eqn:A; [|reflexivity].
    assert (X : is_empty text || is_empty (strip text) = true)
      by (apply empty_check; right; exact A).
    congruence. }
  pose proof (close_scene_started _ (scan_started text H)) as N.
  destruct (close_scene (scan text)); [congruence|discriminate].
Qed.

(** C4.  [parse_script] raises the first error exactly when the text is
    empty or all whitespace; it raises the second one whenever the scan ends
    without a scene; a text of blank lines only gets one of the two; and no
    text is answered with an empty list of scenes. *)
Theorem parse_script_failures (text : string) :
  (parse_script text = Raise EmptyInputError <->
     text = EmptyString \/ all_space text = true) /\
  (~ (text = EmptyString \/ all_space text = true) ->
     close_scene (scan text) = [] -> parse_script text = Raise NoScenesFoundError) /\
  (forallb all_space (split_lines text) = true ->
     parse_script text = Raise EmptyInputError \/
     parse_script text = Raise NoScenesFoundError) /\
  parse_script text <> Ok [].
Proof.
  pose proof (empty_check text) as C.
  unfold parse_script.
  destruct (is_empty text || is_empty (strip text)) eqn:E.
  - assert (B : text = EmptyString \/ all_space text = true) by (apply C; reflexivity).
    repeat split; auto; try discriminate. intros N. contradiction.
  - assert (B : ~ (text = EmptyString \/ all_space text = true)).
    { intros B. apply C in B. discriminate. }
    repeat split.
    + destruct (close_scene (scan text)); discriminate.
    + intros B'. contradiction.
    + intros _ H. rewrite H. reflexivity.
    + intros H. rewrite <- all_space_split_lines in H. exfalso. apply B. right. exact H.
    + destruct (close_scene (scan text)); discriminate.
Qed.

(** What [_finalize_scene] fills in and what it drops. *)
Lemma finalize_defaults (sc : scene) (n : N) :
  let s := _finalize_scene sc n in
  scene_id s = (if is_empty (scene_id sc) then "scene_" +:+ format_02d n else scene_id sc) /\
  description s = (if is_empty (description sc) then "Scene " +:+ str_of_N n
                   else description sc) /\
  visual_prompts s = match visual_prompts sc with
                     | [] => [description s]
                     | vps => vps
                     end /\
  start_cue s = match start_cue sc with Value v => Value v | _ => Missing end /\
  duration_hint s = match duration_hint sc with Value v => Value v | _ => Missing end /\
  characters s = characters sc /\ dialogue s = dialogue sc.
Proof.
  destruct sc as [id cue desc chars dlg vps dur].
  unfold _finalize_scene; simpl.
  destruct id, desc, vps, cue, dur; cbn; repeat split; reflexivity.
Qed.

Lemma finalize_finalized (sc : scene) (n : N) : finalized (_finalize_scene sc n).
Proof.
  destruct (finalize_defaults sc n) as (_ & Hd & Hv & Hc & Hh & _).
  unfold finalized. rewrite Hv, Hc, Hh, Hd. repeat split.
  - destruct (is_empty (description sc)) eqn:E; [discriminate|].
    apply is_empty_false, E.
  - destruct (visual_prompts sc); discriminate.
  - destruct (start_cue sc); discriminate.
  - destruct (duration_hint sc); discriminate.
Qed.

Lemma parse_script_ok (text : string) (out : list scene) :
  parse_script text = Ok out -> out = close_scene (scan text).
Proof.
  unfold parse_script.
  destruct (is_empty text || is_empty (strip text)); [discriminate|].
  destruct (close_scene (scan text)); [discriminate|]. congruence.
Qed.

(** The scenes closed by one iteration. *)
Lemma close_scene_closing (st : pstate) :
  close_scene st = scenes st ++ map finalize_call (closing st).
Proof.
  unfold close_scene, closing. destruct (current_scene st); [reflexivity|].
  symmetry. apply app_nil_r.
Qed.

Lemma scenes_step (st : pstate) (raw : string) :
  scenes (step st raw) =
    scenes st ++ map finalize_call (if closes raw then closing st else []).
Proof.
  unfold step, closes.
  destruct (is_empty (strip raw)); [apply close_scene_closing|].
  destruct (rmatch true scene_re (strip raw)); [apply close_scene_closing|].
  cbn [orb map]. rewrite app_nil_r. destruct (current_scene st); reflexivity.
Qed.

(** The scenes at the end are those closed before, then the results of the
    calls of [_finalize_scene], in order. *)
Lemma close_scene_fold (lines : list string) (st : pstate) :
  close_scene (fold_left step lines st) =
    scenes st ++ map finalize_call (finalize_calls lines st).
Proof.
  revert st. induction lines as [|raw rest IH]; intros st.
  - apply close_scene_closing.
  - cbn [fold_left finalize_calls]. rewrite IH, scenes_step, map_app, app_assoc.
    reflexivity.
Qed.

Lemma length_closing (st : pstate) : length (closing st) = open_count st.
Proof. unfold closing, open_count. destruct (current_scene st); reflexivity. Qed.

Lemma step_counted (st : pstate) (raw : string) : counted st -> counted (step st raw).
Proof.
  unfold counted. intros H. rewrite scenes_step, length_app, length_map.
  unfold step, closes.
  destruct (is_empty (strip raw)).
  { cbn [orb]. rewrite length_closing. unfold open_count at 2. simpl. lia. }
  destruct (rmatch true scene_re (strip raw)).
  { cbn [orb]. rewrite length_closing. unfold open_count at 2. simpl. lia. }
  cbn [orb length]. unfold open_count in *. destruct (current_scene st); simpl; lia.
Qed.

Lemma closing_numbered (st : pstate) :
  counted st ->
  map snd (closing st) = map N.of_nat (seq (S (length (scenes st))) (length (closing st))).
Proof.
  unfold counted, closing, open_count. intros H.
  destruct (current_scene st); [|reflexivity].
  simpl. f_equal. lia.
Qed.

(** The calls are numbered by position: the k-th call of the whole scan has
    the counter k. *)
Lemma finalize_calls_numbered (lines : list string) (st : pstate) :
  counted st ->
  map snd (finalize_calls lines st) =
    map N.of_nat (seq (S (length (scenes st))) (length (finalize_calls lines st))).
Proof.
  revert st. induction lines as [|raw rest IH]; intros st H.
  - apply closing_numbered, H.
  - cbn [finalize_calls]. rewrite map_app, length_app, seq_app, map_app.
    rewrite (IH (step st raw) (step_counted st raw H)).
    rewrite scenes_step, length_app, length_map.
    f_equal. destruct (closes raw); [apply closing_numbered, H|reflexivity].
Qed.

(** C7.  The scenes that [parse_script] returns are the results of the
    calls of [_finalize_scene] that the scan makes, in order, and the k-th
    call is made with the counter k.  So the k-th scene returned has the
    description of the scene that was open, or "Scene k" when that was
    empty, and is never empty; its prompts are those of the open scene, or
    the one-element list of its description when there were none, and are
    never empty; and each of the keys start_cue and duration_hint keeps its
    value or is absent, never holding None. *)
Theorem parsed_scenes_finalized (text : string) (out : list scene) :
  parse_script text = Ok out ->
  let calls := finalize_calls (split_lines text) initial in
  out = map finalize_call calls /\
  map snd calls = map N.of_nat (seq 1 (length out)) /\
  Forall finalized out /\
  forall (k : nat) (s : scene),
    out !! k = Some s ->
    exists sc : scene,
      calls !! k = Some (sc, N.of_nat (S k)) /\
      s = _finalize_scene sc (N.of_nat (S k)) /\
      description s = (if is_empty (description sc)
                       then "Scene " +:+ str_of_N (N.of_nat (S k)) else description sc) /\
      description s <> EmptyString /\
      visual_prompts s = match visual_prompts sc with
                         | [] => [description s]
                         | vps => vps
                         end /\
      visual_prompts s <> [] /\
      start_cue s = match start_cue sc with Value v => Value v | _ => Missing end /\
      start_cue s <> PyNone /\
      duration_hint s = match duration_hint sc with Value v => Value v | _ => Missing end /\
      duration_hint s <> PyNone.
Proof.
  intros H calls. apply parse_script_ok in H.
  assert (E : out = map finalize_call calls).
  { rewrite H. unfold scan. rewrite close_scene_fold. reflexivity. }
  assert (L : length out = length calls) by (rewrite E; apply length_map).
  assert (Nb : map snd calls = map N.of_nat (seq 1 (length out))).
  { rewrite L. apply (finalize_calls_numbered (split_lines text) initial). reflexivity. }
  split; [exact E|]. split; [exact Nb|].
  split.
  { rewrite E. clear. induction calls as [|c l IH]; constructor; [|exact IH].
    apply finalize_finalized. }
  intros k s Hk.
  assert (Hc : exists c, calls !! k = Some c /\ s = finalize_call c).
  { rewrite E in Hk. change map with (@fmap list _) in Hk.
    rewrite list_lookup_fmap in Hk. destruct (calls !! k) as [c|]; [|discriminate Hk].
    injection Hk as <-. eauto. }
  destruct Hc as ([sc n] & Hc & ->).
  assert (Hn : n = N.of_nat (S k)).
  { assert (X : map snd calls !! k = Some n).
    { change map with (@fmap list _). rewrite list_lookup_fmap, Hc. reflexivity. }
    rewrite Nb in X. change map with (@fmap list _) in X.
    rewrite list_lookup_fmap in X.
    destruct (seq 1 (length out) !! k) as [j|] eqn:Hj; [|discriminate X].
    apply lookup_seq in Hj as [-> _]. injection X as <-. reflexivity. }
  subst n. exists sc. unfold finalize_call. cbn [fst snd].
  destruct (finalize_defaults sc (N.of_nat (S k))) as (_ & Hd & Hv & Hs & Hh & _).
  destruct (finalize_finalized sc (N.of_nat (S k))) as (F1 & F2 & F3 & F4).
  repeat split; assumption.
Qed.

Lemma parsed_scenes_finalized_witness :
  map description Samples.two_speakers_scenes = ["Scene 1"; "Scene 2"] /\
  map visual_prompts Samples.two_speakers_scenes = [["Scene 1"]; ["Scene 2"]] /\
  Forall finalized Samples.two_speakers_scenes /\
  exists sc : scene,
    finalize_calls (split_lines Samples.two_speakers_script) initial !! 1%nat = Some (sc, 2%N) /\
    description sc = EmptyString /\ visual_prompts sc = [].
Proof.
  destruct (parsed_scenes_finalized Samples.two_speakers_script Samples.two_speakers_scenes)
    as (_ & _ & Hf & Hk); [vm_compute; reflexivity|].
  split; [reflexivity|]. split; [reflexivity|]. split; [exact Hf|].
  destruct (Hk 1%nat _ eq_refl) as (sc & Hc & _).
  exists sc. split; [exact Hc|].
  vm_compute in Hc. injection Hc as <-. split; reflexivity.
Defined.

(** C8.  A narration line met while a scene is open replaces the scene's
    description by the stripped text after "Narration:", whatever the
    description was, and becomes the first visual prompt exactly when the
    scene has no prompt yet; nothing else changes. *)
Theorem narration_sets_description (st : pstate) (sc : scene) (raw : string) (m : captures) :
  current_scene st = Some sc ->
  rmatch true narration_re (strip raw) = Some m ->
  step st raw =
    {| scenes := scenes st;
       current_scene :=
         Some {| scene_id := scene_id sc; start_cue := start_cue sc;
                 description := strip (group 1 m);
                 characters := characters sc; dialogue := dialogue sc;
                 visual_prompts := match visual_prompts sc with
                                   | [] => [strip (group 1 m)]
                                   | p :: ps => p :: ps
                                   end;
                 duration_hint := duration_hint sc |};
       scene_counter := scene_counter st |}.
Proof.
  intros Hc Hm. unfold step.
  destruct (strip raw) as [|c s] eqn:E; [exfalso; exact (narration_not_blank m Hm)|].
  simpl is_empty. cbv iota.
  rewrite (narration_not_marker _ _ Hm), Hc.
  unfold apply_line. rewrite Hm.
  destruct (visual_prompts sc) eqn:V; unfold set_visual_prompts, set_description; simpl;
    rewrite ?V; reflexivity.
Qed.

Lemma narration_sets_description_witness :
  step {| scenes := [];
          current_scene := Some (set_visual_prompts ["dawn"] (new_scene "scene_01" "Street"));
          scene_counter := 1 |}
       "Narration: A quiet street." =
    {| scenes := [];
       current_scene :=
         Some {| scene_id := "scene_01"; start_cue := PyNone;
                 description := "A quiet street.";
                 characters := []; dialogue := [];
                 visual_prompts := ["dawn"]; duration_hint := PyNone |};
       scene_counter := 1 |}.
Proof.
  apply (narration_sets_description
           {| scenes := [];
              current_scene := Some (set_visual_prompts ["dawn"] (new_scene "scene_01" "Street"));
              scene_counter := 1 |}
           (set_visual_prompts ["dawn"] (new_scene "scene_01" "Street"))
           "Narration: A quiet street." [(1, "A quiet street.")]); reflexivity.
Defined.

(** The same line with no scene open first opens one from the counter. *)
Lemma narration_opens_scene (st : pstate) (raw : string) (m : captures) :
  current_scene st = None ->
  rmatch true narration_re (strip raw) = Some m ->
  step st raw =
    {| scenes := scenes st;
       current_scene :=
         Some {| scene_id := "scene_" +:+ format_02d (scene_counter st + 1);
                 start_cue := PyNone;
                 description := strip (group 1 m);
                 characters := []; dialogue := [];
                 visual_prompts := [strip (group 1 m)];
                 duration_hint := PyNone |};
       scene_counter := (scene_counter st + 1)%N |}.
Proof.
  intros Hc Hm. unfold step.
  destruct (strip raw) as [|c s] eqn:E; [exfalso; exact (narration_not_blank m Hm)|].
  simpl is_empty. cbv iota.
  rewrite (narration_not_marker _ _ Hm), Hc.
  unfold apply_line. rewrite Hm. reflexivity.
Qed.

(** What a scene marker does (lines 53-73): the identifier and the default
    description are formatted from the number written in the marker; the
    counter is incremented and not used. *)
Lemma step_marker (st : pstate) (raw : string) (m : captures) :
  rmatch true scene_re (strip raw) = Some m ->
  step st raw =
    {| scenes := close_scene st;
       current_scene :=
         Some (new_scene ("scene_" +:+ format_02d (int_of_digits (group 1 m)))
                 (if is_empty (strip (group 2 m))
                  then "Scene " +:+ str_of_N (int_of_digits (group 1 m))
                  else strip (group 2 m)));
       scene_counter := (scene_counter st + 1)%N |}.
Proof.
  intros H. unfold step.
  destruct (strip raw) as [|c s] eqn:E; [discriminate|].
  simpl is_empty. cbv iota. rewrite H. reflexivity.
Qed.

(** C1.  On the two-line script "Title" / "Scene 1: Opening" the parser
    returns two scenes that both carry the identifier scene_01, and on the
    one-line script "Scene 5" it returns one scene with the identifier
    scene_05 and the description "Scene 5", although the counter is 1: the
    identifiers come from the marker's digits, they are neither unique nor
    the sequence scene_01, scene_02, ... *)
Theorem marker_digits_become_scene_id :
  parse_script (join_lines ["Title"; "Scene 1: Opening"]) =
    Ok [ {| scene_id := "scene_01"; start_cue := Missing; description := "Title";
            characters := []; dialogue := []; visual_prompts := ["Title"];
            duration_hint := Missing |};
         {| scene_id := "scene_01"; start_cue := Missing; description := "Opening";
            characters := []; dialogue := []; visual_prompts := ["Opening"];
            duration_hint := Missing |} ] /\
  parse_script "Scene 5" =
    Ok [ {| scene_id := "scene_05"; start_cue := Missing; description := "Scene 5";
            characters := []; dialogue := []; visual_prompts := ["Scene 5"];
            duration_hint := Missing |} ] /\
  scene_counter (scan "Scene 5") = 1%N.
Proof. repeat split; vm_compute; reflexivity. Qed.

(** The scripts of the unit tests parse as the tests expect. *)
Example test_parser_normal_case :
  parse_script (join_lines
    ["Scene 1: Exterior - Day";
     "Narration: A quiet street in the morning. Camera pans right.";
     "";
     "Scene 2: Interior - Cafe";
     "Narration: Two friends meet and talk about a project.";
     "Alice: Hello, how are you?";
     "Bob: I'm doing well, thanks!"]) =
  Ok [ {| scene_id := "scene_01"; start_cue := Missing;
          description := "A quiet street in the morning. Camera pans right.";
          characters := []; dialogue := [];
          visual_prompts := ["A quiet street in the morning. Camera pans right."];
          duration_hint := Missing |};
       {| scene_id := "scene_02"; start_cue := Missing;
          description := "Two friends meet and talk about a project.";
          characters := ["Alice"; "Bob"];
          dialogue := [ {| speaker := "Alice"; text := "Hello, how are you?" |};
                        {| speaker := "Bob"; text := "I'm doing well, thanks!" |} ];
          visual_prompts := ["Two friends meet and talk about a project."];
          duration_hint := Missing |} ].
Proof. vm_compute. reflexivity. Qed.

Example test_parser_malformed_input :
  parse_script "" = Raise EmptyInputError /\
  parse_script (join_lines ["   "; ""; "  "]) = Raise EmptyInputError.
Proof. split; vm_compute; reflexivity. Qed.

End ParserFacts.

(** ** The renderer *)
Module VisualGenFacts.
Import Text TextFacts PyFloat PyFloatFacts VisualGen.

Lemma frame_name_inj (i j : N) : frame_name i = frame_name j -> i = j.
Proof.
  unfold frame_name. intros H.
  apply append_inj_l, append_inj_r in H. apply format_06d_inj, H.
Qed.

Lemma range1_spec (n : Z) (i : N) : i ∈ range1 n <-> (1 <= Z.of_N i <= n)%Z.
Proof.
  unfold range1. rewrite list_elem_of_fmap. split.
  - intros (k & -> & Hk). apply elem_of_seq in Hk. lia.
  - intros H. exists (N.to_nat i). split; [lia|]. apply elem_of_seq. lia.
Qed.

Lemma NoDup_range1 (n : Z) : NoDup (range1 n).
Proof.
  unfold range1. apply NoDup_fmap; [intros a b; lia|]. apply NoDup_seq.
Qed.

Lemma frame_files_spec (n : Z) (name : string) :
  name ∈ frame_files n <-> exists i : N, (1 <= Z.of_N i <= n)%Z /\ name = frame_name i.
Proof.
  unfold frame_files. rewrite list_elem_of_fmap. setoid_rewrite range1_spec.
  split; intros (i & A & B); eauto.
Qed.

(** The first frame is frame_000001.png. *)
Lemma first_frame (n : Z) : (1 <= n)%Z -> "frame_000001.png" ∈ frame_files n.
Proof. intros H. apply frame_files_spec. exists 1%N. split; [lia|reflexivity]. Qed.

Lemma num_frames_pos (sc : scene_info) (fps_hint n : Z) :
  num_frames sc fps_hint = Ok n -> (1 <= n)%Z.
Proof.
  unfold num_frames. destruct (duration_or_default sc) as [d|]; [|discriminate]. simpl.
  destruct (mul_int d fps_hint) as [x|]; [|discriminate]. simpl.
  destruct (int_of_float x) as [k|]; [|discriminate]. simpl.
  intros [= <-]. lia.
Qed.

(** The name of frame [i]: "frame_", the decimal numeral of [i] with zeros
    in front up to six digits, ".png". *)
Lemma frame_name_spec (i : N) :
  exists d, frame_name i = "frame_" +:+ d +:+ ".png" /\
            all_digits d = true /\ int_of_digits d = i /\
            String.length d = Nat.max 6 (String.length (str_of_N i)).
Proof. exists (format_06d i). split; [reflexivity|apply format_06d_spec]. Qed.

Lemma NoDup_frame_files (n : Z) : NoDup (frame_files n).
Proof.
  unfold frame_files. apply NoDup_fmap; [intros a b; apply frame_name_inj|].
  apply NoDup_range1.
Qed.

Lemma length_frame_files (n : Z) : length (frame_files n) = Z.to_nat n.
Proof. unfold frame_files, range1. rewrite !length_map, length_seq. reflexivity. Qed.

Section Render.
Context {image : Type}.
Variable md5_hexdigest : string -> string.
Variable render : string -> scene_info -> image.

Lemma elem_of_listing (d name : string) (fs : gmap (string * string) image) :
  name ∈ listing d fs <-> is_Some (fs !! (d, name)).
Proof.
  unfold listing. rewrite elem_of_map. split.
  - intros ([d' n'] & -> & H). apply elem_of_dom in H as [x H].
    apply map_lookup_filter_Some in H as [H E]. simpl in E. subst d'. eauto.
  - intros [x H]. exists (d, name). split; [reflexivity|].
    apply elem_of_dom. exists x. apply map_lookup_filter_Some. split; [exact H|reflexivity].
Qed.

Lemma lookup_write_frames (d : string) (img : image) (l : list N)
    (fs : gmap (string * string) image) (k : string * string) :
  write_frames d img l fs !! k =
    if decide (k ∈ map (fun i => (d, frame_name i)) l) then Some img else fs !! k.
Proof.
  unfold write_frames. revert fs. induction l as [|i l IH]; intros fs.
  - cbn [fold_left map]. rewrite decide_False; [reflexivity|]. apply not_elem_of_nil.
  - cbn [fold_left map]. rewrite IH.
    assert (E : k ∈ (d, frame_name i) :: map (fun i => (d, frame_name i)) l <->
                k = (d, frame_name i) \/ k ∈ map (fun i => (d, frame_name i)) l)
      by apply elem_of_cons.
    repeat case_decide; try reflexivity.
    + exfalso. tauto.
    + destruct (decide (k = (d, frame_name i))) as [->|N].
      * apply lookup_insert_eq.
      * exfalso. tauto.
    + apply lookup_insert_ne. intros X. symmetry in X. tauto.
Qed.

Lemma frame_key (d : string) (n : Z) (d' name : string) :
  (d', name) ∈ map (fun i => (d, frame_name i)) (range1 n) <->
  d' = d /\ name ∈ frame_files n.
Proof.
  unfold frame_files. change map with (@fmap list _). rewrite !list_elem_of_fmap. split.
  - intros (i & [= -> ->] & H). eauto.
  - intros (-> & i & -> & H). eauto.
Qed.

(** The files after one scene was rendered. *)
Lemma lookup_generate_scene_frames (d : string) (vps : list string) (info : scene_info)
    (n : Z) (fs : gmap (string * string) image) (d' name : string) :
  _generate_scene_frames md5_hexdigest render d vps info n fs !! (d', name) =
    if decide (d' = d /\ name ∈ frame_files n)
    then Some (fst (base_frame md5_hexdigest render vps info fs))
    else snd (base_frame md5_hexdigest render vps info fs) !! (d', name).
Proof.
  unfold _generate_scene_frames.
  destruct (base_frame md5_hexdigest render vps info fs) as [img fs1]. simpl.
  rewrite lookup_write_frames.
  destruct (decide ((d', name) ∈ map (fun i => (d, frame_name i)) (range1 n))) as [H|H];
    rewrite frame_key in H.
  - rewrite decide_True by exact H. reflexivity.
  - rewrite decide_False by exact H. reflexivity.
Qed.

Lemma base_frame_elsewhere (vps : list string) (info : scene_info)
    (fs : gmap (string * string) image) (d name : string) :
  d <> cache_dir ->
  snd (base_frame md5_hexdigest render vps info fs) !! (d, name) = fs !! (d, name).
Proof.
  intros H. unfold base_frame.
  destruct (fs !! cached_frame md5_hexdigest vps); simpl; [reflexivity|].
  apply lookup_insert_ne. unfold cached_frame. congruence.
Qed.




Lemma listing_empty (d : string) : listing d (∅ : gmap (string * string) image) = ∅.
Proof.
  apply set_eq. intros name. rewrite elem_of_listing, lookup_empty.
  split; [intros [x X]; discriminate X|intros X; apply elem_of_empty in X; contradiction].
Qed.

End Render.

Import Samples.

Lemma render_test_scene_48 :
  render_scene toy_digest toy_render 24 ∅ test_scene_48 = Ok frames_48.
Proof.
  unfold render_scene.
  replace (num_frames test_scene_48 24) with (@Ok Z 48%Z) by (vm_compute; reflexivity).
  reflexivity.
Qed.



Lemma render_caching_scenes :
  generate_frames toy_digest toy_render [caching_scene_1; caching_scene_2] 24 ∅ =
    Ok caching_frames.
Proof.
  unfold generate_frames, render_scenes, render_scene.
  replace (num_frames caching_scene_1 24) with (@Ok Z 24%Z) by (vm_compute; reflexivity).
  replace (num_frames caching_scene_2 24) with (@Ok Z 24%Z) by (vm_compute; reflexivity).
  reflexivity.
Qed.


End VisualGenFacts.

(** ** Speech synthesis *)
Module AudioSynthFacts.
Import Text TextFacts AudioSynth.

Lemma quiet_ret {A : Type} (a : A) : quiet (ret a).
Proof. intros w. reflexivity. Qed.

Lemma quiet_throw {A : Type} (e : exn) : quiet (@throw A e).
Proof. intros w. reflexivity. Qed.

Lemma quiet_lift {A : Type} (r : result A) : quiet (lift r).
Proof. intros w. reflexivity. Qed.

Lemma quiet_read_file (path : string) : quiet (read_file path).
Proof. intros w. reflexivity. Qed.

Lemma quiet_write_file (path : string) (f : file) : quiet (write_file path f).
Proof. intros w. reflexivity. Qed.

Lemma quiet_unlink (path : string) : quiet (unlink path).
Proof. intros w. reflexivity. Qed.

Lemma quiet_mbind {A B : Type} (m : M A) (k : A -> M B) :
  quiet m -> (forall a, quiet (k a)) -> quiet (mbind m k).
Proof.
  intros Hm Hk w. unfold mbind. specialize (Hm w).
  destruct (m w) as [[a|e] w']; simpl in *; [|exact Hm].
  rewrite Hk. exact Hm.
Qed.

Lemma quiet_catch {A : Type} (m : M A) (h : exn -> M A) :
  quiet m -> (forall e, quiet (h e)) -> quiet (catch m h).
Proof.
  intros Hm Hh w. unfold catch. specialize (Hm w).
  destruct (m w) as [[a|e] w']; simpl in *; [exact Hm|].
  rewrite Hh. exact Hm.
Qed.

Ltac quiet_step :=
  first
    [ apply quiet_ret | apply quiet_throw | apply quiet_lift | apply quiet_read_file
    | apply quiet_write_file | apply quiet_unlink
    | apply quiet_mbind; [|intros ?]
    | apply quiet_catch; [|intros ?]
    | progress cbv zeta
    | match goal with
      | |- quiet (match ?x with _ => _ end) => destruct x
      | |- quiet (if ?x then _ else _) => destruct x
      end ].

Lemma quiet_wave_open_read (path : string) : quiet (wave_open_read path).
Proof. unfold wave_open_read. repeat quiet_step. Qed.

Lemma quiet_wave_write (path : string) (nch sw fr : Z) (frames : list Byte.byte) :
  quiet (wave_write path nch sw fr frames).
Proof. unfold wave_write. repeat quiet_step. Qed.

(** Writing whole frames under a header that can be packed succeeds. *)
Lemma wave_write_ok (path : string) (nch sw fr : Z) (frames : list Byte.byte) (k : Z)
    (w : world) :
  (1 <= nch)%Z -> (1 <= sw <= 4)%Z -> (0 < fr)%Z ->
  Z.of_nat (length frames) = (k * (nch * sw))%Z ->
  header_fits nch sw fr (Z.of_nat (length frames)) = true ->
  wave_write path nch sw fr frames w =
    (Ok tt, {| files := <[path := Wav {| nchannels := nch; sampwidth := sw;
                                         framerate := fr; data := frames |}]> (files w);
               log := log w |}).
Proof.
  intros Hc Hs Hr Hk Hfit. unfold wave_write.
  replace ((nch <? 1)%Z || (sw <? 1)%Z || (4 <? sw)%Z || (fr <=? 0)%Z) with false.
  2:{ symmetry. rewrite !orb_false_iff. repeat split;
        first [apply Z.ltb_ge; lia | apply Z.leb_gt; lia]. }
  cbv zeta.
  assert (Hd : (Z.of_nat (length frames) / (nch * sw) * (nch * sw))%Z =
               Z.of_nat (length frames)).
  { rewrite Hk. rewrite Z.div_mul by nia. reflexivity. }
  rewrite Hd, Hfit, Z.eqb_refl. reflexivity.
Qed.

(** The header of a mono 16-bit file can be packed when the frame rate is
    below 2^31 and the data fit the RIFF length field. *)
Lemma mono16_header_fits (fr len : Z) :
  (fr < 2 ^ 31)%Z -> (36 + len < 2 ^ 32)%Z -> header_fits 1 2 fr len = true.
Proof.
  intros Hr Hl. unfold header_fits. rewrite !andb_true_iff.
  repeat split; apply Z.ltb_lt; lia.
Qed.

Lemma length_readframes_le (wv : wav) : (length (readframes wv) <= length (data wv))%nat.
Proof. unfold readframes. rewrite length_firstn. lia. Qed.

Lemma chunks_length {A : Type} (w k : nat) (l : list A) (fuel : nat) :
  (0 < w)%nat -> length l = (w * k)%nat -> (length l <= fuel)%nat ->
  length (chunks fuel w l) = k.
Proof.
  intros Hw. revert l fuel. induction k as [|k IH]; intros l fuel Hl Hf.
  - rewrite Nat.mul_0_r in Hl. destruct l; [|discriminate].
    destruct fuel; reflexivity.
  - destruct l as [|a l]; [simpl in Hl; lia|].
    destruct fuel as [|fuel]; [simpl in Hf; lia|].
    cbn [chunks]. cbn [length]. f_equal. apply IH.
    + rewrite length_skipn, Hl. lia.
    + rewrite length_skipn. simpl in Hf. simpl length. lia.
Qed.

Lemma length_le_bytes (w : nat) (x : Z) : length (le_bytes w x) = w.
Proof. unfold le_bytes. rewrite length_map, length_seq. reflexivity. Qed.

Lemma length_concat_fixed {A B : Type} (f : A -> list B) (w : nat) (l : list A) :
  (forall a, length (f a) = w) -> length (concat (map f l)) = (w * length l)%nat.
Proof.
  intros H. induction l as [|a l IH]; simpl; [lia|].
  rewrite length_app, H, IH. lia.
Qed.

(** [readframes] returns whole frames. *)
Lemma length_readframes (wv : wav) :
  (0 < framesize wv)%Z ->
  Z.of_nat (length (readframes wv)) = (nframes wv * framesize wv)%Z.
Proof.
  intros H. unfold readframes, nframes in *.
  pose proof (Z.mul_div_le (Z.of_nat (length (data wv))) (framesize wv) H) as L.
  pose proof (Z.div_pos (Z.of_nat (length (data wv))) (framesize wv)) as P.
  rewrite length_firstn. rewrite Nat.min_l; lia.
Qed.

Section Facts.
Variable E : env.

Lemma quiet_normalize_with_audioop (path : string) (w : wav) (frames : list Byte.byte) :
  quiet (normalize_with_audioop E path w frames).
Proof. unfold normalize_with_audioop. repeat (apply quiet_wave_write || quiet_step). Qed.

Lemma quiet_normalize_with_numpy (path : string) (w : wav) (frames : list Byte.byte) :
  quiet (normalize_with_numpy E path w frames).
Proof. unfold normalize_with_numpy. repeat (apply quiet_wave_write || quiet_step). Qed.

(** [_normalize_audio] returns normally whatever happens inside it. *)
Lemma normalize_audio_returns (path : string) (w : world) :
  fst (_normalize_audio E path w) = Ok tt.
Proof.
  unfold _normalize_audio, catch.
  match goal with |- context [match ?b w with _ => _ end] => destruct (b w) as [[[]|e] w'] end;
    reflexivity.
Qed.

(** It prints at most its own warning, and starts no engine. *)
Lemma normalize_audio_log (path : string) (w : world) :
  exists evs, log (snd (_normalize_audio E path w)) = log w ++ evs /\ engines_started evs = [].
Proof.
  unfold _normalize_audio, catch.
  match goal with |- context [match ?b w with _ => _ end] =>
    assert (Q : quiet b); [|specialize (Q w); destruct (b w) as [[[]|e] w']]
  end.
  - repeat (apply quiet_wave_open_read || apply quiet_normalize_with_audioop
            || apply quiet_normalize_with_numpy || quiet_step).
  - exists []. simpl in *. rewrite app_nil_r. auto.
  - exists [NormalizationWarning e]. simpl in *. rewrite Q. auto.
Qed.

(** The offline engine logs its start first, and starts nothing else. *)
Lemma primary_log (text out_path : string) (voice : option string) (rate : option Z)
    (w : world) :
  exists evs,
    log (snd (_synthesize_pyttsx3 E text out_path voice rate w)) =
      log w ++ Started Primary :: evs /\ engines_started evs = [].
Proof.
  unfold _synthesize_pyttsx3, mbind, emit, lift. simpl.
  destruct (pyttsx3_run E text voice rate) as [[f|]|e]; simpl.
  - rewrite lookup_insert_eq.
    match goal with |- context [_normalize_audio E out_path ?w1] =>
      destruct (normalize_audio_log out_path w1) as (evs & Hl & He);
      pose proof (normalize_audio_returns out_path w1) as Hr;
      destruct (_normalize_audio E out_path w1) as [[[]|e] w2]; simpl in *; try discriminate
    end.
    exists evs. rewrite Hl, <- app_assoc. auto.
  - destruct (files w !! out_path) as [f|]; simpl.
    + match goal with |- context [_normalize_audio E out_path ?w1] =>
        destruct (normalize_audio_log out_path w1) as (evs & Hl & He);
        pose proof (normalize_audio_returns out_path w1) as Hr;
        destruct (_normalize_audio E out_path w1) as [[[]|e] w2]; simpl in *; try discriminate
      end.
      exists evs. rewrite Hl, <- app_assoc. auto.
    + exists []. auto.
  - exists []. auto.
Qed.

Lemma quiet_convert (mp3_path wav_path : string) : quiet (_convert_mp3_to_wav E mp3_path wav_path).
Proof. unfold _convert_mp3_to_wav. repeat quiet_step. Qed.

(** The fallback engine logs its start and nothing else. *)
Lemma secondary_log (text out_path : string) (w : world) :
  log (snd (_synthesize_gtts E text out_path w)) = log w ++ [Started Secondary].
Proof.
  unfold _synthesize_gtts. unfold mbind at 1. simpl.
  match goal with |- log (snd (catch ?b ?h ?w1)) = _ =>
    assert (Q : quiet (catch b h)); [|exact (Q w1)]
  end.
  repeat (apply quiet_convert || quiet_step).
Qed.

Lemma blank_check (text : string) :
  is_empty text || is_empty (strip text) = true <->
  text = EmptyString \/ all_space text = true.
Proof. rewrite orb_true_iff, !is_empty_true, strip_empty. tauto. Qed.

(** [synthesize] on text that is not blank, when the directory exists. *)
Lemma synthesize_engines (text out_path : string) (voice : option string)
    (rate : option Z) (w : world) :
  is_empty text || is_empty (strip text) = false ->
  makedirs E out_path = Ok tt ->
  synthesize E text out_path voice rate w =
    match _synthesize_pyttsx3 E text out_path voice rate w with
    | (Ok p, w1) => (Ok p, w1)
    | (Raise e1, w1) =>
        match _synthesize_gtts E text out_path (snd (emit (FallbackWarning e1) w1)) with
        | (Ok p, w2) => (Ok p, w2)
        | (Raise e2, w2) => (Raise (SynthesisFailure e1 e2), w2)
        end
    end.
Proof.
  intros B Hm. unfold synthesize. rewrite B.
  unfold mbind at 1, lift. rewrite Hm. unfold catch at 1.
  destruct (_synthesize_pyttsx3 E text out_path voice rate w) as [[p|e1] w1]; [reflexivity|].
  unfold mbind, catch. simpl.
  destruct (_synthesize_gtts E text out_path
              {| files := files w1; log := log w1 ++ [FallbackWarning e1] |})
    as [[p|e2] w2]; reflexivity.
Qed.

(** C6.  Blank text is refused before anything else happens.  Otherwise
    the output directory is made first, outside the [try]: when that raises,
    the error is the result and no engine is started.  Once the directory
    exists the offline engine is started first; if it returns, its path is
    the result and no other engine is started; if it raises, the fallback
    engine is started next, its path is the result if it returns, and if it
    raises too the error raised carries both causes. *)
Theorem synthesize_fallback (text out_path : string) (voice : option string)
    (rate : option Z) (w : world) :
  let blank := text = EmptyString \/ all_space text = true in
  (blank -> synthesize E text out_path voice rate w = (Raise EmptyTextError, w)) /\
  (~ blank ->
   match makedirs E out_path with
   | Raise e => synthesize E text out_path voice rate w = (Raise e, w)
   | Ok _ =>
       exists evs,
         log (snd (synthesize E text out_path voice rate w)) = log w ++ evs /\
         match _synthesize_pyttsx3 E text out_path voice rate w with
         | (Ok p, w1) =>
             synthesize E text out_path voice rate w = (Ok p, w1) /\
             engines_started evs = [Primary]
         | (Raise e1, w1) =>
             engines_started evs = [Primary; Secondary] /\
             match _synthesize_gtts E text out_path (snd (emit (FallbackWarning e1) w1)) with
             | (Ok p, w2) => synthesize E text out_path voice rate w = (Ok p, w2)
             | (Raise e2, w2) =>
                 synthesize E text out_path voice rate w =
                   (Raise (SynthesisFailure e1 e2), w2)
             end
         end
   end).
Proof.
  intros blank. pose proof (blank_check text) as C. unfold blank. split.
  - intros H. apply C in H. unfold synthesize. rewrite H. reflexivity.
  - intros N.
    assert (B : is_empty text || is_empty (strip text) = false).
    { destruct (is_empty text || is_empty (strip text)); [|reflexivity].
      exfalso. apply N, C. reflexivity. }
    destruct (makedirs E out_path) as [[]|e] eqn:Hm.
    2:{ unfold synthesize. rewrite B. unfold mbind at 1, lift. rewrite Hm. reflexivity. }
    rewrite (synthesize_engines text out_path voice rate w B Hm).
    destruct (primary_log text out_path voice rate w) as (evs1 & Hl1 & He1).
    destruct (_synthesize_pyttsx3 E text out_path voice rate w) as [[p|e1] w1]; simpl in Hl1.
    + exists (Started Primary :: evs1). simpl. rewrite He1. auto.
    + pose proof (secondary_log text out_path (snd (emit (FallbackWarning e1) w1))) as Hl2.
      assert (X : engines_started
                    (Started Primary :: evs1 ++ [FallbackWarning e1; Started Secondary]) =
                  [Primary; Secondary]).
      { unfold engines_started in *. simpl. rewrite flat_map_app, He1. reflexivity. }
      exists (Started Primary :: evs1 ++ [FallbackWarning e1; Started Secondary]).
      destruct (_synthesize_gtts E text out_path (snd (emit (FallbackWarning e1) w1)))
        as [[p|e2] w2]; simpl in Hl2 |- *;
        rewrite Hl2, Hl1, <- !app_assoc; simpl; auto.
Qed.

(** [get_audio_duration] reads files only. *)
Lemma duration_from_header_world (audio_path : string) (w : world) :
  snd (duration_from_header audio_path w) = w.
Proof.
  unfold duration_from_header, wave_open_read, mbind, read_file, lift, throw, ret.
  destruct (files w !! audio_path) as [[wv|c]|]; simpl; try reflexivity.
  destruct ((nchannels wv <? 1)%Z || (sampwidth wv <? 1)%Z); reflexivity.
Qed.

Lemma duration_from_probe_world (audio_path : string) (w : world) :
  snd (duration_from_probe E audio_path w) = w.
Proof.
  unfold duration_from_probe, mbind, read_file, lift. simpl.
  destruct (ffprobe_duration E (files w !! audio_path)); reflexivity.
Qed.

(** C10.  [get_audio_duration] never raises and changes nothing: it returns
    what the WAV header gives when that can be computed, otherwise what the
    probe's output parses to, and 0.0 when the probe or the parse fails. *)
Theorem get_audio_duration_total (audio_path : string) (w : world) :
  get_audio_duration E audio_path w =
    (Ok match fst (duration_from_header audio_path w) with
        | Ok d => d
        | Raise _ =>
            match ffprobe_duration E (files w !! audio_path) with
            | Ok stdout =>
                match py_float E (strip stdout) with
                | Ok d => d
                | Raise _ => S754_zero false
                end
            | Raise _ => S754_zero false
            end
        end, w).
Proof.
  unfold get_audio_duration, catch.
  pose proof (duration_from_header_world audio_path w) as Hw.
  destruct (duration_from_header audio_path w) as [[d|e] w']; simpl in *; subst w'.
  - reflexivity.
  - unfold duration_from_probe, mbind, read_file, lift. simpl.
    destruct (ffprobe_duration E (files w !! audio_path)) as [out|e']; simpl; [|reflexivity].
    destruct (py_float E (strip out)); reflexivity.
Qed.

(** On the numpy path a 16-bit file that is not stereo is rewritten as a
    mono file with one frame per sample of the original. *)
Lemma numpy_fallback_frames (path : string) (w : world) (wv : wav) (xs : list Z) :
  has_audioop E = false -> has_numpy E = true ->
  files w !! path = Some (Wav wv) ->
  sampwidth wv = 2%Z -> (1 <= nchannels wv)%Z -> nchannels wv <> 2%Z ->
  (0 < framerate wv < 2 ^ 31)%Z -> riff_sized wv = true -> (0 < nframes wv)%Z ->
  np_frombuffer_int16 (readframes wv) = Ok xs ->
  np_is_zero E (np_rms E (map (np_of_int16 E) xs)) = false ->
  exists wv',
    _normalize_audio E path w =
      (Ok tt, {| files := <[path := Wav wv']> (files w); log := log w |}) /\
    nchannels wv' = 1%Z /\ sampwidth wv' = 2%Z /\ framerate wv' = framerate wv /\
    nframes wv' = (nchannels wv * nframes wv)%Z.
Proof.
  intros Ha Hn Hf Hs Hc Hc2 [Hr Hr31] Hsz Hfr Hx Hz.
  apply Z.ltb_lt in Hsz. pose proof (length_readframes_le wv) as Hle.
  assert (Hfs : framesize wv = (nchannels wv * 2)%Z) by (unfold framesize; rewrite Hs; reflexivity).
  assert (Hlen : Z.of_nat (length (readframes wv)) = (2 * (nframes wv * nchannels wv))%Z).
  { rewrite length_readframes by lia. rewrite Hfs. lia. }
  assert (Hpos : (0 < nframes wv * nchannels wv)%Z) by (apply Z.mul_pos_pos; lia).
  set (p := (nframes wv * nchannels wv)%Z) in *.
  assert (Hxs : length xs = Z.to_nat p).
  { unfold np_frombuffer_int16 in Hx.
    destruct (Nat.even (length (readframes wv))); [|discriminate].
    injection Hx as <-. rewrite length_map. apply chunks_length; lia. }
  exists {| nchannels := 1; sampwidth := 2; framerate := framerate wv;
            data := concat (map (fun x => le_bytes 2 (np_to_int16 E
                                  (np_gain E (np_rms E (map (np_of_int16 E) xs)) x)))
                              (map (np_of_int16 E) xs)) |}.
  split.
  - unfold _normalize_audio, catch, mbind at 1, wave_open_read, mbind at 1, read_file.
    rewrite Hf.
    replace ((nchannels wv <? 1)%Z || (sampwidth wv <? 1)%Z) with false
      by (symmetry; apply orb_false_iff; split; apply Z.ltb_ge; lia).
    unfold ret at 1.
    destruct (readframes wv) as [|b bs] eqn:Hrf; [simpl in Hlen; lia|].
    rewrite Ha. unfold normalize_with_numpy, np_downmix. rewrite Hn, Hs, Hx.
    replace (nchannels wv =? 2)%Z with false by (symmetry; apply Z.eqb_neq; exact Hc2).
    cbn -[le_bytes wave_write]. rewrite Hz.
    assert (Hout : Z.of_nat (length (concat (map (fun x => le_bytes 2 (np_to_int16 E
                                  (np_gain E (np_rms E (map (np_of_int16 E) xs)) x)))
                              (map (np_of_int16 E) xs)))) = (p * (1 * 2))%Z).
    { rewrite (length_concat_fixed _ 2) by (intros a; apply length_le_bytes).
      rewrite length_map, Hxs. lia. }
    rewrite (wave_write_ok _ _ _ _ _ p); [reflexivity|lia|lia|lia|exact Hout|].
    apply mono16_header_fits; [exact Hr31|]. rewrite Hout. lia.
  - cbn [nchannels sampwidth framerate]. repeat split.
    unfold nframes at 1, framesize. cbn [nchannels sampwidth data].
    rewrite (length_concat_fixed _ 2) by (intros a; apply length_le_bytes).
    rewrite length_map, Hxs.
    rewrite Nat2Z.inj_mul, Z2Nat.id by lia.
    change (Z.of_nat 2) with 2%Z. change (1 * 2)%Z with 2%Z.
    rewrite Z.mul_comm, Z.div_mul by lia. unfold p. lia.
Qed.

(** C2.  When [audioop] cannot be imported and numpy can, normalizing a
    16-bit file with three channels whose samples are not all zero returns
    normally, prints nothing, and replaces the file by a mono file of the
    same frame rate with three times as many frames, so three times the
    duration.  (The file is one whose mono header can be written: a frame
    rate below 2^31 and data that fit the RIFF length field.) *)
Theorem numpy_fallback_triples_frames (path : string) (w : world) (wv : wav) (xs : list Z) :
  has_audioop E = false -> has_numpy E = true ->
  files w !! path = Some (Wav wv) ->
  nchannels wv = 3%Z -> sampwidth wv = 2%Z ->
  (0 < framerate wv < 2 ^ 31)%Z -> riff_sized wv = true -> (0 < nframes wv)%Z ->
  np_frombuffer_int16 (readframes wv) = Ok xs ->
  np_is_zero E (np_rms E (map (np_of_int16 E) xs)) = false ->
  exists wv',
    _normalize_audio E path w =
      (Ok tt, {| files := <[path := Wav wv']> (files w); log := log w |}) /\
    nchannels wv' = 1%Z /\ framerate wv' = framerate wv /\
    nframes wv' = (3 * nframes wv)%Z.
Proof.
  intros Ha Hn Hf Hc Hs Hr Hsz Hfr Hx Hz.
  destruct (numpy_fallback_frames path w wv xs) as (wv' & H1 & H2 & _ & H3 & H4);
    try assumption; try lia.
  exists wv'. rewrite Hc in H4. auto.
Qed.

End Facts.

Import Samples.

Lemma numpy_fallback_triples_frames_witness :
  exists wv',
    _normalize_audio toy_env "out.wav" toy_world =
      (Ok tt, {| files := <["out.wav" := Wav wv']> (files toy_world); log := log toy_world |}) /\
    nchannels wv' = 1%Z /\ framerate wv' = framerate three_channel_wav /\
    nframes wv' = (3 * nframes three_channel_wav)%Z.
Proof.
  apply (numpy_fallback_triples_frames toy_env "out.wav" toy_world three_channel_wav
           [1000; -1000; 500]%Z); first [reflexivity | (split; reflexivity)].
Defined.

Lemma synthesize_fallback_witness :
  exists evs,
    log (snd (synthesize offline_env "Hello" "out.wav" None None silent_world)) = evs /\
    engines_started evs = [Primary; Secondary] /\
    fst (synthesize offline_env "Hello" "out.wav" None None silent_world) =
      Raise (SynthesisFailure (External "no audio device") NoFallbackEngine).
Proof.
  destruct (proj2 (synthesize_fallback offline_env "Hello" "out.wav" None None silent_world))
    as (evs & Hl & Hm).
  - intros [X|X]; discriminate X.
  - assert (P : _synthesize_pyttsx3 offline_env "Hello" "out.wav" None None silent_world =
                (Raise (External "no audio device"),
                 snd (_synthesize_pyttsx3 offline_env "Hello" "out.wav" None None
                        silent_world)))
      by (vm_compute; reflexivity).
    rewrite P in Hm. destruct Hm as [He Hs].
    assert (Q : _synthesize_gtts offline_env "Hello" "out.wav"
                  (snd (emit (FallbackWarning (External "no audio device"))
                          (snd (_synthesize_pyttsx3 offline_env "Hello" "out.wav" None None
                                  silent_world)))) =
                (Raise NoFallbackEngine,
                 snd (_synthesize_gtts offline_env "Hello" "out.wav"
                        (snd (emit (FallbackWarning (External "no audio device"))
                                (snd (_synthesize_pyttsx3 offline_env "Hello" "out.wav" None
                                        None silent_world)))))))
      by (vm_compute; reflexivity).
    rewrite Q in Hs.
    exists evs. rewrite Hl, Hs. auto.
Defined.

(** The directory cannot be made: [synthesize] raises, though no engine has
    failed, or was started. *)
Lemma synthesize_fallback_counterexample :
  fst (synthesize readonly_env "Hello" "out/speech.wav" None None silent_world) =
    Raise (External "Permission denied") /\
  engines_started
    (log (snd (synthesize readonly_env "Hello" "out/speech.wav" None None silent_world))) = [].
Proof. split; reflexivity. Qed.

(** The offline engine returns: no other engine is started. *)
Example synthesize_primary_only :
  fst (synthesize toy_env "Hello" "out.wav" None None silent_world) = Ok "out.wav" /\
  engines_started
    (log (snd (synthesize toy_env "Hello" "out.wav" None None silent_world))) = [Primary].
Proof. split; reflexivity. Qed.

End AudioSynthFacts.

(** ** The assembler *)
Module AssemblerFacts.
Import Text Assembler.

Lemma insert_sorted_not_nil (x : string) (l : list string) : insert_sorted x l <> [].
Proof. destruct l as [|y l]; simpl; [discriminate|]. destruct (String.leb x y); discriminate. Qed.

(** Sorting loses no frame. *)
Lemma sorted_nil (l : list string) : sorted l = [] <-> l = [].
Proof.
  destruct l as [|x l]; simpl; [tauto|].
  split; [|discriminate]. intros H. exfalso. exact (insert_sorted_not_nil _ _ H).
Qed.

Section Facts.
Context {image video : Type}.
Variable ffmpeg_present : bool.
Variable open_image : string -> result image.
Variable ffmpeg_encode : list image -> string -> Z -> result video.

(** C9.  When the scan of the directory tree finds no image file,
    [assemble] raises the first error before it starts any program, whether
    or not ffmpeg is there; when it finds some and the ffmpeg probe fails,
    it raises the second error, and the probe is the only program started.
    In both cases the output file is untouched. *)
Theorem assemble_failures (frames_dir : string) (listing : option (list entry))
    (audio_file : string) (fps : Z) (w : world video) :
  (collect_frames frames_dir listing = [] ->
   assemble ffmpeg_present open_image ffmpeg_encode frames_dir listing audio_file fps w =
     (Raise NoFramesError, w)) /\
  (collect_frames frames_dir listing <> [] -> ffmpeg_present = false ->
   assemble ffmpeg_present open_image ffmpeg_encode frames_dir listing audio_file fps w =
     (Raise MissingToolError,
      {| output := output w; calls := calls w ++ [VersionProbe] |})).
Proof.
  unfold assemble. split.
  - intros H. rewrite H. reflexivity.
  - intros H Hp. destruct (sorted (collect_frames frames_dir listing)) eqn:Hs.
    + apply (proj1 (sorted_nil _)) in Hs. contradiction.
    + unfold _check_ffmpeg. rewrite Hp. reflexivity.
Qed.

End Facts.

Example is_frame_ignores_case :
  is_frame "frame_000001.PNG" = true /\ is_frame "Photo.JpEg" = true /\
  is_frame "notes.txt" = false /\ is_frame "png" = false.
Proof. repeat split. Qed.

End AssemblerFacts.

(** ** More on the parser *)
Module ParserInvariants.
Import Text Re Parser TextFacts ParserFacts.

Lemma all_space_rstrip (s : string) : all_space (rstrip s) = all_space s.
Proof.
  induction s as [|c r IH]; simpl; [reflexivity|].
  destruct (rstrip r) as [|c' r'] eqn:E.
  - assert (A : all_space r = true) by (apply rstrip_empty; exact E).
    rewrite A. destruct (is_space c) eqn:S; simpl; rewrite ?S; reflexivity.
  - rewrite <- IH. reflexivity.
Qed.

Lemma all_space_strip (s : string) : all_space (strip s) = all_space s.
Proof. unfold strip. rewrite all_space_rstrip. apply all_space_lstrip. Qed.

(** What [strip] returns is empty or holds a character that is not
    whitespace. *)
Lemma strip_not_blank (s : string) : strip s <> EmptyString -> all_space (strip s) = false.
Proof.
  intros H. rewrite all_space_strip. destruct (all_space s) eqn:A; [|reflexivity].
  exfalso. apply H, strip_empty, A.
Qed.

Lemma all_space_append (a b : string) : all_space (a +:+ b) = all_space a && all_space b.
Proof. induction a as [|c a IH]; simpl; [reflexivity|]. rewrite IH, andb_assoc. reflexivity. Qed.

(** A property of open scenes that every rule keeps, and that finalization
    turns into a property of closed scenes, holds of all returned scenes. *)
Lemma parse_script_invariant (P Q : scene -> Prop) :
  (forall id desc, desc <> EmptyString -> all_space desc = false -> P (new_scene id desc)) ->
  (forall id, P (new_scene id EmptyString)) ->
  (forall sc line, line <> EmptyString -> all_space line = false -> P sc -> P (apply_line sc line)) ->
  (forall sc n, P sc -> Q (_finalize_scene sc n)) ->
  forall text out, parse_script text = Ok out -> Forall Q out.
Proof.
  intros Hmark Himpl Happ Hfin text out H.
  apply parse_script_ok in H. subst out.
  set (I := fun st : pstate =>
              Forall Q (scenes st) /\
              match current_scene st with Some sc => P sc | None => True end).
  assert (Hclose : forall st, I st -> Forall Q (close_scene st)).
  { intros st [Hs Hc]. unfold close_scene. destruct (current_scene st); [|exact Hs].
    apply Forall_app. split; [exact Hs|]. constructor; [apply Hfin, Hc|constructor]. }
  assert (Hstep : forall st raw, I st -> I (step st raw)).
  { intros st raw HI. unfold step.
    destruct (strip raw) as [|c s] eqn:E.
    - simpl. split; [apply Hclose, HI|exact Logic.I].
    - assert (Hne : String c s <> EmptyString) by discriminate.
      assert (Hnb : all_space (String c s) = false).
      { rewrite <- E. apply strip_not_blank. rewrite E. exact Hne. }
      simpl is_empty. cbv iota.
      destruct (rmatch true scene_re (String c s)) as [m|].
      + split; [apply Hclose, HI|]. simpl.
        destruct (strip (group 2 m)) eqn:T; simpl.
        * apply Hmark; [discriminate|reflexivity].
        * apply Hmark; [discriminate|]. rewrite <- T. apply strip_not_blank.
          rewrite T. discriminate.
      + destruct HI as [Hs Hc]. destruct (current_scene st) as [sc|]; simpl.
        * split; [exact Hs|]. apply Happ; assumption.
        * split; [exact Hs|]. apply Happ; [assumption..|]. apply Himpl. }
  apply Hclose. unfold scan. generalize (split_lines text).
  assert (H0 : I initial) by (split; [constructor|exact Logic.I]).
  revert H0. generalize initial. intros st H0 l. revert st H0.
  induction l as [|x l IH]; intros st H0; simpl; [exact H0|].
  apply IH, Hstep, H0.
Qed.

(** What a content line can do to the fields of the open scene. *)
Lemma apply_line_fields (sc : scene) (line : string) :
  scene_id (apply_line sc line) = scene_id sc /\
  start_cue (apply_line sc line) = start_cue sc /\
  (description (apply_line sc line) = description sc \/
   (exists g, description (apply_line sc line) = strip g) \/
   (description sc = EmptyString /\ description (apply_line sc line) = line) \/
   (description sc <> EmptyString /\
    description (apply_line sc line) = description sc +:+ " " +:+ line)) /\
  ((characters (apply_line sc line) = characters sc /\
    dialogue (apply_line sc line) = dialogue sc) \/
   exists sp tx,
     dialogue (apply_line sc line) = dialogue sc ++ [ {| speaker := sp; text := tx |} ] /\
     characters (apply_line sc line) =
       if mem sp (characters sc) then characters sc else characters sc ++ [sp]).
Proof.
  unfold apply_line. destruct sc as [id cue desc chars dlg vps dur]. simpl.
  destruct (rmatch true narration_re line) as [m|].
  { destruct vps; simpl; repeat split; eauto. }
  destruct (rmatch false dialogue_re line) as [m|].
  { destruct (mem (strip (group 1 m)) chars) eqn:M; simpl; repeat split; auto;
      right; exists (strip (group 1 m)), (strip (group 2 m)); rewrite M; auto. }
  destruct (rmatch true visual_re line) as [m|].
  { simpl. repeat split; auto. }
  destruct (rmatch true duration_re line) as [m|].
  { simpl. repeat split; auto. }
  destruct desc as [|c d]; simpl.
  - destruct vps; simpl; repeat split; auto.
  - repeat split; auto.
Qed.

Lemma descriptions_not_blank (text : string) (out : list scene) :
  parse_script text = Ok out -> Forall (fun s => all_space (description s) = false) out.
Proof.
  apply (parse_script_invariant
           (fun sc => description sc = EmptyString \/ all_space (description sc) = false)).
  - intros id desc _ H. right. exact H.
  - intros id. left. reflexivity.
  - intros sc line Hne Hnb HP.
    destruct (apply_line_fields sc line) as (_ & _ & [D|[[g D]|[[E D]|[E D]]]] & _); rewrite D.
    + exact HP.
    + destruct (strip g) eqn:G; [left; reflexivity|]. right. rewrite <- G.
      apply strip_not_blank. rewrite G. discriminate.
    + right. exact Hnb.
    + right. rewrite !all_space_append, Hnb. simpl. apply andb_false_r.
  - intros sc n HP. destruct (finalize_defaults sc n) as (_ & D & _). rewrite D.
    destruct (description sc) as [|c d]; simpl; [reflexivity|].
    destruct HP as [HP|HP]; [discriminate|exact HP].
Qed.

(** X1.  The description of a returned scene is never blank: it holds a
    character that is not whitespace. *)
Theorem parsed_description_not_blank (text : string) (out : list scene) :
  parse_script text = Ok out -> Forall (fun s => all_space (description s) = false) out.
Proof. apply descriptions_not_blank. Qed.

Lemma parsed_description_not_blank_witness :
  Forall (fun s => all_space (description s) = false)
    [ {| scene_id := "scene_01"; start_cue := Missing; description := "Scene 1";
         characters := ["Alice"]; dialogue := [ {| speaker := "Alice"; text := "Hi" |} ];
         visual_prompts := ["Scene 1"]; duration_hint := Missing |} ].
Proof. apply (parsed_description_not_blank "Alice: Hi"). reflexivity. Defined.

(** X2.  No rule sets [start_cue]: the key is absent from every returned
    scene. *)
Theorem parsed_start_cue_absent (text : string) (out : list scene) :
  parse_script text = Ok out -> Forall (fun s => start_cue s = Missing) out.
Proof.
  apply (parse_script_invariant (fun sc => start_cue sc = PyNone)).
  - reflexivity.
  - reflexivity.
  - intros sc line _ _ HP. destruct (apply_line_fields sc line) as (_ & C & _).
    rewrite C. exact HP.
  - intros sc n HP. destruct (finalize_defaults sc n) as (_ & _ & _ & C & _).
    rewrite C, HP. reflexivity.
Qed.

Lemma parsed_start_cue_absent_witness :
  Forall (fun s => start_cue s = Missing)
    [ {| scene_id := "scene_01"; start_cue := Missing; description := "Scene 1";
         characters := ["Alice"]; dialogue := [ {| speaker := "Alice"; text := "Hi" |} ];
         visual_prompts := ["Scene 1"]; duration_hint := Missing |} ].
Proof. apply (parsed_start_cue_absent "Alice: Hi"). reflexivity. Defined.

Lemma mem_spec (x : string) (l : list string) : mem x l = true <-> In x l.
Proof.
  unfold mem. rewrite existsb_exists. split.
  - intros (y & Hy & E). apply String.eqb_eq in E. subst. exact Hy.
  - intros H. exists x. split; [exact H|apply String.eqb_refl].
Qed.

(** X3.  The characters of a returned scene are the speakers of its
    dialogue, each listed once. *)
Theorem parsed_characters_are_speakers (text : string) (out : list scene) :
  parse_script text = Ok out ->
  Forall (fun s => NoDup (characters s) /\
                   forall name, In name (characters s) <-> In name (map speaker (dialogue s)))
         out.
Proof.
  apply (parse_script_invariant
           (fun s => NoDup (characters s) /\
                     forall name, In name (characters s) <-> In name (map speaker (dialogue s)))).
  - intros id desc _ _. simpl. split; [constructor|tauto].
  - intros id. simpl. split; [constructor|tauto].
  - intros sc line _ _ [Hn Hi].
    destruct (apply_line_fields sc line) as (_ & _ & _ & [[C D]|(sp & tx & D & C)]);
      rewrite C, D.
    + split; assumption.
    + rewrite map_app. simpl. destruct (mem sp (characters sc)) eqn:M.
      * apply mem_spec in M. split; [exact Hn|].
        intros name. rewrite in_app_iff, <- Hi. simpl. split; [tauto|].
        intros [H|[H|[]]]; [exact H|subst; exact M].
      * assert (N : ~ In sp (characters sc)).
        { intros X. apply mem_spec in X. congruence. }
        split.
        -- apply NoDup_app. split; [exact Hn|]. split.
           ++ intros x Hx Hx'. apply list_elem_of_In in Hx, Hx'. simpl in Hx'.
              destruct Hx' as [<-|[]]. contradiction.
           ++ apply NoDup_singleton.
        -- intros name. rewrite !in_app_iff, Hi. tauto.
  - intros sc n HP. destruct (finalize_defaults sc n) as (_ & _ & _ & _ & _ & C & D).
    rewrite C, D. exact HP.
Qed.

Lemma parsed_characters_are_speakers_witness :
  Forall (fun s => NoDup (characters s) /\
                   forall name, In name (characters s) <-> In name (map speaker (dialogue s)))
    [ {| scene_id := "scene_01"; start_cue := Missing; description := "Scene 1";
         characters := ["Alice"]; dialogue := [ {| speaker := "Alice"; text := "Hi" |} ];
         visual_prompts := ["Scene 1"]; duration_hint := Missing |} ].
Proof. apply (parsed_characters_are_speakers "Alice: Hi"). reflexivity. Defined.

Lemma length_close_scene (st : pstate) :
  length (close_scene st) = (length (scenes st) + open_count st)%nat.
Proof.
  unfold close_scene, open_count. destruct (current_scene st).
  - rewrite length_app. reflexivity.
  - lia.
Qed.

(** Every scene that was opened is counted once. *)
Lemma step_count (st : pstate) (raw : string) :
  (length (scenes st) + open_count st)%nat = N.to_nat (scene_counter st) ->
  (length (scenes (step st raw)) + open_count (step st raw))%nat =
    N.to_nat (scene_counter (step st raw)).
Proof.
  intros H. unfold step.
  destruct (is_empty (strip raw)).
  { simpl. rewrite length_close_scene. unfold open_count at 2. simpl. lia. }
  destruct (rmatch true scene_re (strip raw)).
  { simpl. rewrite length_close_scene. unfold open_count at 2. simpl. lia. }
  unfold open_count in *. destruct (current_scene st); simpl; lia.
Qed.

Lemma scan_count (text : string) :
  (length (scenes (scan text)) + open_count (scan text))%nat =
    N.to_nat (scene_counter (scan text)).
Proof.
  unfold scan. generalize (split_lines text).
  assert (H0 : (length (scenes initial) + open_count initial)%nat =
               N.to_nat (scene_counter initial)) by reflexivity.
  revert H0. generalize initial. intros st H0 l. revert st H0.
  induction l as [|x l IH]; intros st H0; simpl; [exact H0|].
  apply IH, step_count, H0.
Qed.

(** X4.  The number of scenes returned is the value of the scene counter
    when the loop ends. *)
Theorem parsed_scene_count (text : string) (out : list scene) :
  parse_script text = Ok out -> N.of_nat (length out) = scene_counter (scan text).
Proof.
  intros H. apply parse_script_ok in H. subst out.
  rewrite length_close_scene, scan_count. apply N2Nat.id.
Qed.

Lemma parsed_scene_count_witness :
  N.of_nat 2 = scene_counter (scan (join_lines ["Title"; "Scene 1: Opening"])).
Proof.
  apply (parsed_scene_count (join_lines ["Title"; "Scene 1: Opening"])
           [ {| scene_id := "scene_01"; start_cue := Missing; description := "Title";
                characters := []; dialogue := []; visual_prompts := ["Title"];
                duration_hint := Missing |};
             {| scene_id := "scene_01"; start_cue := Missing; description := "Opening";
                characters := []; dialogue := []; visual_prompts := ["Opening"];
                duration_hint := Missing |} ]).
  vm_compute. reflexivity.
Defined.

Lemma numbered_id_inj (i j : N) : numbered_id i = numbered_id j -> i = j.
Proof.
  unfold numbered_id. intros H. apply append_inj_l in H.
  rewrite <- (int_of_format_02d i), H. apply int_of_format_02d.
Qed.

Lemma close_scene_ids (st : pstate) :
  ids_numbered st -> map scene_id (close_scene st) = ids_so_far st.
Proof.
  intros [_ Hne]. unfold close_scene, ids_so_far.
  destruct (current_scene st) as [sc|]; [|rewrite app_nil_r; reflexivity].
  rewrite map_app. simpl. f_equal.
  destruct (finalize_defaults sc (scene_counter st)) as (I & _). rewrite I.
  destruct (scene_id sc); [contradiction|reflexivity].
Qed.

Lemma step_ids (st : pstate) (raw : string) :
  rmatch true scene_re (strip raw) = None ->
  ids_numbered st -> ids_numbered (step st raw).
Proof.
  intros Hm H. pose proof (close_scene_ids st H) as Hc. unfold step. rewrite Hm.
  destruct (is_empty (strip raw)).
  { split; [|exact Logic.I]. unfold ids_so_far. simpl. rewrite app_nil_r, Hc. apply H. }
  destruct H as [Hi Hne]. unfold ids_numbered, ids_so_far in *.
  destruct (current_scene st) as [sc|]; simpl.
  - destruct (apply_line_fields sc (strip raw)) as (I & _). rewrite I. split; assumption.
  - destruct (apply_line_fields
                (new_scene ("scene_" +:+ format_02d (scene_counter st + 1)) EmptyString)
                (strip raw)) as (I & _).
    rewrite I. simpl. split; [|discriminate].
    rewrite app_nil_r in Hi. rewrite Hi.
    replace (N.to_nat (scene_counter st + 1)) with (S (N.to_nat (scene_counter st))) by lia.
    rewrite seq_S, map_app. simpl. unfold numbered_id. do 4 f_equal. lia.
Qed.

(** X5.  In a script without scene markers the identifiers are scene_01,
    scene_02, ... in order, without gaps or duplicates. *)
Theorem unmarked_script_ids (text : string) (out : list scene) :
  Forall (fun raw => rmatch true scene_re (strip raw) = None) (split_lines text) ->
  parse_script text = Ok out ->
  map scene_id out = map (fun i => numbered_id (N.of_nat i)) (seq 1 (length out)) /\
  NoDup (map scene_id out).
Proof.
  intros Hm H. apply parse_script_ok in H. subst out.
  assert (K : ids_numbered (scan text)).
  { unfold scan. revert Hm. generalize (split_lines text).
    assert (H0 : ids_numbered initial) by (split; [reflexivity|exact Logic.I]).
    revert H0. generalize initial. intros st H0 l. revert st H0.
    induction l as [|x l IH]; intros st H0 Hm; simpl; [exact H0|].
    inversion Hm; subst. apply IH; [|assumption]. apply step_ids; assumption. }
  assert (E : map scene_id (close_scene (scan text)) =
              map (fun i => numbered_id (N.of_nat i))
                  (seq 1 (length (close_scene (scan text))))).
  { rewrite close_scene_ids by exact K. destruct K as [K _]. rewrite K.
    rewrite length_close_scene, scan_count. reflexivity. }
  split; [exact E|]. rewrite E.
  apply NoDup_fmap; [|apply NoDup_seq].
  intros i j Hij. apply numbered_id_inj in Hij. lia.
Qed.

Lemma unmarked_script_ids_witness :
  map scene_id
    [ {| scene_id := "scene_01"; start_cue := Missing; description := "Scene 1";
         characters := ["Alice"]; dialogue := [ {| speaker := "Alice"; text := "Hi" |} ];
         visual_prompts := ["Scene 1"]; duration_hint := Missing |};
      {| scene_id := "scene_02"; start_cue := Missing; description := "A street at dawn.";
         characters := []; dialogue := []; visual_prompts := ["A street at dawn."];
         duration_hint := Missing |} ] =
    ["scene_01"; "scene_02"] /\
  NoDup ["scene_01"; "scene_02"].
Proof.
  apply (unmarked_script_ids (join_lines ["Alice: Hi"; ""; "A street at dawn."])).
  - repeat (constructor; [reflexivity|]). constructor.
  - vm_compute. reflexivity.
Defined.

Lemma parse_script_blank (text : string) :
  text = EmptyString \/ all_space text = true -> parse_script text = Raise EmptyInputError.
Proof. intros B. unfold parse_script. rewrite (proj2 (empty_check text) B). reflexivity. Qed.

Lemma parse_script_not_nil (text : string) (out : list scene) :
  parse_script text = Ok out -> out <> [].
Proof.
  unfold parse_script.
  destruct (is_empty text || is_empty (strip text)); [discriminate|].
  destruct (close_scene (scan text)); [discriminate|]. intros [= <-]. discriminate.
Qed.

Section ParseFile.
Variable json_text : list scene -> string.
Variable write_json : string -> list scene -> write_outcome.

(** X6.  [parse_file] reports a script that [parse_script] rejects as an
    error of writing the output file, and leaves every file as it was; when
    it returns, the output file holds the scenes that [parse_script]
    returned, of which there is at least one; whenever it raises, every
    file but the output file is as it was, and the output file too unless
    the script was parsed and the write failed after [open] had created or
    truncated the file, which then holds what was written of the text. *)
Theorem parse_file_outcomes (input_path output_path : string) (disk : gmap string document)
    (script_text : string) :
  disk !! input_path = Some (TextFile script_text) ->
  (script_text = EmptyString \/ all_space script_text = true ->
   parse_file json_text write_json input_path output_path disk =
     (Some (WriteIOError (Some EmptyInputError)), disk)) /\
  (forall disk', parse_file json_text write_json input_path output_path disk = (None, disk') ->
   exists scenes, scenes <> [] /\ parse_script script_text = Ok scenes /\
                  write_json output_path scenes = Written /\
                  disk' = <[output_path := ScenesJson scenes]> disk) /\
  (forall e disk', parse_file json_text write_json input_path output_path disk = (Some e, disk') ->
   (forall p, p <> output_path -> disk' !! p = disk !! p) /\
   (disk' = disk \/
    exists scenes partial,
      parse_script script_text = Ok scenes /\
      write_json output_path scenes = DumpFails partial /\
      e = WriteIOError None /\
      disk' = <[output_path := TextFile partial]> disk)).
Proof.
  intros Hin. unfold parse_file, read_script. rewrite Hin.
  split; [|split].
  - intros B. rewrite (parse_script_blank _ B). reflexivity.
  - intros disk'. destruct (parse_script script_text) as [scenes|e] eqn:Hp; [|discriminate].
    destruct (write_json output_path scenes) eqn:Hw; try discriminate.
    intros [= <-]. exists scenes.
    split; [exact (parse_script_not_nil _ _ Hp)|]. split; [reflexivity|].
    split; [exact Hw|reflexivity].
  - intros e disk'. destruct (parse_script script_text) as [scenes|e'].
    + destruct (write_json output_path scenes) as [| |partial] eqn:Hw; [discriminate| |].
      * intros [= _ <-]. split; [reflexivity|left; reflexivity].
      * intros [= <- <-]. split.
        -- intros p Hp. apply lookup_insert_ne. congruence.
        -- right. exists scenes, partial. repeat split. exact Hw.
    + intros [= _ <-]. split; [reflexivity|left; reflexivity].
Qed.

(** A missing input file is reported as such, whatever the output path. *)
Lemma parse_file_missing (input_path output_path : string) (disk : gmap string document) :
  disk !! input_path = None ->
  parse_file json_text write_json input_path output_path disk = (Some FileNotFoundError, disk).
Proof. intros H. unfold parse_file, read_script. rewrite H. reflexivity. Qed.

End ParseFile.

Lemma parse_file_outcomes_witness :
  parse_file (fun _ => EmptyString) (fun _ _ => Written) "in.txt" "out.json"
    {[ "in.txt" := TextFile "   " ]} =
  (Some (WriteIOError (Some EmptyInputError)), {[ "in.txt" := TextFile "   " ]}).
Proof.
  apply (proj1 (parse_file_outcomes (fun _ => EmptyString) (fun _ _ => Written) "in.txt" "out.json"
                  {[ "in.txt" := TextFile "   " ]} "   " (lookup_singleton_eq _ _))).
  right. reflexivity.
Defined.

(** A write that fails after [open] leaves the old output file replaced by
    what was written. *)
Example parse_file_interrupted :
  parse_file (fun _ => EmptyString) (fun _ _ => DumpFails "{") "in.txt" "out.json"
    {[ "in.txt" := TextFile "Hello"; "out.json" := TextFile "old" ]} =
  (Some (WriteIOError None),
   <[ "out.json" := TextFile "{" ]>
     {[ "in.txt" := TextFile "Hello"; "out.json" := TextFile "old" ]}).
Proof.
  unfold parse_file, read_script.
  replace (_ !! "in.txt") with (Some (TextFile "Hello")) by (vm_compute; reflexivity).
  replace (parse_script "Hello") with
    (Ok [ {| scene_id := "scene_01"; start_cue := Missing; description := "Hello";
             characters := []; dialogue := []; visual_prompts := ["Hello"];
             duration_hint := Missing |} ]) by (vm_compute; reflexivity).
  reflexivity.
Qed.

End ParserInvariants.

(** ** The order of the line rules *)
Module DialogueFacts.
Import Text Re Parser TextFacts ParserFacts.

Lemma run_star (icase greedy : bool) (r1 : regex) (pos : nat) (s : string) (caps : captures)
    (k : nat -> string -> captures -> option captures) :
  run icase (Star greedy r1) pos s caps k =
  star_loop icase greedy r1 k (String.length s) pos s caps.
Proof. reflexivity. Qed.

Lemma letter_not_space (c : ascii) : is_upper c || is_lower c = true -> is_space c = false.
Proof. destruct c as [[] [] [] [] [] [] [] []]; vm_compute; congruence. Qed.

Lemma letter_not_colon (c : ascii) : is_upper c || is_lower c = true -> Ascii.eqb ":" c = false.
Proof. destruct c as [[] [] [] [] [] [] [] []]; vm_compute; congruence. Qed.

Lemma upper_not_n (c : ascii) : is_upper c = true -> lit_eqb true "N" c = true -> c = "N"%char.
Proof. destruct c as [[] [] [] [] [] [] [] []]; vm_compute; congruence. Qed.

(** A lazy repetition of letters stops at the first place where the rest
    of the pattern matches; the rest cannot match at a letter when it starts
    with a colon. *)
Lemma lazy_letters (icase : bool) (k : nat -> string -> captures -> option captures)
    (w t : string) (m : captures) :
  (forall c s' p cp, is_upper c || is_lower c = true -> k p (String c s') cp = None) ->
  forall fuel pos caps,
    all_letters w = true -> (String.length w <= fuel)%nat ->
    k (pos + String.length w)%nat t caps = Some m ->
    star_loop icase false letter_or_space k fuel pos (w +:+ t) caps = Some m.
Proof.
  intros Hk. induction w as [|c w IH]; intros fuel pos caps Hw Hf Hm.
  - simpl in Hm. rewrite Nat.add_0_r in Hm. change (EmptyString +:+ t) with t.
    destruct fuel; simpl; [exact Hm|]. rewrite Hm. reflexivity.
  - simpl in Hw. apply andb_true_iff in Hw as [Hc Hw].
    destruct fuel as [|fuel]; [simpl in Hf; lia|].
    change (String c w +:+ t) with (String c (w +:+ t)).
    cbn [star_loop]. rewrite (Hk c _ _ _ Hc). cbn [orelse run letter_or_space].
    rewrite Hc. cbn [orb].
    replace (pos <? S pos)%nat with true by (symmetry; apply Nat.ltb_lt; lia).
    apply IH; [exact Hw|simpl in Hf; lia|].
    rewrite <- Hm. f_equal. simpl. lia.
Qed.

(** A greedy repetition of whitespace takes all the whitespace there is. *)
Lemma greedy_spaces (icase : bool) (k : nat -> string -> captures -> option captures)
    (gap t : string) (m : captures) :
  lstrip t = t ->
  forall fuel pos caps,
    all_space gap = true -> (String.length gap <= fuel)%nat ->
    k (pos + String.length gap)%nat t caps = Some m ->
    star_loop icase true space k fuel pos (gap +:+ t) caps = Some m.
Proof.
  intros Ht. induction gap as [|c gap IH]; intros fuel pos caps Hg Hf Hm.
  - simpl in Hm. rewrite Nat.add_0_r in Hm. change (EmptyString +:+ t) with t.
    destruct fuel; cbn [star_loop]; [exact Hm|].
    assert (Hn : run icase space pos t caps
                   (fun pos' s' caps' =>
                      if (pos <? pos')%nat
                      then star_loop icase true space k fuel pos' s' caps' else None) = None).
    { destruct t as [|b t']; [reflexivity|]. simpl in Ht. cbn [run space].
      destruct (is_space b) eqn:Hb; [|reflexivity].
      exfalso. assert (L : (String.length (lstrip t') <= String.length t')%nat).
      { clear. induction t' as [|x t' IH]; simpl; [lia|]. destruct (is_space x); simpl; lia. }
      rewrite Ht in L. simpl in L. lia. }
    unfold space in Hn |- *. cbn [star_loop] in *. rewrite Hn. exact Hm.
  - simpl in Hg. apply andb_true_iff in Hg as [Hc Hg].
    destruct fuel as [|fuel]; [simpl in Hf; lia|].
    change (String c gap +:+ t) with (String c (gap +:+ t)).
    cbn [star_loop run space]. rewrite Hc.
    replace (pos <? S pos)%nat with true by (symmetry; apply Nat.ltb_lt; lia).
    rewrite (IH fuel (S pos) caps Hg); [reflexivity|simpl in Hf; lia|].
    rewrite <- Hm. f_equal. simpl. lia.
Qed.

(** A greedy repetition of [.] takes the rest of a line. *)
Lemma greedy_any (icase : bool) (k : nat -> string -> captures -> option captures)
    (body : string) (m : captures) :
  forall fuel pos caps,
    one_line body = true -> (String.length body <= fuel)%nat ->
    k (pos + String.length body)%nat EmptyString caps = Some m ->
    star_loop icase true any_char k fuel pos body caps = Some m.
Proof.
  induction body as [|c body IH]; intros fuel pos caps Hb Hf Hm.
  - simpl in Hm. rewrite Nat.add_0_r in Hm.
    destruct fuel; cbn [star_loop run any_char orelse]; exact Hm.
  - simpl in Hb. apply andb_true_iff in Hb as [Hc Hb].
    destruct fuel as [|fuel]; [simpl in Hf; lia|].
    cbn [star_loop run any_char]. rewrite Hc.
    replace (pos <? S pos)%nat with true by (symmetry; apply Nat.ltb_lt; lia).
    rewrite (IH fuel (S pos) caps Hb); [reflexivity|simpl in Hf; lia|].
    rewrite <- Hm. f_equal. simpl. lia.
Qed.

Lemma substring_all (s : string) : substring 0 (String.length s) s = s.
Proof. induction s as [|c s IH]; [reflexivity|]. simpl. f_equal. exact IH. Qed.

Lemma substring_prefix (a b : string) : substring 0 (String.length a) (a +:+ b) = a.
Proof.
  induction a as [|c a IH]; [destruct b; reflexivity|].
  change (String c a +:+ b) with (String c (a +:+ b)). simpl. f_equal. exact IH.
Qed.

Lemma run_cat (icase : bool) (r1 r2 : regex) (pos : nat) (s : string) (caps : captures)
    (k : nat -> string -> captures -> option captures) :
  run icase (Cat r1 r2) pos s caps k =
  run icase r1 pos s caps (fun pos' s' caps' => run icase r2 pos' s' caps' k).
Proof. reflexivity. Qed.

Lemma run_group (icase : bool) (i : nat) (r1 : regex) (pos : nat) (s : string)
    (caps : captures) (k : nat -> string -> captures -> option captures) :
  run icase (Group i r1) pos s caps k =
  run icase r1 pos s caps
    (fun pos' s' caps' => k pos' s' ((i, substring 0 (pos' - pos) s) :: caps')).
Proof. reflexivity. Qed.

Lemma run_class (icase : bool) (p : ascii -> bool) (pos : nat) (c : ascii) (s : string)
    (caps : captures) (k : nat -> string -> captures -> option captures) :
  run icase (Class p) pos (String c s) caps k = if p c then k (S pos) s caps else None.
Proof. reflexivity. Qed.

Lemma run_lit (icase : bool) (p : ascii) (pos : nat) (c : ascii) (s : string)
    (caps : captures) (k : nat -> string -> captures -> option captures) :
  run icase (Lit p) pos (String c s) caps k =
  if lit_eqb icase p c then k (S pos) s caps else None.
Proof. reflexivity. Qed.

Lemma run_bol (icase : bool) (s : string) (caps : captures)
    (k : nat -> string -> captures -> option captures) :
  run icase Bol 0 s caps k = k 0%nat s caps.
Proof. reflexivity. Qed.

Lemma run_eol (icase : bool) (pos : nat) (caps : captures)
    (k : nat -> string -> captures -> option captures) :
  run icase Eol pos EmptyString caps k = k pos EmptyString caps.
Proof. reflexivity. Qed.

(** The dialogue pattern on a capitalised word, a colon and a text. *)
Lemma dialogue_match (u : ascii) (w gap body : string) :
  is_upper u = true -> w <> EmptyString -> all_letters w = true ->
  all_space gap = true ->
  body <> EmptyString -> lstrip body = body -> one_line body = true ->
  rmatch false dialogue_re (String u w +:+ ":" +:+ gap +:+ body) =
    Some [(2%nat, body); (1%nat, String u w)].
Proof.
  intros Hu Hw Hl Hg Hb Hs Ho.
  destruct w as [|c w]; [congruence|]. simpl in Hl. apply andb_true_iff in Hl as [Hc Hl].
  destruct body as [|b body]; [congruence|].
  simpl in Ho. apply andb_true_iff in Ho as [Hnb Ho].
  set (bd := String b body) in *.
  set (line := String u (String c w) +:+ ":" +:+ gap +:+ bd).
  unfold rmatch, dialogue_re. cbn [cat]. unfold LazyPlus, Plus.
  rewrite run_cat, run_bol. rewrite run_cat, run_group, run_cat.
  change line with (String u (String c (w +:+ ":" +:+ gap +:+ bd))) at 1.
  rewrite run_class, Hu, run_cat.
  unfold letter_or_space at 1. rewrite run_class, Hc. cbn [orb].
  rewrite run_star. apply lazy_letters.
  - intros x s' p cp Hx. rewrite run_cat, run_lit. unfold lit_eqb.
    rewrite (letter_not_colon x Hx). reflexivity.
  - exact Hl.
  - rewrite length_append. lia.
  - change (":" +:+ gap +:+ bd) with (String ":" (gap +:+ bd)).
    rewrite run_cat, run_lit. cbn [lit_eqb Ascii.eqb Bool.eqb]. cbv iota.
    rewrite run_cat, run_star. apply greedy_spaces.
    + exact Hs.
    + exact Hg.
    + rewrite length_append. lia.
    + rewrite run_cat, run_group, run_cat. unfold bd at 1. unfold any_char at 1.
      rewrite run_class, Hnb. rewrite run_star. apply greedy_any.
      * exact Ho.
      * lia.
      * rewrite run_eol.
        replace (S (S (2 + String.length w) + String.length gap) + String.length body
                 - (S (2 + String.length w) + String.length gap))%nat
          with (String.length bd) by (unfold bd; simpl; lia).
        replace (2 + String.length w - 0)%nat with (String.length (String u (String c w)))
          by (simpl; lia).
        rewrite substring_all. unfold line. rewrite substring_prefix. reflexivity.
Qed.

Lemma rstrip_letters (s : string) : all_letters s = true -> rstrip s = s.
Proof.
  induction s as [|c r IH]; [reflexivity|]. simpl. intros H.
  apply andb_true_iff in H as [Hc Hr]. rewrite (IH Hr).
  destruct r; [|reflexivity]. rewrite (letter_not_space c Hc). reflexivity.
Qed.

Lemma strip_letters (s : string) : all_letters s = true -> strip s = s.
Proof.
  intros H. unfold strip. destruct s as [|c r]; [reflexivity|].
  assert (Hc : is_space c = false).
  { simpl in H. apply andb_true_iff in H as [Hc _]. apply letter_not_space, Hc. }
  simpl lstrip. rewrite Hc. apply rstrip_letters, H.
Qed.

Lemma upper_not_s (c : ascii) : is_upper c = true -> lit_eqb true "S" c = true -> c = "S"%char.
Proof. destruct c as [[] [] [] [] [] [] [] []]; vm_compute; congruence. Qed.

(** X7.  A line made of a capital letter followed by one or more letters,
    then a colon and a text, is taken as a line of dialogue spoken by that
    word, whatever the word is (unless it starts with N or S, where the
    narration and scene rules come first): the rules for visual prompts and
    durations are not reached, so that "Visual: ..." and "Duration: ..."
    add no prompt and set no duration.  (A single capital letter before the
    colon is no speaker: the pattern asks for two characters.) *)
Theorem capitalised_keyword_is_dialogue (st : pstate) (sc : scene) (raw : string)
    (u : ascii) (w gap body : string) :
  current_scene st = Some sc ->
  strip raw = String u w +:+ ":" +:+ gap +:+ body ->
  is_upper u = true -> u <> "N"%char -> u <> "S"%char ->
  w <> EmptyString -> all_letters w = true -> all_space gap = true ->
  body <> EmptyString -> lstrip body = body -> one_line body = true ->
  exists sc',
    step st raw = {| scenes := scenes st; current_scene := Some sc';
                     scene_counter := scene_counter st |} /\
    dialogue sc' = dialogue sc ++ [ {| speaker := String u w; text := strip body |} ] /\
    visual_prompts sc' = visual_prompts sc /\
    duration_hint sc' = duration_hint sc /\
    description sc' = description sc.
Proof.
  intros Hcur Hline Hu HN HS Hw Hl Hg Hb Hs Ho.
  pose proof (dialogue_match u w gap body Hu Hw Hl Hg Hb Hs Ho) as Hd.
  set (line := String u w +:+ ":" +:+ gap +:+ body) in *.
  assert (Hsc : rmatch true scene_re line = None).
  { destruct (rmatch true scene_re line) as [m|] eqn:E; [|reflexivity].
    apply (rmatch_first_literal true "S" (lits "cene")) in E.
    elim HS. apply upper_not_s; assumption. }
  assert (Hna : rmatch true narration_re line = None).
  { destruct (rmatch true narration_re line) as [m|] eqn:E; [|reflexivity].
    apply (rmatch_first_literal true "N" (lits "arration:")) in E.
    elim HN. apply upper_not_n; assumption. }
  exists (apply_line sc line). split.
  - unfold step. rewrite Hline. fold line. change (is_empty line) with false. cbv iota.
    rewrite Hsc, Hcur. reflexivity.
  - unfold apply_line. rewrite Hna, Hd.
    change (group 1 [(2%nat, body); (1%nat, String u w)]) with (String u w).
    change (group 2 [(2%nat, body); (1%nat, String u w)]) with body.
    assert (Hst : strip (String u w) = String u w).
    { apply strip_letters. simpl. rewrite Hu, Hl. reflexivity. }
    rewrite Hst. destruct (mem (String u w) (characters sc)); repeat split.
Qed.

Lemma capitalised_keyword_is_dialogue_witness :
  exists sc',
    step {| scenes := []; current_scene := Some (new_scene "scene_01" "Test Scene");
            scene_counter := 1 |}
         "Visual: A beautiful sunset over mountains" =
      {| scenes := []; current_scene := Some sc'; scene_counter := 1 |} /\
    dialogue sc' = dialogue (new_scene "scene_01" "Test Scene") ++
                   [ {| speaker := "Visual"; text := strip "A beautiful sunset over mountains" |} ] /\
    visual_prompts sc' = visual_prompts (new_scene "scene_01" "Test Scene") /\
    duration_hint sc' = duration_hint (new_scene "scene_01" "Test Scene") /\
    description sc' = description (new_scene "scene_01" "Test Scene").
Proof.
  apply (capitalised_keyword_is_dialogue
           {| scenes := []; current_scene := Some (new_scene "scene_01" "Test Scene");
              scene_counter := 1 |}
           (new_scene "scene_01" "Test Scene")
           "Visual: A beautiful sunset over mountains"
           "V" "isual" " " "A beautiful sunset over mountains");
    first [reflexivity | (intros X; discriminate X)].
Defined.

(** A single capital letter before the colon: the line is prose. *)
Example one_letter_is_no_speaker :
  step {| scenes := []; current_scene := Some (new_scene "scene_01" "Test Scene");
          scene_counter := 1 |} "A: hi" =
    {| scenes := [];
       current_scene := Some (set_description "Test Scene A: hi" (new_scene "scene_01" "Test Scene"));
       scene_counter := 1 |}.
Proof. vm_compute. reflexivity. Qed.

End DialogueFacts.

Module VisualRuleFacts.
Import Text Re Parser TextFacts ParserFacts DialogueFacts.

Lemma run_alt (icase : bool) (r1 r2 : regex) (pos : nat) (s : string) (caps : captures)
    (k : nat -> string -> captures -> option captures) :
  run icase (Alt r1 r2) pos s caps k =
  orelse (run icase r1 pos s caps k) (run icase r2 pos s caps k).
Proof. reflexivity. Qed.

Lemma run_eps (icase : bool) (pos : nat) (s : string) (caps : captures)
    (k : nat -> string -> captures -> option captures) :
  run icase Eps pos s caps k = k pos s caps.
Proof. reflexivity. Qed.

Lemma orelse_some {A : Type} (x o : option A) (a : A) : x = Some a -> orelse x o = Some a.
Proof. intros ->. reflexivity. Qed.

(** The visual pattern on the lower-case keyword, a colon or a dash, and a
    text. *)
Lemma visual_match (sep : ascii) (gap body : string) :
  sep = ":"%char \/ sep = "-"%char ->
  all_space gap = true ->
  body <> EmptyString -> lstrip body = body -> one_line body = true ->
  rmatch true visual_re ("visual" +:+ String sep (gap +:+ body)) = Some [(1%nat, body)].
Proof.
  intros Hsep Hg Hb Hs Ho.
  destruct body as [|b body]; [congruence|].
  simpl in Ho. apply andb_true_iff in Ho as [Hnb Ho].
  set (bd := String b body) in *.
  unfold rmatch, visual_re. cbn [cat lits]. unfold Opt, Plus.
  change ("visual" +:+ String sep (gap +:+ bd))
    with (String "v" (String "i" (String "s" (String "u" (String "a" (String "l"
            (String sep (gap +:+ bd)))))))).
  rewrite run_cat, run_bol.
  rewrite !run_cat.
  do 6 (rewrite run_lit; match goal with |- context [lit_eqb true ?a ?b] =>
                           change (lit_eqb true a b) with true end; cbv iota;
        rewrite ?run_cat).
  rewrite run_eps, run_cat, run_alt. unfold colon_or_dash at 1. rewrite run_class.
  assert (Hc : (Ascii.eqb sep ":" || Ascii.eqb sep "-") = true).
  { destruct Hsep as [-> | ->]; reflexivity. }
  rewrite Hc.
  apply orelse_some. rewrite run_cat.
  rewrite run_star. apply greedy_spaces.
  - exact Hs.
  - exact Hg.
  - rewrite length_append. lia.
  - rewrite run_cat, run_group, run_cat. unfold bd at 1. unfold any_char at 1.
    rewrite run_class, Hnb. rewrite run_star. apply greedy_any.
    + exact Ho.
    + lia.
    + rewrite run_eol.
      replace (S (7 + String.length gap) + String.length body - (7 + String.length gap))%nat
        with (String.length bd) by (unfold bd; simpl; lia).
      rewrite substring_all. reflexivity.
Qed.


(** X8.  A line that starts with the keyword in lower case, then a colon or
    a dash, then a text, adds the text to the prompts of the open scene and
    changes nothing else of it. *)
Theorem lowercase_visual_line_adds_prompt (st : pstate) (sc : scene) (raw : string)
    (sep : ascii) (gap body : string) :
  current_scene st = Some sc ->
  strip raw = "visual" +:+ String sep (gap +:+ body) ->
  sep = ":"%char \/ sep = "-"%char ->
  all_space gap = true ->
  body <> EmptyString -> lstrip body = body -> one_line body = true ->
  step st raw =
    {| scenes := scenes st;
       current_scene := Some (set_visual_prompts (visual_prompts sc ++ [strip body]) sc);
       scene_counter := scene_counter st |}.
Proof.
  intros Hcur Hline Hsep Hg Hb Hs Ho.
  pose proof (visual_match sep gap body Hsep Hg Hb Hs Ho) as Hv.
  set (line := "visual" +:+ String sep (gap +:+ body)) in *.
  assert (Hsc : rmatch true scene_re line = None).
  { destruct (rmatch true scene_re line) as [m|] eqn:E; [|reflexivity].
    apply (rmatch_first_literal true "S" (lits "cene") _ "v") in E. discriminate E. }
  assert (Hna : rmatch true narration_re line = None).
  { destruct (rmatch true narration_re line) as [m|] eqn:E; [|reflexivity].
    apply (rmatch_first_literal true "N" (lits "arration:") _ "v") in E. discriminate E. }
  assert (Hdi : rmatch false dialogue_re line = None).
  { unfold rmatch, dialogue_re. cbn [cat].
    change line with (String "v" ("isual" +:+ String sep (gap +:+ body))).
    rewrite run_cat, run_bol, run_cat, run_group, run_cat, run_class. reflexivity. }
  unfold step. rewrite Hline. fold line. change (is_empty line) with false. cbv iota.
  rewrite Hsc, Hcur. unfold apply_line. rewrite Hna, Hdi, Hv. reflexivity.
Qed.

Lemma lowercase_visual_line_adds_prompt_witness :
  step {| scenes := []; current_scene := Some (new_scene "scene_01" "Test Scene");
          scene_counter := 1 |}
       "visual: A beautiful sunset over mountains" =
    {| scenes := [];
       current_scene :=
         Some (set_visual_prompts
                 (visual_prompts (new_scene "scene_01" "Test Scene") ++
                  [strip "A beautiful sunset over mountains"])
                 (new_scene "scene_01" "Test Scene"));
       scene_counter := 1 |}.
Proof.
  apply (lowercase_visual_line_adds_prompt
           {| scenes := []; current_scene := Some (new_scene "scene_01" "Test Scene");
              scene_counter := 1 |}
           (new_scene "scene_01" "Test Scene")
           "visual: A beautiful sunset over mountains"
           ":" " " "A beautiful sunset over mountains");
    first [reflexivity | (left; reflexivity) | (intros X; discriminate X)].
Defined.

End VisualRuleFacts.

(** ** The text to speak *)
Module CliFacts.
Import Text TextFacts Parser Cli ParserInvariants.

(** X9.  Whatever the scenes, the text handed to [synthesize] passes its
    emptiness check. *)
Theorem audio_text_not_blank (scenes : list scene) :
  is_empty (audio_text scenes) || is_empty (strip (audio_text scenes)) = false.
Proof.
  unfold audio_text.
  destruct (is_empty (strip (String.concat ". " (flat_map scene_parts scenes)))) eqn:E.
  - reflexivity.
  - rewrite E, orb_false_r.
    destruct (String.concat ". " (flat_map scene_parts scenes)); [discriminate E|reflexivity].
Qed.

Lemma all_space_concat_head (sep x : string) (rest : list string) :
  all_space x = false -> all_space (String.concat sep (x :: rest)) = false.
Proof.
  intros H. destruct rest as [|y rest]; simpl; [exact H|].
  rewrite all_space_append, H. reflexivity.
Qed.

(** X10.  For the scenes of a parsed script the spoken text is the
    descriptions and dialogue lines joined with ". ", and it is not blank:
    the default phrase is not used. *)
Theorem parsed_audio_text (text : string) (out : list scene) :
  parse_script text = Ok out ->
  audio_text out = String.concat ". " (flat_map scene_parts out) /\
  all_space (audio_text out) = false.
Proof.
  intros H. pose proof (descriptions_not_blank text out H) as D.
  pose proof (parse_script_not_nil text out H) as Hne.
  destruct out as [|sc rest]; [contradiction|]. inversion D as [|? ? Hd _]; subst.
  assert (B : all_space (String.concat ". " (flat_map scene_parts (sc :: rest))) = false).
  { simpl flat_map. unfold scene_parts at 1.
    destruct (description sc) as [|c d] eqn:E; [discriminate Hd|].
    simpl app. apply all_space_concat_head. exact Hd. }
  unfold audio_text.
  destruct (is_empty (strip (String.concat ". " (flat_map scene_parts (sc :: rest))))) eqn:E.
  - apply is_empty_true, strip_empty in E. congruence.
  - split; [reflexivity|exact B].
Qed.

Lemma parsed_audio_text_witness :
  audio_text
    [ {| scene_id := "scene_01"; start_cue := Missing; description := "Scene 1";
         characters := ["Alice"]; dialogue := [ {| speaker := "Alice"; text := "Hi" |} ];
         visual_prompts := ["Scene 1"]; duration_hint := Missing |} ] =
    "Scene 1. Alice says: Hi" /\
  all_space (audio_text
    [ {| scene_id := "scene_01"; start_cue := Missing; description := "Scene 1";
         characters := ["Alice"]; dialogue := [ {| speaker := "Alice"; text := "Hi" |} ];
         visual_prompts := ["Scene 1"]; duration_hint := Missing |} ]) = false.
Proof. apply (parsed_audio_text "Alice: Hi"). reflexivity. Defined.

End CliFacts.

(** ** More on the renderer *)
Module RenderInvariants.
Import Text TextFacts PyFloat PyFloatFacts VisualGen VisualGenFacts.

(** X11.  Different frame numbers give different file names, also beyond
    six digits. *)
Theorem frame_names_distinct (i j : N) : i <> j -> frame_name i <> frame_name j.
Proof. intros H E. apply H, frame_name_inj, E. Qed.

Lemma frame_names_distinct_witness : frame_name 999999 <> frame_name 1000000.
Proof. apply frame_names_distinct. discriminate. Defined.

Section Render.
Context {image : Type}.
Variable md5_hexdigest : string -> string.
Variable render : string -> scene_info -> image.

Lemma render_scene_ok (sc : scene_info) (fps_hint : Z) (fs fs' : gmap (string * string) image) :
  render_scene md5_hexdigest render fps_hint fs sc = Ok fs' ->
  exists n, num_frames sc fps_hint = Ok n /\
            fs' = _generate_scene_frames md5_hexdigest render (scene_dir sc) (prompts_of sc)
                    sc n fs.
Proof.
  unfold render_scene. destruct (num_frames sc fps_hint) as [n|]; [|discriminate].
  simpl. intros [= <-]. eauto.
Qed.

(** X12.  Rendering a scene keeps every cache entry with its image, and
    adds at most the entry of the scene's own key. *)
Theorem render_scene_cache_append_only (sc : scene_info) (fps_hint : Z)
    (fs fs' : gmap (string * string) image) :
  render_scene md5_hexdigest render fps_hint fs sc = Ok fs' ->
  scene_dir sc <> cache_dir ->
  (forall name img, fs !! (cache_dir, name) = Some img -> fs' !! (cache_dir, name) = Some img) /\
  (forall name, is_Some (fs' !! (cache_dir, name)) ->
                is_Some (fs !! (cache_dir, name)) \/
                (cache_dir, name) = cached_frame md5_hexdigest (prompts_of sc)).
Proof.
  intros H Hd. apply render_scene_ok in H as (n & _ & ->).
  assert (L : forall name,
             _generate_scene_frames md5_hexdigest render (scene_dir sc) (prompts_of sc) sc n fs
               !! (cache_dir, name) =
             snd (base_frame md5_hexdigest render (prompts_of sc) sc fs) !! (cache_dir, name)).
  { intros name. rewrite lookup_generate_scene_frames.
    rewrite decide_False by (intros [X _]; congruence). reflexivity. }
  split.
  - intros name img Hn. rewrite L. unfold base_frame.
    destruct (fs !! cached_frame md5_hexdigest (prompts_of sc)) eqn:C; simpl; [exact Hn|].
    rewrite lookup_insert_ne; [exact Hn|]. intros X. rewrite X in C. congruence.
  - intros name. rewrite L. unfold base_frame.
    destruct (fs !! cached_frame md5_hexdigest (prompts_of sc)) eqn:C; simpl; [auto|].
    destruct (decide (cached_frame md5_hexdigest (prompts_of sc) = (cache_dir, name))) as [X|X].
    + auto.
    + rewrite lookup_insert_ne by exact X. auto.
Qed.

(** X13.  Rendering a scene touches no file of another scene's directory. *)
Theorem render_scene_other_directories (sc : scene_info) (fps_hint : Z)
    (fs fs' : gmap (string * string) image) (d name : string) :
  render_scene md5_hexdigest render fps_hint fs sc = Ok fs' ->
  d <> scene_dir sc -> d <> cache_dir ->
  fs' !! (d, name) = fs !! (d, name).
Proof.
  intros H Hd Hc. apply render_scene_ok in H as (n & _ & ->).
  rewrite lookup_generate_scene_frames.
  rewrite decide_False by (intros [X _]; congruence).
  apply base_frame_elsewhere. exact Hc.
Qed.

(** X14.  Rendering the same scene again changes nothing: the second run
    finds the cache entry and rewrites the same frames. *)
Theorem render_scene_idempotent (sc : scene_info) (fps_hint : Z)
    (fs fs' : gmap (string * string) image) :
  render_scene md5_hexdigest render fps_hint fs sc = Ok fs' ->
  scene_dir sc <> cache_dir ->
  render_scene md5_hexdigest render fps_hint fs' sc = Ok fs'.
Proof.
  intros H Hd. apply render_scene_ok in H as (n & Hn & ->).
  unfold render_scene. rewrite Hn. simpl. f_equal.
  set (c := cached_frame md5_hexdigest (prompts_of sc)).
  set (fs1 := _generate_scene_frames md5_hexdigest render (scene_dir sc) (prompts_of sc) sc n fs).
  set (b := base_frame md5_hexdigest render (prompts_of sc) sc fs).
  assert (Hb : snd b !! c = Some (fst b)).
  { unfold b, base_frame. fold c. destruct (fs !! c) eqn:C; simpl; [exact C|].
    apply lookup_insert_eq. }
  assert (H1 : fs1 !! c = Some (fst b)).
  { unfold c, cached_frame in *. unfold fs1. rewrite lookup_generate_scene_frames.
    rewrite decide_False by (intros [X _]; congruence). exact Hb. }
  assert (B2 : base_frame md5_hexdigest render (prompts_of sc) sc fs1 = (fst b, fs1)).
  { unfold base_frame. fold c. rewrite H1. reflexivity. }
  apply map_eq. intros [d name].
  rewrite lookup_generate_scene_frames, B2. simpl.
  case_decide as X; [|reflexivity].
  unfold fs1. rewrite lookup_generate_scene_frames. rewrite decide_True by exact X. reflexivity.
Qed.

End Render.

Import Samples.

Lemma render_caching_scene_2 :
  render_scene toy_digest toy_render 24 caching_frames_1 caching_scene_2 = Ok caching_frames.
Proof.
  unfold render_scene.
  replace (num_frames caching_scene_2 24) with (@Ok Z 24%Z) by (vm_compute; reflexivity).
  reflexivity.
Qed.

Lemma render_scene_cache_append_only_witness :
  (forall name img, caching_frames_1 !! (cache_dir, name) = Some img ->
                    caching_frames !! (cache_dir, name) = Some img) /\
  (forall name, is_Some (caching_frames !! (cache_dir, name)) ->
                is_Some (caching_frames_1 !! (cache_dir, name)) \/
                (cache_dir, name) = cached_frame toy_digest (prompts_of caching_scene_2)).
Proof.
  apply (render_scene_cache_append_only toy_digest toy_render caching_scene_2 24
           caching_frames_1 caching_frames render_caching_scene_2).
  intros X. discriminate X.
Defined.

Lemma render_scene_other_directories_witness :
  caching_frames !! ("scene_01", "frame_000001.png") =
  caching_frames_1 !! ("scene_01", "frame_000001.png").
Proof.
  apply (render_scene_other_directories toy_digest toy_render caching_scene_2 24
           caching_frames_1 caching_frames "scene_01" "frame_000001.png"
           render_caching_scene_2).
  - intros X. discriminate X.
  - intros X. discriminate X.
Defined.

Lemma render_scene_idempotent_witness :
  render_scene toy_digest toy_render 24 frames_48 test_scene_48 = Ok frames_48.
Proof.
  apply (render_scene_idempotent toy_digest toy_render test_scene_48 24 ∅ frames_48
           render_test_scene_48).
  intros X. discriminate X.
Defined.

End RenderInvariants.

(** ** Wrapping *)
Module WrapFacts.
Import Text TextFacts VisualGen.

Lemma append_assoc (a b c : string) : (a +:+ b) +:+ c = a +:+ (b +:+ c).
Proof.
  induction a as [|x a IH]; [reflexivity|].
  change (String x ((a +:+ b) +:+ c) = String x (a +:+ (b +:+ c))). f_equal. exact IH.
Qed.

Lemma concat_snoc (sep x : string) (l : list string) :
  l <> [] -> String.concat sep (l ++ [x]) = String.concat sep l +:+ sep +:+ x.
Proof.
  induction l as [|a l IH]; [congruence|]. intros _.
  destruct l as [|b l]; [reflexivity|].
  change (String.concat sep ((a :: b :: l) ++ [x]))
    with (a +:+ sep +:+ String.concat sep ((b :: l) ++ [x])).
  rewrite IH by discriminate.
  change (String.concat sep (a :: b :: l)) with (a +:+ sep +:+ String.concat sep (b :: l)).
  rewrite !append_assoc. reflexivity.
Qed.

Lemma concat_snoc_append (sep x y : string) (l : list string) :
  String.concat sep (l ++ [x +:+ y]) = String.concat sep (l ++ [x]) +:+ y.
Proof.
  destruct l as [|a l]; [reflexivity|].
  rewrite !concat_snoc by discriminate. rewrite !append_assoc. reflexivity.
Qed.

Section Wrap.
Variable text_width : string -> Z.
Variable max_width : Z.

Lemma wrap_step_wrapped (ws : list string) (st : list string * list string) (w : string) :
  wrapped ws st -> wrapped (ws ++ [w]) (wrap_step text_width max_width st w).
Proof.
  intros [[-> ->]|(Hws & Hcur & Hj)]; right.
  - split; [discriminate|]. unfold wrap_step. cbn [app join_words String.concat].
    destruct (text_width w <=? max_width)%Z; cbn; (split; [discriminate|reflexivity]).
  - split; [intros X; apply app_eq_nil in X as [_ X]; discriminate|].
    destruct st as [lines cur]. simpl in Hcur. unfold wrap_step.
    unfold wrap_flush in Hj. simpl in Hj.
    destruct cur as [|c cur]; [congruence|].
    destruct (text_width (join_words ((c :: cur) ++ [w])) <=? max_width)%Z.
    + split; [discriminate|]. unfold wrap_flush. simpl snd. simpl fst.
      unfold join_words in *.
      change (c :: cur ++ [w]) with ((c :: cur) ++ [w]).
      rewrite (concat_snoc " " w (c :: cur)) by discriminate.
      rewrite concat_snoc_append, Hj.
      rewrite (concat_snoc " " w ws) by exact Hws. reflexivity.
    + split; [discriminate|]. unfold wrap_flush. cbn [snd fst].
      unfold join_words in *. change (String.concat " " [w]) with w.
      rewrite (concat_snoc " " w (lines ++ [String.concat " " (c :: cur)])).
      * rewrite Hj. rewrite (concat_snoc " " w ws) by exact Hws. reflexivity.
      * intros X. apply app_eq_nil in X as [_ X]. discriminate.
Qed.

Lemma fold_wrapped (rest ws : list string) (st : list string * list string) :
  wrapped ws st -> wrapped (ws ++ rest) (fold_left (wrap_step text_width max_width) rest st).
Proof.
  revert ws st. induction rest as [|w rest IH]; intros ws st H; simpl.
  - rewrite app_nil_r. exact H.
  - replace (ws ++ w :: rest) with ((ws ++ [w]) ++ rest) by (rewrite <- app_assoc; reflexivity).
    apply IH, wrap_step_wrapped, H.
Qed.

(** X15.  Wrapping moves the line breaks only: when the text has a word, the
    lines joined with spaces are the words joined with spaces; when it has
    none, the one line is the first 50 characters of the text.  The result
    is never empty. *)
Theorem wrap_text_keeps_words (text : string) :
  _wrap_text text_width text max_width <> [] /\
  (split_words text = [] -> _wrap_text text_width text max_width = [substring 0 50 text]) /\
  (split_words text <> [] ->
   join_words (_wrap_text text_width text max_width) = join_words (split_words text)).
Proof.
  unfold _wrap_text.
  pose proof (fold_wrapped (split_words text) [] ([], []) (or_introl (conj eq_refl eq_refl)))
    as H.
  simpl app in H.
  destruct H as [[E ->]|(Hne & Hcur & Hj)].
  - rewrite E. simpl. repeat split; [discriminate|congruence].
  - set (st := fold_left (wrap_step text_width max_width) (split_words text) ([], [])) in *.
    assert (F : wrap_flush st <> []).
    { unfold wrap_flush. destruct (snd st); [congruence|].
      intros X. apply app_eq_nil in X as [_ X]. discriminate. }
    destruct (wrap_flush st) as [|l ls] eqn:E; [congruence|].
    repeat split; [discriminate|congruence|]. intros _. exact Hj.
Qed.

Lemma wrap_step_fits (words : list string) (st : list string * list string) (w : string) :
  In w words -> lines_fit text_width max_width words st -> lines_fit text_width max_width words (wrap_step text_width max_width st w).
Proof.
  intros Hw [Hl Hc]. destruct st as [lines cur]. simpl in *. unfold wrap_step.
  destruct (text_width (join_words (cur ++ [w])) <=? max_width)%Z eqn:T.
  - split; [exact Hl|]. right. left. apply Z.leb_le, T.
  - destruct cur as [|c cur].
    + split; [exact Hl|]. right. right. exact Hw.
    + split.
      * apply Forall_app. split; [exact Hl|]. constructor; [|constructor].
        destruct Hc as [Hc|Hc]; [discriminate|exact Hc].
      * right. right. exact Hw.
Qed.

Lemma fold_fits (words rest : list string) (st : list string * list string) :
  (forall w, In w rest -> In w words) -> lines_fit text_width max_width words st ->
  lines_fit text_width max_width words (fold_left (wrap_step text_width max_width) rest st).
Proof.
  revert st. induction rest as [|w rest IH]; intros st Hin H; simpl; [exact H|].
  apply IH; [intros x Hx; apply Hin; right; exact Hx|].
  apply wrap_step_fits; [apply Hin; left; reflexivity|exact H].
Qed.

(** X16.  Every line of a text that has a word is within the width or is a
    single word of the text (which may be wider). *)
Theorem wrap_text_lines_fit (text : string) :
  split_words text <> [] ->
  Forall (fits_or_word text_width max_width (split_words text)) (_wrap_text text_width text max_width).
Proof.
  intros Hne. unfold _wrap_text.
  pose proof (fold_wrapped (split_words text) [] ([], []) (or_introl (conj eq_refl eq_refl)))
    as H.
  simpl app in H. destruct H as [[E _]|(_ & Hcur & _)]; [congruence|].
  assert (F : lines_fit text_width max_width (split_words text)
                (fold_left (wrap_step text_width max_width) (split_words text) ([], []))).
  { apply fold_fits; [auto|]. split; [constructor|left; reflexivity]. }
  set (st := fold_left (wrap_step text_width max_width) (split_words text) ([], [])) in *.
  destruct F as [Fl Fc].
  assert (G : Forall (fits_or_word text_width max_width (split_words text)) (wrap_flush st)).
  { unfold wrap_flush. destruct (snd st) as [|c cur]; [congruence|].
    apply Forall_app. split; [exact Fl|]. constructor; [|constructor].
    destruct Fc as [Fc|Fc]; [discriminate|exact Fc]. }
  assert (N : wrap_flush st <> []).
  { unfold wrap_flush. destruct (snd st); [congruence|].
    intros X. apply app_eq_nil in X as [_ X]. discriminate. }
  destruct (wrap_flush st); [congruence|exact G].
Qed.

End Wrap.

Import Samples.

Lemma wrap_text_lines_fit_witness :
  Forall (fits_or_word toy_width 100 (split_words "the quick brown fox jumps"))
    (_wrap_text toy_width "the quick brown fox jumps" 100).
Proof.
  apply (wrap_text_lines_fit toy_width 100 "the quick brown fox jumps").
  intros X. vm_compute in X. discriminate X.
Defined.

End WrapFacts.

(** ** More on normalization and synthesis *)
Module NormalizeFacts.
Import Text TextFacts AudioSynth AudioSynthFacts.

Lemma pairs_length {A : Type} (e : exn) (l : list A) (ps : list (A * A)) :
  pairs e l = Ok ps -> length l = (2 * length ps)%nat.
Proof.
  assert (G : forall n (l : list A) ps, (length l <= n)%nat -> pairs e l = Ok ps ->
                                          length l = (2 * length ps)%nat).
  { clear. induction n as [|n IH]; intros l ps Hn.
    - destruct l; [|simpl in Hn; lia]. simpl. intros [= <-]. reflexivity.
    - destruct l as [|a [|b rest]]; simpl.
      + intros [= <-]. reflexivity.
      + discriminate.
      + destruct (pairs e rest) as [qs|] eqn:P; [|discriminate]. simpl. intros [= <-].
        simpl. rewrite (IH rest qs); [lia| |exact P]. simpl in Hn. lia. }
  apply (G (length l)). lia.
Qed.

(** A fragment that [audioop] accepts holds whole samples of 1 to 4 bytes. *)
Lemma audioop_samples_length (fragment : list Byte.byte) (width : Z) (samples : list Z) :
  audioop_samples fragment width = Ok samples ->
  (1 <= width <= 4)%Z /\ length fragment = (Z.to_nat width * length samples)%nat.
Proof.
  unfold audioop_samples.
  destruct ((width <? 1)%Z || (4 <? width)%Z) eqn:W; [discriminate|].
  apply orb_false_iff in W as [W1 W2]. apply Z.ltb_ge in W1, W2.
  destruct (Z.of_nat (length fragment) mod width =? 0)%Z eqn:M; [|discriminate].
  simpl. intros [= <-]. split; [lia|].
  apply Z.eqb_eq in M. rewrite length_map.
  assert (D : Z.of_nat (length fragment) = (width * (Z.of_nat (length fragment) / width))%Z).
  { apply Z.div_exact; [lia|exact M]. }
  assert (P : (0 <= Z.of_nat (length fragment) / width)%Z) by (apply Z.div_pos; lia).
  set (k := (Z.of_nat (length fragment) / width)%Z) in *.
  assert (L : length fragment = (Z.to_nat width * Z.to_nat k)%nat) by nia.
  rewrite (chunks_length (Z.to_nat width) (Z.to_nat k)); [exact L|lia|exact L|lia].
Qed.

Lemma audioop_fragment_length (samples : list Z) (width : Z) :
  length (audioop_fragment samples width) = (Z.to_nat width * length samples)%nat.
Proof.
  unfold audioop_fragment. apply length_concat_fixed. intros a. apply length_le_bytes.
Qed.

Section Facts.
Variable E : env.

Lemma audioop_mul_length (fragment out : list Byte.byte) (width r : Z) :
  audioop_mul E fragment width r = Ok out -> length out = length fragment.
Proof.
  unfold audioop_mul. destruct (audioop_samples fragment width) as [samples|] eqn:S;
    [|discriminate].
  simpl. intros [= <-]. apply audioop_samples_length in S as [_ S].
  rewrite audioop_fragment_length, length_map. lia.
Qed.

Lemma audioop_tomono_length (fragment out : list Byte.byte) (width : Z) :
  audioop_tomono E fragment width = Ok out -> length fragment = (2 * length out)%nat.
Proof.
  unfold audioop_tomono. destruct (audioop_samples fragment width) as [samples|] eqn:S;
    [|discriminate].
  simpl. destruct (pairs AudioError samples) as [ps|] eqn:P; [|discriminate].
  simpl. intros [= <-]. apply audioop_samples_length in S as [_ S].
  apply pairs_length in P. rewrite audioop_fragment_length, length_map. lia.
Qed.

Lemma audioop_tostereo_length (fragment out : list Byte.byte) (width : Z) :
  audioop_tostereo fragment width = Ok out -> length out = (2 * length fragment)%nat.
Proof.
  unfold audioop_tostereo. destruct (audioop_samples fragment width) as [samples|] eqn:S;
    [|discriminate].
  simpl. intros [= <-]. apply audioop_samples_length in S as [_ S].
  rewrite audioop_fragment_length.
  assert (L : length (flat_map (fun v : Z => [v; v]) samples) = (2 * length samples)%nat).
  { clear. induction samples; simpl; lia. }
  rewrite L. lia.
Qed.

Lemma header_fits_le (nch sw fr a b : Z) :
  (a <= b)%Z -> header_fits nch sw fr b = true -> header_fits nch sw fr a = true.
Proof.
  unfold header_fits. rewrite !andb_true_iff.
  intros Hab (((((H1 & H2) & H3) & H4) & H5) & H6).
  repeat split; try assumption. apply Z.ltb_lt. apply Z.ltb_lt in H1. lia.
Qed.

Lemma chunks_length_le {A : Type} (fuel w : nat) (l : list A) :
  (0 < w)%nat -> (length (chunks fuel w l) <= length l)%nat.
Proof.
  intros Hw. revert l. induction fuel as [|fuel IH]; intros l; [simpl; lia|].
  destruct l as [|a l]; [simpl; lia|].
  cbn [chunks]. cbn [length]. specialize (IH (skipn w (a :: l))).
  rewrite length_skipn in IH. cbn [length] in IH. lia.
Qed.

Lemma np_downmix_length_le (n_channels : Z) (l audio : list (f32 E)) :
  np_downmix E n_channels l = Ok audio -> (length audio <= length l)%nat.
Proof.
  unfold np_downmix. destruct (n_channels =? 2)%Z.
  - destruct (pairs ValueError l) as [ps|] eqn:P; [|discriminate]. simpl.
    intros [= <-]. apply pairs_length in P. rewrite length_map. lia.
  - intros [= <-]. lia.
Qed.

(** What the [audioop] branch does to the world when the header can be
    written back: nothing, or it replaces the file by one with the same
    header and as many bytes of data. *)
Lemma audioop_outcome (path : string) (wv : wav) (frames : list Byte.byte) (w : world)
    (k : Z) :
  (1 <= nchannels wv)%Z -> (0 < framerate wv)%Z ->
  Z.of_nat (length frames) = (k * (nchannels wv * sampwidth wv))%Z ->
  header_fits (nchannels wv) (sampwidth wv) (framerate wv) (Z.of_nat (length frames)) = true ->
  snd (normalize_with_audioop E path wv frames w) = w \/
  exists out,
    length out = length frames /\
    normalize_with_audioop E path wv frames w =
      (Ok tt, {| files := <[path := Wav {| nchannels := nchannels wv;
                                           sampwidth := sampwidth wv;
                                           framerate := framerate wv;
                                           data := out |}]> (files w);
                 log := log w |}).
Proof.
  intros Hc Hr Hk Hfit. unfold normalize_with_audioop, mbind, lift, ret.
  destruct (nchannels wv =? 2)%Z eqn:St.
  - destruct (audioop_tomono E frames (sampwidth wv)) as [mono|] eqn:M; [|left; reflexivity].
    destruct (audioop_rms E mono (sampwidth wv)) as [rms|] eqn:R; [|left; reflexivity].
    destruct (rms =? 0)%Z; [left; reflexivity|].
    destruct (audioop_mul E mono (sampwidth wv) rms) as [nm|] eqn:Mu; [|left; reflexivity].
    destruct (audioop_tostereo nm (sampwidth wv)) as [out|] eqn:T; [|left; reflexivity].
    assert (Hl : length out = length frames).
    { apply audioop_tomono_length in M. apply audioop_mul_length in Mu.
      apply audioop_tostereo_length in T. lia. }
    right. exists out. split; [exact Hl|].
    unfold audioop_rms in R.
    destruct (audioop_samples mono (sampwidth wv)) as [ss|] eqn:S; [|discriminate].
    apply audioop_samples_length in S as [W _].
    apply (wave_write_ok _ _ _ _ _ k); try assumption; rewrite Hl; assumption.
  - destruct (audioop_rms E frames (sampwidth wv)) as [rms|] eqn:R; [|left; reflexivity].
    destruct (rms =? 0)%Z; [left; reflexivity|].
    destruct (audioop_mul E frames (sampwidth wv) rms) as [out|] eqn:Mu; [|left; reflexivity].
    assert (Hl : length out = length frames) by (apply audioop_mul_length in Mu; exact Mu).
    right. exists out. split; [exact Hl|].
    unfold audioop_rms in R.
    destruct (audioop_samples frames (sampwidth wv)) as [ss|] eqn:S; [|discriminate].
    apply audioop_samples_length in S as [W _].
    apply (wave_write_ok _ _ _ _ _ k); try assumption; rewrite Hl; assumption.
Qed.

(** The frames read are whole frames, and their header can be packed when
    that of the file can. *)
Lemma readframes_whole (wv : wav) :
  (1 <= nchannels wv)%Z -> (1 <= sampwidth wv)%Z ->
  Z.of_nat (length (readframes wv)) = (nframes wv * (nchannels wv * sampwidth wv))%Z.
Proof. intros Hc Hs. apply length_readframes. unfold framesize. nia. Qed.

Lemma readframes_fits (wv : wav) :
  header_fits (nchannels wv) (sampwidth wv) (framerate wv)
    (Z.of_nat (length (data wv))) = true ->
  header_fits (nchannels wv) (sampwidth wv) (framerate wv)
    (Z.of_nat (length (readframes wv))) = true.
Proof.
  apply header_fits_le. pose proof (length_readframes_le wv). lia.
Qed.

(** X17.  With [audioop], normalization never changes the number of channels,
    the sample width, the frame rate or the number of frames of a WAV file
    whose frame rate is positive and whose header can be written back: its
    fields fit the widths that the WAV header gives them. *)
Theorem audioop_keeps_format (path : string) (w : world) (wv : wav) :
  has_audioop E = true ->
  files w !! path = Some (Wav wv) -> (0 < framerate wv)%Z ->
  header_fits (nchannels wv) (sampwidth wv) (framerate wv)
    (Z.of_nat (length (data wv))) = true ->
  exists wv',
    files (snd (_normalize_audio E path w)) !! path = Some (Wav wv') /\
    nchannels wv' = nchannels wv /\ sampwidth wv' = sampwidth wv /\
    framerate wv' = framerate wv /\ nframes wv' = nframes wv.
Proof.
  intros Ha Hf Hr Hfit.
  unfold _normalize_audio, catch, mbind at 1, wave_open_read, mbind at 1, read_file.
  rewrite Hf.
  destruct ((nchannels wv <? 1)%Z || (sampwidth wv <? 1)%Z) eqn:Hd.
  { exists wv. simpl. auto. }
  apply orb_false_iff in Hd as [Hc Hs]. apply Z.ltb_ge in Hc, Hs.
  unfold ret at 1. cbv zeta.
  pose proof (readframes_whole wv Hc Hs) as Hwhole.
  pose proof (readframes_fits wv Hfit) as Hfit'.
  destruct (readframes wv) as [|b bs] eqn:Hrf.
  { exists wv. simpl. auto. }
  rewrite Ha.
  destruct (audioop_outcome path wv (b :: bs) w (nframes wv) Hc Hr Hwhole Hfit')
    as [Hw|(out & Hl & Ho)].
  - destruct (normalize_with_audioop E path wv (b :: bs) w) as [[[]|e] w']; simpl in Hw; subst w';
      exists wv; simpl; auto.
  - rewrite Ho. simpl. rewrite lookup_insert_eq. eexists. split; [reflexivity|].
    simpl. repeat split. unfold nframes at 1, framesize at 1. simpl.
    rewrite Hl, Hwhole. apply Z.div_mul. nia.
Qed.

(** The file that the numpy branch writes: mono, 16 bits, two bytes for
    each sample. *)
Lemma numpy_write_ok (path : string) (fr bound : Z) (g : f32 E -> Z)
    (audio : list (f32 E)) (w : world) :
  (0 < fr)%Z -> (2 * Z.of_nat (length audio) <= bound)%Z ->
  header_fits 1 2 fr bound = true ->
  wave_write path 1 2 fr (concat (map (fun x => le_bytes 2 (g x)) audio)) w =
    (Ok tt, {| files := <[path := Wav {| nchannels := 1; sampwidth := 2; framerate := fr;
                                         data := concat (map (fun x => le_bytes 2 (g x)) audio) |}]>
                          (files w);
               log := log w |}).
Proof.
  intros Hr Hb Hfit.
  assert (Hl : Z.of_nat (length (concat (map (fun x => le_bytes 2 (g x)) audio))) =
               (Z.of_nat (length audio) * (1 * 2))%Z).
  { rewrite (length_concat_fixed _ 2%nat) by (intros; apply length_le_bytes). lia. }
  apply (wave_write_ok _ _ _ _ _ (Z.of_nat (length audio))); try lia.
  apply (header_fits_le _ _ _ _ bound); [lia|exact Hfit].
Qed.

(** The numpy branch raises only before it opens the file for writing,
    when the frame rate is positive and the header of the mono 16-bit file
    can be packed. *)
Lemma numpy_raise_keeps_world (path : string) (wv : wav) (frames : list Byte.byte)
    (w : world) (e : exn) :
  (0 < framerate wv)%Z ->
  header_fits 1 2 (framerate wv) (2 * Z.of_nat (length frames)) = true ->
  fst (normalize_with_numpy E path wv frames w) = Raise e ->
  snd (normalize_with_numpy E path wv frames w) = w.
Proof.
  intros Hr Hfit. unfold normalize_with_numpy, mbind, lift, ret.
  destruct (has_numpy E); [|reflexivity].
  destruct (sampwidth wv =? 2)%Z.
  - unfold np_frombuffer_int16. destruct (Nat.even (length frames)); [|reflexivity].
    cbn [bind].
    destruct (np_downmix E (nchannels wv) _) as [audio|] eqn:D; [|reflexivity].
    apply np_downmix_length_le in D. rewrite !length_map in D.
    pose proof (chunks_length_le (length frames) 2 frames) as C.
    destruct (np_is_zero E _); [reflexivity|].
    rewrite (numpy_write_ok _ _ (2 * Z.of_nat (length frames))); [discriminate|exact Hr|lia|exact Hfit].
  - destruct (sampwidth wv =? 1)%Z; [|reflexivity].
    destruct (np_downmix E (nchannels wv) _) as [audio|] eqn:D; [|reflexivity].
    apply np_downmix_length_le in D. rewrite length_map in D.
    destruct (np_is_zero E _); [reflexivity|].
    rewrite (numpy_write_ok _ _ (2 * Z.of_nat (length frames))); [discriminate|exact Hr|lia|exact Hfit].
Qed.

(** X18.  When normalization prints its warning, every file is as it was
    before, unless the file is a WAV file that cannot be written back: one
    whose header gives a frame rate of 0, or whose header, or that of the
    mono 16-bit file made from it, has a field too large for its width. *)
Theorem normalize_warning_keeps_files (path : string) (w : world) :
  (forall wv, files w !! path = Some (Wav wv) -> rewritable wv = true) ->
  log (snd (_normalize_audio E path w)) <> log w ->
  files (snd (_normalize_audio E path w)) = files w.
Proof.
  intros Hrw.
  assert (Hor : files (snd (_normalize_audio E path w)) = files w \/
                log (snd (_normalize_audio E path w)) = log w); [|tauto].
  unfold _normalize_audio, catch, wave_open_read, read_file, mbind. cbv beta.
  destruct (files w !! path) as [[wv|c]|] eqn:Hf; try (left; reflexivity).
  specialize (Hrw wv eq_refl). unfold rewritable in Hrw.
  apply andb_true_iff in Hrw as [Hrw Hmono]. apply andb_true_iff in Hrw as [Hrate Hfit].
  apply Z.ltb_lt in Hrate.
  destruct ((nchannels wv <? 1)%Z || (sampwidth wv <? 1)%Z) eqn:Hd; [left; reflexivity|].
  apply orb_false_iff in Hd as [Hc Hs]. apply Z.ltb_ge in Hc, Hs.
  unfold ret. cbv beta iota zeta.
  pose proof (readframes_whole wv Hc Hs) as Hwhole.
  pose proof (readframes_fits wv Hfit) as Hfit'.
  assert (Hmono' : header_fits 1 2 (framerate wv)
                     (2 * Z.of_nat (length (readframes wv))) = true).
  { apply (header_fits_le _ _ _ _ (2 * Z.of_nat (length (data wv)))); [|exact Hmono].
    pose proof (length_readframes_le wv). lia. }
  destruct (readframes wv) as [|b bs] eqn:Hrf; [left; reflexivity|].
  destruct (has_audioop E).
  - destruct (audioop_outcome path wv (b :: bs) w (nframes wv) Hc Hrate Hwhole Hfit')
      as [Hw|(out & _ & Ho)].
    + destruct (normalize_with_audioop E path wv (b :: bs) w) as [[[]|e] w'];
        simpl in Hw; subst w'; left; reflexivity.
    + rewrite Ho. right. reflexivity.
  - pose proof (numpy_raise_keeps_world path wv (b :: bs) w) as Hk.
    pose proof (quiet_normalize_with_numpy E path wv (b :: bs) w) as Hq.
    destruct (normalize_with_numpy E path wv (b :: bs) w) as [[[]|e] w']; simpl in *.
    + right. congruence.
    + rewrite (Hk e Hrate Hmono' eq_refl). left. reflexivity.
Qed.

(** X19.  On the numpy path a 16-bit file whose signal, after the down-mix
    of a stereo file, is not silent is lost when its header gives a frame
    rate that cannot be written back.  With a rate of 0 the file is left
    empty: it is truncated when opened for writing and the rate is then
    refused.  With a rate of 2^31 or more the file is left with the eight
    bytes RIFFRIFF: the header cannot be packed, neither when the frames
    are written nor when the file is closed.  Either way only the warning
    is printed. *)
Theorem bad_rate_file_is_lost (path : string) (w : world) (wv : wav) (xs : list Z)
    (audio : list (f32 E)) :
  has_audioop E = false -> has_numpy E = true ->
  files w !! path = Some (Wav wv) ->
  sampwidth wv = 2%Z -> (1 <= nchannels wv)%Z ->
  (framerate wv = 0 \/ 2 ^ 31 <= framerate wv)%Z -> (0 < nframes wv)%Z ->
  np_frombuffer_int16 (readframes wv) = Ok xs ->
  np_downmix E (nchannels wv) (map (np_of_int16 E) xs) = Ok audio ->
  np_is_zero E (np_rms E audio) = false ->
  _normalize_audio E path w =
    (Ok tt,
     {| files := <[path := Blob (if (framerate wv =? 0)%Z then EmptyString else "RIFFRIFF")]>
                   (files w);
        log := log w ++ [NormalizationWarning
                           (if (framerate wv =? 0)%Z then WaveError else StructError)] |}).
Proof.
  intros Ha Hn Hf Hs Hc Hr Hfr Hx Hd Hz.
  assert (Hfs : framesize wv = (nchannels wv * 2)%Z) by (unfold framesize; rewrite Hs; reflexivity).
  assert (Hlen : Z.of_nat (length (readframes wv)) = (nframes wv * framesize wv)%Z).
  { apply length_readframes. lia. }
  unfold _normalize_audio, catch, mbind at 1, wave_open_read, mbind at 1, read_file.
  rewrite Hf.
  replace ((nchannels wv <? 1)%Z || (sampwidth wv <? 1)%Z) with false
    by (symmetry; apply orb_false_iff; split; apply Z.ltb_ge; lia).
  unfold ret at 1.
  destruct (readframes wv) as [|b bs] eqn:Hrf; [simpl in Hlen; nia|].
  rewrite Ha. unfold normalize_with_numpy. rewrite Hn, Hs, Hx.
  unfold mbind, lift, ret. cbn [bind Z.eqb Pos.eqb]. rewrite Hd. cbn [bind]. rewrite Hz.
  unfold wave_write. destruct Hr as [Hr|Hr].
  - rewrite Hr. reflexivity.
  - replace (framerate wv =? 0)%Z with false by (symmetry; apply Z.eqb_neq; lia).
    replace (framerate wv <=? 0)%Z with false by (symmetry; apply Z.leb_gt; lia).
    cbn [Z.ltb Z.compare orb Pos.compare Pos.compare_cont]. cbv zeta.
    unfold header_fits.
    replace (1 * framerate wv * 2 <? 2 ^ 32)%Z with false by (symmetry; apply Z.ltb_ge; lia).
    rewrite !andb_false_r. reflexivity.
Qed.

Lemma pairs_even {A : Type} (e : exn) (k : nat) (l : list A) :
  length l = (2 * k)%nat -> exists ps, pairs e l = Ok ps /\ length ps = k.
Proof.
  revert l. induction k as [|k IH]; intros l Hl.
  - destruct l; [|discriminate]. exists []. auto.
  - destruct l as [|a [|b rest]]; try (simpl in Hl; lia).
    destruct (IH rest) as (ps & Hp & Hk); [simpl in Hl; lia|].
    exists ((a, b) :: ps). simpl. rewrite Hp, Hk. auto.
Qed.

(** X20.  Without [audioop] and with numpy, a stereo 16-bit file whose
    frame rate is positive and below 2^31 either stays as it is or becomes
    a mono file with as many frames: the two channels are averaged and never
    written back as two. *)
Theorem numpy_stereo_becomes_mono (path : string) (w : world) (wv : wav) :
  has_audioop E = false -> has_numpy E = true ->
  files w !! path = Some (Wav wv) ->
  sampwidth wv = 2%Z -> nchannels wv = 2%Z ->
  (0 < framerate wv < 2 ^ 31)%Z -> riff_sized wv = true ->
  exists w',
    _normalize_audio E path w = (Ok tt, w') /\ log w' = log w /\
    (files w' = files w \/
     exists wv',
       files w' = <[path := Wav wv']> (files w) /\
       nchannels wv' = 1%Z /\ sampwidth wv' = 2%Z /\ framerate wv' = framerate wv /\
       nframes wv' = nframes wv).
Proof.
  intros Ha Hn Hf Hs Hc Hr Hsz.
  assert (Hfs : framesize wv = 4%Z) by (unfold framesize; rewrite Hs, Hc; reflexivity).
  assert (Hlen : Z.of_nat (length (readframes wv)) = (nframes wv * 4)%Z).
  { rewrite length_readframes by lia. rewrite Hfs. reflexivity. }
  pose proof (length_readframes_le wv) as Hle.
  unfold riff_sized in Hsz. apply Z.ltb_lt in Hsz.
  unfold _normalize_audio, catch, mbind at 1, wave_open_read, mbind at 1, read_file.
  rewrite Hf, Hs, Hc. change ((2 <? 1)%Z || (2 <? 1)%Z) with false.
  unfold ret at 1. cbv beta iota zeta.
  destruct (readframes wv) as [|b bs] eqn:Hrf.
  { exists w. simpl. auto. }
  rewrite Ha. unfold normalize_with_numpy, np_downmix. rewrite Hn, Hs, Hc.
  set (k := Z.to_nat (nframes wv)).
  assert (Hl4 : length (b :: bs) = (2 * (2 * k))%nat) by lia.
  assert (Hev : Nat.even (length (b :: bs)) = true).
  { rewrite Hl4, Nat.even_mul. reflexivity. }
  unfold np_frombuffer_int16. rewrite Hev. cbn [Z.eqb Pos.eqb].
  assert (Hxs : length (map le_signed (chunks (length (b :: bs)) 2 (b :: bs))) = (2 * k)%nat).
  { rewrite length_map. apply chunks_length; lia. }
  set (xs := map le_signed (chunks (length (b :: bs)) 2 (b :: bs))) in *.
  destruct (pairs_even ValueError k (map (np_of_int16 E) xs)) as (ps & Hp & Hk).
  { rewrite length_map. exact Hxs. }
  unfold mbind, lift, ret. cbn [bind]. rewrite Hp. cbn [bind].
  destruct (np_is_zero E _).
  { exists w. auto. }
  rewrite (numpy_write_ok _ _ (Z.of_nat (length (b :: bs)))).
  2:{ lia. }
  2:{ rewrite length_map, Hk. lia. }
  2:{ apply mono16_header_fits; lia. }
  eexists. split; [reflexivity|]. split; [reflexivity|]. right.
  eexists. split; [reflexivity|]. cbn [nchannels sampwidth framerate].
  repeat split. unfold nframes at 1, framesize. cbn [nchannels sampwidth data].
  rewrite (length_concat_fixed _ 2%nat) by (intros; apply length_le_bytes).
  rewrite length_map, Hk.
  assert (0 <= nframes wv)%Z by lia.
  replace (Z.of_nat (2 * k)) with (nframes wv * (1 * 2))%Z by lia.
  apply Z.div_mul. lia.
Qed.

(** X21.  A header with a frame rate of 0 is never used for the duration: the
    division fails and the probe decides. *)
Theorem zero_rate_duration_from_probe (path : string) (w : world) (wv : wav) :
  files w !! path = Some (Wav wv) -> framerate wv = 0%Z ->
  get_audio_duration E path w =
    (Ok match ffprobe_duration E (Some (Wav wv)) with
        | Ok stdout =>
            match py_float E (strip stdout) with
            | Ok d => d
            | Raise _ => S754_zero false
            end
        | Raise _ => S754_zero false
        end, w).
Proof.
  intros Hf Hr.
  assert (Hh : exists e, duration_from_header path w = (Raise e, w)).
  { unfold duration_from_header, wave_open_read, mbind, read_file, lift, ret, throw.
    rewrite Hf. destruct ((nchannels wv <? 1)%Z || (sampwidth wv <? 1)%Z); [eauto|].
    rewrite Hr. change (PyFloat.float_of_int 0) with (Ok (S754_zero false)). cbn [bind].
    unfold PyFloat.int_div. destruct (PyFloat.float_of_int (nframes wv)); cbn [bind]; eauto. }
  destruct Hh as [e Hh].
  unfold get_audio_duration, catch. rewrite Hh.
  unfold duration_from_probe, mbind, read_file, lift, ret. rewrite Hf.
  destruct (ffprobe_duration E (Some (Wav wv))) as [out|e']; [|reflexivity].
  destruct (py_float E (strip out)); reflexivity.
Qed.

End Facts.

Import Samples.

Lemma audioop_keeps_format_witness :
  exists wv',
    files (snd (_normalize_audio (toy_env_with true false) "out.wav"
                  (world_with (Wav three_channel_wav)))) !! "out.wav" = Some (Wav wv') /\
    nchannels wv' = nchannels three_channel_wav /\
    sampwidth wv' = sampwidth three_channel_wav /\
    framerate wv' = framerate three_channel_wav /\
    nframes wv' = nframes three_channel_wav.
Proof.
  apply (audioop_keeps_format (toy_env_with true false) "out.wav"
           (world_with (Wav three_channel_wav)) three_channel_wav); reflexivity.
Defined.

Lemma normalize_warning_keeps_files_witness :
  files (snd (_normalize_audio (toy_env_with false false) "out.wav"
                (world_with (Wav three_channel_wav)))) =
  files (world_with (Wav three_channel_wav)).
Proof.
  apply (normalize_warning_keeps_files (toy_env_with false false) "out.wav"
           (world_with (Wav three_channel_wav))).
  - intros wv H. vm_compute in H. injection H as <-. reflexivity.
  - vm_compute. intros X. discriminate X.
Defined.

Lemma bad_rate_file_is_lost_witness :
  _normalize_audio toy_env "out.wav" (world_with (Wav zero_rate_wav)) =
    (Ok tt, {| files := <["out.wav" := Blob EmptyString]> (files (world_with (Wav zero_rate_wav)));
               log := log (world_with (Wav zero_rate_wav)) ++ [NormalizationWarning WaveError] |}).
Proof.
  apply (bad_rate_file_is_lost toy_env "out.wav" (world_with (Wav zero_rate_wav))
           zero_rate_wav [1000%Z] [1000%Z]);
    first [reflexivity | (left; reflexivity) | (intros X; discriminate X)].
Defined.

(** The same with a frame rate of 2^31. *)
Example high_rate_file_is_lost :
  _normalize_audio toy_env "out.wav" (world_with (Wav high_rate_wav)) =
    (Ok tt, {| files := <["out.wav" := Blob "RIFFRIFF"]> (files (world_with (Wav high_rate_wav)));
               log := [NormalizationWarning StructError] |}).
Proof. vm_compute. reflexivity. Qed.

(** A stereo file whose channels cancel is silent after the down-mix and is
    left as it is, whatever its frame rate. *)
Example cancelling_stereo_is_kept :
  _normalize_audio toy_env "out.wav"
    (world_with (Wav {| nchannels := 2; sampwidth := 2; framerate := 0;
                        data := [Byte.xe8; Byte.x03; Byte.x18; Byte.xfc] |})) =
  (Ok tt, world_with (Wav {| nchannels := 2; sampwidth := 2; framerate := 0;
                             data := [Byte.xe8; Byte.x03; Byte.x18; Byte.xfc] |})).
Proof. vm_compute. reflexivity. Qed.

Lemma numpy_stereo_becomes_mono_witness :
  exists w',
    _normalize_audio toy_env "out.wav" (world_with (Wav stereo_wav)) = (Ok tt, w') /\
    log w' = log (world_with (Wav stereo_wav)) /\
    (files w' = files (world_with (Wav stereo_wav)) \/
     exists wv',
       files w' = <["out.wav" := Wav wv']> (files (world_with (Wav stereo_wav))) /\
       nchannels wv' = 1%Z /\ sampwidth wv' = 2%Z /\ framerate wv' = framerate stereo_wav /\
       nframes wv' = nframes stereo_wav).
Proof.
  apply (numpy_stereo_becomes_mono toy_env "out.wav" (world_with (Wav stereo_wav)) stereo_wav);
    first [reflexivity | (split; reflexivity)].
Defined.

Lemma zero_rate_duration_from_probe_witness :
  get_audio_duration toy_env "out.wav" (world_with (Wav zero_rate_wav)) =
    (Ok match ffprobe_duration toy_env (Some (Wav zero_rate_wav)) with
        | Ok stdout =>
            match py_float toy_env (strip stdout) with
            | Ok d => d
            | Raise _ => S754_zero false
            end
        | Raise _ => S754_zero false
        end, world_with (Wav zero_rate_wav)).
Proof.
  apply (zero_rate_duration_from_probe toy_env "out.wav" (world_with (Wav zero_rate_wav))
           zero_rate_wav); reflexivity.
Defined.

End NormalizeFacts.

Module SynthesisFacts.
Import Text TextFacts AudioSynth AudioSynthFacts.

Lemma keeps_ret {A : Type} (a : A) : keeps (ret a).
Proof. intros w p H. exact H. Qed.

Lemma keeps_throw {A : Type} (e : exn) : keeps (@throw A e).
Proof. intros w p H. exact H. Qed.

Lemma keeps_lift {A : Type} (r : result A) : keeps (lift r).
Proof. intros w p H. exact H. Qed.

Lemma keeps_emit (ev : event) : keeps (emit ev).
Proof. intros w p H. exact H. Qed.

Lemma keeps_read_file (path : string) : keeps (read_file path).
Proof. intros w p H. exact H. Qed.

Lemma keeps_write_file (path : string) (f : file) : keeps (write_file path f).
Proof.
  intros w p H. simpl. destruct (decide (path = p)) as [->|Hn].
  - rewrite lookup_insert_eq. eauto.
  - rewrite lookup_insert_ne by exact Hn. exact H.
Qed.

Lemma keeps_mbind {A B : Type} (m : M A) (k : A -> M B) :
  keeps m -> (forall a, keeps (k a)) -> keeps (mbind m k).
Proof.
  intros Hm Hk w p H. unfold mbind. specialize (Hm w p H).
  destruct (m w) as [[a|e] w']; simpl in *; [|exact Hm].
  apply Hk. exact Hm.
Qed.

Lemma keeps_catch {A : Type} (m : M A) (h : exn -> M A) :
  keeps m -> (forall e, keeps (h e)) -> keeps (catch m h).
Proof.
  intros Hm Hh w p H. unfold catch. specialize (Hm w p H).
  destruct (m w) as [[a|e] w']; simpl in *; [exact Hm|].
  apply Hh. exact Hm.
Qed.

Ltac keeps_step :=
  first
    [ apply keeps_ret | apply keeps_throw | apply keeps_lift | apply keeps_read_file
    | apply keeps_write_file | apply keeps_emit
    | apply keeps_mbind; [|intros ?]
    | apply keeps_catch; [|intros ?]
    | progress cbv zeta
    | match goal with
      | |- keeps (match ?x with _ => _ end) => destruct x
      | |- keeps (if ?x then _ else _) => destruct x
      end ].

Lemma keeps_wave_write (path : string) (nch sw fr : Z) (frames : list Byte.byte) :
  keeps (wave_write path nch sw fr frames).
Proof. unfold wave_write. repeat keeps_step. Qed.

Section Facts.
Variable E : env.

(** Normalization never removes a file. *)
Lemma keeps_normalize_audio (path : string) : keeps (_normalize_audio E path).
Proof.
  unfold _normalize_audio, normalize_with_audioop, normalize_with_numpy, wave_open_read.
  repeat (apply keeps_wave_write || keeps_step).
Qed.

Lemma primary_result (text out_path : string) (voice : option string) (rate : option Z)
    (w w' : world) (p : string) :
  _synthesize_pyttsx3 E text out_path voice rate w = (Ok p, w') ->
  p = out_path /\ is_Some (files w' !! out_path).
Proof.
  unfold _synthesize_pyttsx3, mbind, emit, lift, read_file, ret, throw.
  destruct (pyttsx3_run E text voice rate) as [saved|e]; [|discriminate 1].
  set (w1 := {| files := files w; log := log w ++ [Started Primary] |}).
  destruct (match saved with Some f => write_file out_path f | None => fun w => (Ok tt, w) end w1)
    as [[[]|e] w2] eqn:Hs; [|discriminate 1].
  destruct (files w2 !! out_path) as [f|] eqn:Hp; [|discriminate 1].
  pose proof (keeps_normalize_audio out_path w2 out_path) as Hk.
  rewrite Hp in Hk. specialize (Hk (ltac:(eauto))).
  pose proof (normalize_audio_returns E out_path w2) as Hr.
  destruct (_normalize_audio E out_path w2) as [[[]|e] w3]; [|discriminate Hr].
  intros H. injection H as <- <-. split; [reflexivity|exact Hk].
Qed.

Lemma secondary_result (text out_path : string) (w w' : world) (p : string) :
  _synthesize_gtts E text out_path w = (Ok p, w') ->
  p = out_path /\ is_Some (files w' !! out_path).
Proof.
  unfold _synthesize_gtts, _convert_mp3_to_wav, catch, mbind, emit, lift, read_file,
    write_file, unlink, ret, throw.
  destruct (has_gtts E); [|discriminate 1].
  destruct (gtts_save E text) as [mp3|e]; [|destruct e; discriminate 1].
  cbn [files log].
  destruct (endswith out_path ".wav") eqn:Hw; cbn [andb].
  - destruct (negb (String.eqb (replace ".wav" ".mp3" out_path) out_path)) eqn:Hn.
    + cbn [files log]. rewrite lookup_insert_eq.
      destruct (ffmpeg_to_wav E (Some mp3)) as [f|]; [|discriminate 1].
      cbn [files log]. intros H. injection H as <- <-. split; [reflexivity|]. cbn [files].
      apply negb_true_iff, String.eqb_neq in Hn.
      rewrite lookup_delete_ne by exact Hn. rewrite lookup_insert_eq. eauto.
    + apply negb_false_iff, String.eqb_eq in Hn. rewrite Hn.
      intros H. injection H as <- <-. split; [reflexivity|]. cbn [files].
      rewrite lookup_insert_eq. eauto.
  - intros H. injection H as <- <-. split; [reflexivity|]. cbn [files].
    rewrite lookup_insert_eq. eauto.
Qed.

(** X22.  When [synthesize] returns, it returns the path it was given, and a file
    is there. *)
Theorem synthesize_result (text out_path : string) (voice : option string)
    (rate : option Z) (w w' : world) (p : string) :
  synthesize E text out_path voice rate w = (Ok p, w') ->
  p = out_path /\ is_Some (files w' !! out_path).
Proof.
  unfold synthesize.
  destruct (is_empty text || is_empty (strip text)); [discriminate 1|].
  unfold mbind at 1, lift at 1.
  destruct (makedirs E out_path) as [[]|e]; [|discriminate 1].
  unfold catch at 1.
  destruct (_synthesize_pyttsx3 E text out_path voice rate w) as [[p1|e1] w1] eqn:H1.
  - intros H. injection H as <- <-. exact (primary_result _ _ _ _ _ _ _ H1).
  - unfold mbind, emit, catch.
    destruct (_synthesize_gtts E text out_path _) as [[p2|e2] w2] eqn:H2.
    + intros H. injection H as <- <-. exact (secondary_result _ _ _ _ _ H2).
    + discriminate 1.
Qed.

End Facts.

Import Samples.

Lemma synthesize_result_witness :
  "out.wav" = "out.wav" /\
  is_Some (files (snd (synthesize toy_env "Hello" "out.wav" None None silent_world))
             !! "out.wav").
Proof.
  apply (synthesize_result toy_env "Hello" "out.wav" None None silent_world
           (snd (synthesize toy_env "Hello" "out.wav" None None silent_world)) "out.wav").
  apply injective_projections; reflexivity.
Defined.

End SynthesisFacts.

(** ** More on the assembler *)
Module AssembleFacts.
Import Text TextFacts Assembler AssemblerFacts.

Lemma leb_trans (a b c : string) :
  String.leb a b = true -> String.leb b c = true -> String.leb a c = true.
Proof.
  intros H1 H2. apply Is_true_true. apply Is_true_true in H1, H2.
  exact (@transitivity _ String.le _ a b c H1 H2).
Qed.

Lemma insert_sorted_perm (x : string) (l : list string) :
  Permutation (insert_sorted x l) (x :: l).
Proof.
  induction l as [|y l IH]; simpl; [reflexivity|].
  destruct (String.leb x y); [reflexivity|].
  rewrite IH. apply perm_swap.
Qed.

Lemma insert_sorted_sorted (x : string) (l : list string) :
  StronglySorted (fun a b => String.leb a b = true) l ->
  StronglySorted (fun a b => String.leb a b = true) (insert_sorted x l).
Proof.
  induction 1 as [|y l Hs IH Hall]; simpl.
  - constructor; constructor.
  - destruct (String.leb x y) eqn:Hxy.
    + constructor; [constructor; assumption|].
      constructor; [exact Hxy|].
      eapply Forall_impl; [exact Hall|]. intros z Hz. exact (leb_trans _ _ _ Hxy Hz).
    + constructor; [exact IH|].
      assert (Hyx : String.leb y x = true).
      { destruct (String.leb_total x y) as [H|H]; congruence. }
      apply List.Forall_forall. intros z Hz.
      apply (Permutation_in _ (insert_sorted_perm x l)) in Hz.
      destruct Hz as [<-|Hz]; [exact Hyx|].
      rewrite List.Forall_forall in Hall. apply Hall, Hz.
Qed.

(** [sorted] returns its argument in ascending order. *)
Lemma sorted_spec (l : list string) :
  Permutation (sorted l) l /\ StronglySorted (fun a b => String.leb a b = true) (sorted l).
Proof.
  induction l as [|x l [IHp IHs]]; simpl.
  - split; constructor.
  - split.
    + rewrite insert_sorted_perm. constructor. exact IHp.
    + apply insert_sorted_sorted, IHs.
Qed.

Lemma frames_here_nil (root : string) (l : list entry) :
  frames_here root l = [] <->
  Forall (fun e => match e with FileEntry f => is_frame f = false | DirEntry _ _ => True end) l.
Proof.
  unfold frames_here. induction l as [|e l IH]; simpl.
  - split; constructor.
  - split.
    + intros H. apply app_eq_nil in H as [H1 H2]. constructor; [|apply IH, H2].
      destruct e as [f|d c]; [|exact I]. destruct (is_frame f); [discriminate|reflexivity].
    + intros H. inversion H as [|? ? He Hl]; subst. rewrite (proj2 IH Hl), app_nil_r.
      destruct e as [f|d c]; [|reflexivity]. rewrite He. reflexivity.
Qed.

Lemma flat_map_nil {A B : Type} (f : A -> list B) (l : list A) :
  flat_map f l = [] <-> Forall (fun a => f a = []) l.
Proof.
  induction l as [|a l IH]; simpl.
  - split; constructor.
  - split.
    + intros H. apply app_eq_nil in H as [H1 H2]. constructor; [exact H1|apply IH, H2].
    + intros H. inversion H as [|? ? Ha Hl]; subst. rewrite Ha. apply IH, Hl.
Qed.

Lemma existsb_false {A : Type} (f : A -> bool) (l : list A) :
  existsb f l = false <-> Forall (fun a => f a = false) l.
Proof.
  induction l as [|a l IH]; simpl.
  - split; constructor.
  - rewrite orb_false_iff, IH. split.
    + intros [H1 H2]. constructor; assumption.
    + intros H. inversion H; subst. auto.
Qed.

Lemma entry_nested_ind (P : entry -> Prop) :
  (forall f, P (FileEntry f)) ->
  (forall d children, Forall P children -> P (DirEntry d children)) ->
  forall e, P e.
Proof.
  intros Hf Hd. fix IH 1. intros [f|d children].
  - apply Hf.
  - apply Hd. induction children as [|c cs IHc]; constructor; [apply IH|exact IHc].
Qed.

Lemma scan_nil (root : string) (l : list entry) :
  frames_here root l ++ flat_map (frames_below root) l = [] <->
  Forall (fun e => here root e = [] /\ frames_below root e = []) l.
Proof.
  change (frames_here root l) with (flat_map (here root) l).
  rewrite Forall_and, <- !flat_map_nil. split.
  - intros H. apply app_eq_nil in H. exact H.
  - intros [H1 H2]. rewrite H1, H2. reflexivity.
Qed.

Lemma entry_nil (e : entry) :
  forall root, here root e = [] /\ frames_below root e = [] <-> contains_frame e = false.
Proof.
  induction e as [f|d children IH] using entry_nested_ind; intros root.
  - simpl. destruct (is_frame f); split; try tauto; try discriminate.
    intros [H _]. discriminate H.
  - cbn [here frames_below contains_frame]. rewrite scan_nil, existsb_false.
    split.
    + intros [_ H]. rewrite Forall_forall in *. intros e He. apply (IH e He (join root d)), H, He.
    + intros H. split; [reflexivity|]. rewrite Forall_forall in *.
      intros e He. apply (IH e He (join root d)), H, He.
Qed.

(** X23.  The scan of [assemble] finds nothing exactly when no file at any depth
    below the directory has an image extension. *)
Theorem collect_frames_nil (frames_dir : string) (l : list entry) :
  collect_frames frames_dir (Some l) = [] <-> existsb contains_frame l = false.
Proof.
  unfold collect_frames. rewrite scan_nil, existsb_false, !Forall_forall.
  split; intros H e He; apply (entry_nil e frames_dir), H, He.
Qed.

Section Facts.
Context {image video : Type}.
Variable ffmpeg_present : bool.
Variable open_image : string -> result image.
Variable ffmpeg_encode : list image -> string -> Z -> result video.

Lemma open_all_spec (frames : list string) (imgs : list image) :
  open_all open_image frames = Ok imgs ->
  Forall2 (fun src img => open_image src = Ok img) frames imgs.
Proof.
  revert imgs. induction frames as [|src rest IH]; simpl; intros imgs.
  - intros [= <-]. constructor.
  - destruct (open_image src) as [img|] eqn:Ho; [|discriminate]. simpl.
    destruct (open_all open_image rest) as [imgs0|]; [|discriminate]. simpl.
    intros [= <-]. constructor; [exact Ho|apply IH; reflexivity].
Qed.

(** X24.  When [assemble] returns, it has probed ffmpeg and then run the encoder
    once, on every image file of the tree, each opened once, in ascending
    order of their paths; the video is what the encoder made of them. *)
Theorem assemble_success (frames_dir : string) (listing : option (list entry))
    (audio_file : string) (fps : Z) (w w' : world video) :
  assemble ffmpeg_present open_image ffmpeg_encode frames_dir listing audio_file fps w
    = (Ok tt, w') ->
  exists frames imgs v,
    Permutation frames (collect_frames frames_dir listing) /\
    StronglySorted (fun a b => String.leb a b = true) frames /\
    Forall2 (fun src img => open_image src = Ok img) frames imgs /\
    ffmpeg_encode imgs audio_file fps = Ok v /\
    ffmpeg_present = true /\
    w' = {| output := Some v; calls := calls w ++ [VersionProbe; Encode frames] |}.
Proof.
  unfold assemble, _check_ffmpeg.
  destruct (sorted_spec (collect_frames frames_dir listing)) as [Hp Hs].
  destruct (sorted (collect_frames frames_dir listing)) as [|f fs] eqn:Hf; [discriminate 1|].
  destruct ffmpeg_present; [|discriminate 1]. cbn [negb].
  destruct (open_all open_image (f :: fs)) as [imgs|e] eqn:Ho; [|discriminate 1].
  destruct (ffmpeg_encode imgs audio_file fps) as [v|e] eqn:He; [|discriminate 1].
  intros [= <-]. exists (f :: fs), imgs, v. cbn [calls output].
  rewrite <- app_assoc. repeat split; auto using open_all_spec.
Qed.

(** X25.  A frame that cannot be opened stops [assemble] before the encoder is
    started. *)
Theorem assemble_bad_frame (frames_dir : string) (listing : option (list entry))
    (audio_file : string) (fps : Z) (w : world video) (e : exn) :
  collect_frames frames_dir listing <> [] -> ffmpeg_present = true ->
  open_all open_image (sorted (collect_frames frames_dir listing)) = Raise e ->
  assemble ffmpeg_present open_image ffmpeg_encode frames_dir listing audio_file fps w =
    (Raise e, {| output := output w; calls := calls w ++ [VersionProbe] |}).
Proof.
  intros Hn Hp Ho. unfold assemble, _check_ffmpeg.
  destruct (sorted (collect_frames frames_dir listing)) as [|f fs] eqn:Hf.
  - apply (proj1 (sorted_nil _)) in Hf. contradiction.
  - rewrite Hp, Ho. reflexivity.
Qed.

End Facts.

Import Samples.

Lemma assemble_success_witness :
  exists frames imgs v,
    Permutation frames (collect_frames "frames" (Some frame_tree)) /\
    StronglySorted (fun a b => String.leb a b = true) frames /\
    Forall2 (fun src img => toy_open src = Ok img) frames imgs /\
    toy_encode imgs "audio.wav" 24 = Ok v /\
    true = true /\
    snd (assemble true toy_open toy_encode "frames" (Some frame_tree) "audio.wav" 24 idle) =
      {| output := Some v; calls := calls idle ++ [VersionProbe; Encode frames] |}.
Proof.
  apply (assemble_success true toy_open toy_encode "frames" (Some frame_tree) "audio.wav" 24
           idle).
  apply injective_projections; reflexivity.
Defined.

Lemma assemble_bad_frame_witness :
  assemble true picky_open toy_encode "frames" (Some frame_tree) "audio.wav" 24 idle =
    (Raise (External "cannot identify image file"),
     {| output := output idle; calls := calls idle ++ [VersionProbe] |}).
Proof.
  apply (assemble_bad_frame true picky_open toy_encode "frames" (Some frame_tree)
           "audio.wav" 24 idle).
  - intros X. vm_compute in X. discriminate X.
  - reflexivity.
  - reflexivity.
Defined.

End AssembleFacts.

(** ** The stages together *)
Module PipelineFacts.
Import Text TextFacts Assembler AssemblerFacts AssembleFacts Cli.

Lemma substring_append (a b : string) : substring (String.length a) (String.length b) (a +:+ b) = b.
Proof.
  induction a as [|c a IH].
  - change (EmptyString +:+ b) with b. simpl String.length.
    induction b as [|c b IHb]; [reflexivity|]. simpl. f_equal. exact IHb.
  - exact IH.
Qed.

Lemma endswith_append (a b : string) : endswith (a +:+ b) b = true.
Proof.
  unfold endswith. rewrite length_append.
  replace (String.length a + String.length b - String.length b)%nat with (String.length a) by lia.
  rewrite substring_append, String.eqb_refl, andb_true_r. apply Nat.leb_le. lia.
Qed.

Lemma lower_append (a b : string) : lower (a +:+ b) = lower a +:+ lower b.
Proof.
  induction a as [|c a IH]; [reflexivity|].
  change (String (lower_char c) (lower (a +:+ b)) = String (lower_char c) (lower a +:+ lower b)).
  f_equal. exact IH.
Qed.

(** Every name that ends in .png is the name of a frame. *)
Lemma is_frame_png (x : string) : is_frame (x +:+ ".png") = true.
Proof.
  unfold is_frame. cbv zeta. rewrite lower_append.
  change (lower ".png") with ".png". rewrite endswith_append. reflexivity.
Qed.

Lemma frames_here_files (root : string) (names : list string) (p : string) :
  In p (frames_here root (map FileEntry names)) <->
  exists name, In name names /\ is_frame name = true /\ p = join root name.
Proof.
  unfold frames_here. rewrite in_flat_map. split.
  - intros (e & He & Hp). apply in_map_iff in He as (name & <- & Hn).
    exists name. destruct (is_frame name); [|destruct Hp].
    destruct Hp as [<-|[]]. auto.
  - intros (name & Hn & Hf & ->). exists (FileEntry name). split.
    + apply in_map. exact Hn.
    + rewrite Hf. left. reflexivity.
Qed.

Lemma frames_below_files (root : string) (names : list string) :
  flat_map (frames_below root) (map FileEntry names) = [].
Proof. induction names as [|n names IH]; [reflexivity|exact IH]. Qed.

Lemma frames_here_dirs {A : Type} (root : string) (name : A -> string)
    (children : A -> list entry) (l : list A) :
  frames_here root (map (fun a => DirEntry (name a) (children a)) l) = [].
Proof. induction l as [|a l IH]; [reflexivity|exact IH]. Qed.

Section Render.
Context {image : Type}.
Variable md5_hexdigest : string -> string.
Variable render : string -> VisualGen.scene_info -> image.

Lemma in_walk (frames_dir : string) (fs : gmap (string * string) image)
    (p : string) :
  In p (collect_frames frames_dir (Some (tree_of fs))) <->
  exists d name,
    is_Some (fs !! (d, name)) /\ is_frame name = true /\ p = join (join frames_dir d) name.
Proof.
  unfold collect_frames, tree_of. rewrite frames_here_dirs. cbn [app].
  rewrite in_flat_map. split.
  - intros (e & He & Hp). apply in_map_iff in He as (d & <- & Hd).
    cbn [frames_below] in Hp. rewrite frames_below_files, app_nil_r in Hp.
    apply frames_here_files in Hp as (name & Hn & Hf & ->).
    exists d, name. split; [|auto].
    apply (VisualGenFacts.elem_of_listing d name fs), elem_of_elements, list_elem_of_In, Hn.
  - intros (d & name & Hs & Hf & ->).
    exists (DirEntry d (map FileEntry (elements (VisualGen.listing d fs)))). split.
    + apply (in_map (fun d => DirEntry d (map FileEntry (elements (VisualGen.listing d fs))))).
      apply list_elem_of_In, elem_of_elements. unfold dirs. apply elem_of_map.
      exists (d, name). split; [reflexivity|]. apply elem_of_dom. exact Hs.
    + cbn [frames_below]. rewrite frames_below_files, app_nil_r.
      apply frames_here_files. exists name. split; [|auto].
      apply list_elem_of_In, elem_of_elements, VisualGenFacts.elem_of_listing. exact Hs.
Qed.

(** X26.  [assemble], run on the directory that the renderer wrote, takes as
    frames all the files the renderer wrote whose names have an image
    extension, in whatever directory they are, and nothing else. *)
Theorem walk_finds_rendered_files (frames_dir : string) (fs : gmap (string * string) image)
    (p : string) :
  In p (collect_frames frames_dir (Some (tree_of fs))) <->
  exists d name,
    is_Some (fs !! (d, name)) /\ is_frame name = true /\ p = join (join frames_dir d) name.
Proof. apply in_walk. Qed.

(** X27.  After a scene was rendered the image in the cache is one of the
    frames that [assemble] takes from the directory, besides the frames of
    the scenes. *)
Theorem cache_image_is_a_frame (sc : VisualGen.scene_info) (fps_hint : Z)
    (fs fs' : gmap (string * string) image) (frames_dir : string) :
  VisualGen.render_scene md5_hexdigest render fps_hint fs sc = Ok fs' ->
  In (join (join frames_dir VisualGen.cache_dir)
        (VisualGen._get_cache_key md5_hexdigest
           (VisualGen.primary_prompt (VisualGen.prompts_of sc)) +:+ ".png"))
     (collect_frames frames_dir (Some (tree_of fs'))).
Proof.
  intros H. apply in_walk.
  exists VisualGen.cache_dir,
    (VisualGen._get_cache_key md5_hexdigest
       (VisualGen.primary_prompt (VisualGen.prompts_of sc)) +:+ ".png").
  split; [|split; [apply is_frame_png|reflexivity]].
  apply RenderInvariants.render_scene_ok in H as (n & _ & ->).
  rewrite VisualGenFacts.lookup_generate_scene_frames. case_decide; [eauto|].
  unfold VisualGen.base_frame.
  change (VisualGen.cache_dir,
          VisualGen._get_cache_key md5_hexdigest
            (VisualGen.primary_prompt (VisualGen.prompts_of sc)) +:+ ".png")
    with (VisualGen.cached_frame md5_hexdigest (VisualGen.prompts_of sc)).
  destruct (fs !! VisualGen.cached_frame md5_hexdigest (VisualGen.prompts_of sc)) eqn:C; simpl.
  - rewrite C. eauto.
  - rewrite lookup_insert_eq. eauto.
Qed.

Lemma num_frames_raises (sc : VisualGen.scene_info) (fps_hint : Z) (e : exn) :
  VisualGen.duration_hint sc <> PyNone ->
  VisualGen.num_frames sc fps_hint = Raise e -> e = OverflowError \/ e = ValueError.
Proof.
  intros Hd. unfold VisualGen.num_frames, VisualGen.duration_or_default.
  destruct (VisualGen.duration_hint sc) as [| |d]; [|congruence|]; cbn [bind];
    unfold PyFloat.mul_int, PyFloat.float_of_int;
    destruct (binary_normalize PyFloat.prec PyFloat.emax fps_hint 0 false); cbn [bind];
    try (intros [= <-]; auto);
    match goal with
    | |- context [PyFloat.int_of_float ?x] => destruct x as [?|?| |? ? ?]; cbn
    end;
    try discriminate; intros [= <-]; auto.
Qed.

(** X28.  The renderer run on the scenes of a parsed script: the list of
    scenes is not empty; it takes the prompts of every scene as the parser
    left them, using none of its defaults; no scene has a duration that is
    [None]; and the number of frames of a scene is computed unless the
    product of the duration and the frame rate is no finite number
    ([OverflowError], [ValueError]). *)
Theorem parsed_scenes_render (text : string) (out : list Parser.scene) (fps_hint : Z) :
  Parser.parse_script text = Ok out ->
  map VisualGen.of_scene out <> [] /\
  Forall (fun sc =>
            VisualGen.prompts_of (VisualGen.of_scene sc) = Parser.visual_prompts sc /\
            VisualGen.duration_or_default (VisualGen.of_scene sc) <> Raise TypeError /\
            forall e, VisualGen.num_frames (VisualGen.of_scene sc) fps_hint = Raise e ->
                      e = OverflowError \/ e = ValueError) out.
Proof.
  intros H.
  assert (F : Forall Parser.finalized out).
  { revert H. apply (ParserInvariants.parse_script_invariant (fun _ => True)); auto.
    intros sc n _. apply ParserFacts.finalize_finalized. }
  pose proof (ParserInvariants.parse_script_not_nil text out H) as Hne.
  split.
  - destruct out; [congruence|discriminate].
  - eapply Forall_impl; [exact F|]. intros sc (_ & Hv & _ & Hd).
    split; [|split].
    + unfold VisualGen.prompts_of, VisualGen.of_scene. simpl.
      destruct (Parser.visual_prompts sc); [congruence|reflexivity].
    + unfold VisualGen.duration_or_default, VisualGen.of_scene. simpl.
      destruct (Parser.duration_hint sc); [discriminate|congruence|discriminate].
    + intros e Hn. apply (num_frames_raises (VisualGen.of_scene sc) _ _ Hd Hn).
Qed.

End Render.

Import Samples.

Lemma cache_image_is_a_frame_witness :
  In (join (join "frames" VisualGen.cache_dir)
        (VisualGen._get_cache_key toy_digest
           (VisualGen.primary_prompt (VisualGen.prompts_of test_scene_48)) +:+ ".png"))
     (collect_frames "frames" (Some (tree_of frames_48))).
Proof.
  apply (cache_image_is_a_frame toy_digest toy_render test_scene_48 24 ∅ frames_48 "frames").
  exact VisualGenFacts.render_test_scene_48.
Defined.

Lemma parsed_scenes_render_witness :
  map VisualGen.of_scene two_speakers_scenes <> [] /\
  Forall (fun sc =>
            VisualGen.prompts_of (VisualGen.of_scene sc) = Parser.visual_prompts sc /\
            VisualGen.duration_or_default (VisualGen.of_scene sc) <> Raise TypeError /\
            forall e, VisualGen.num_frames (VisualGen.of_scene sc) 24 = Raise e ->
                      e = OverflowError \/ e = ValueError) two_speakers_scenes.
Proof.
  apply (parsed_scenes_render two_speakers_script). vm_compute. reflexivity.
Defined.

End PipelineFacts.

Module OrderFacts.
Import Text TextFacts Assembler AssemblerFacts AssembleFacts Cli.

Lemma leb_common_prefix (p : string) (a b : ascii) (x y : string) :
  (code a < code b)%N -> String.leb (p +:+ String a x) (p +:+ String b y) = true.
Proof.
  intros H. unfold String.leb.
  assert (E : String.compare (p +:+ String a x) (p +:+ String b y) = Lt).
  { induction p as [|c p IH].
    - change (String.compare (String a x) (String b y) = Lt). simpl.
      unfold Ascii.compare. unfold code in H.
      rewrite (proj2 (N.compare_lt_iff _ _) H). reflexivity.
    - change (String.compare (String c (p +:+ String a x)) (String c (p +:+ String b y)) = Lt).
      simpl. unfold Ascii.compare. rewrite N.compare_refl. exact IH. }
  rewrite E. reflexivity.
Qed.

Lemma is_empty_append (p : string) (a : ascii) (x : string) :
  is_empty (p +:+ String a x) = false.
Proof. destruct p; reflexivity. Qed.

(** [join] puts its first argument, and a separator if needed, in front of
    its second. *)
Lemma join_prefix (root : string) : exists p, forall name, join root name = p +:+ name.
Proof.
  unfold join. destruct (is_empty root).
  - exists EmptyString. reflexivity.
  - destruct (endswith root "/").
    + exists root. reflexivity.
    + exists (root +:+ "/"). intros name. symmetry. apply WrapFacts.append_assoc.
Qed.

(** X29.  In the order in which [assemble] sorts the frames, a file of the
    cache directory comes before every file of a directory whose name
    starts with a character above the full stop, such as the scenes'
    directories scene_01, scene_02, ...: the cached images are the first
    frames given to the encoder. *)
Theorem cache_frames_sort_first (frames_dir name1 : string) (c : ascii) (d name2 : string) :
  (code "." < code c)%N ->
  String.leb (join (join frames_dir VisualGen.cache_dir) name1)
             (join (join frames_dir (String c d)) name2) = true.
Proof.
  intros H. destruct (join_prefix frames_dir) as [p Hp]. rewrite !Hp.
  assert (E1 : exists s1, join (p +:+ VisualGen.cache_dir) name1 = p +:+ String "." s1).
  { unfold join, VisualGen.cache_dir. rewrite is_empty_append.
    destruct (endswith (p +:+ ".cache") "/");
      rewrite ?WrapFacts.append_assoc; eexists; reflexivity. }
  assert (E2 : exists s2, join (p +:+ String c d) name2 = p +:+ String c s2).
  { unfold join. rewrite is_empty_append.
    destruct (endswith (p +:+ String c d) "/");
      rewrite ?WrapFacts.append_assoc; eexists; reflexivity. }
  destruct E1 as [s1 ->]. destruct E2 as [s2 ->].
  apply leb_common_prefix. exact H.
Qed.

Lemma cache_frames_sort_first_witness :
  String.leb (join (join "frames" VisualGen.cache_dir) "0a1b.png")
             (join (join "frames" "scene_01") "frame_000001.png") = true.
Proof.
  apply (cache_frames_sort_first "frames" "0a1b.png" "s" "cene_01" "frame_000001.png").
  reflexivity.
Defined.

End OrderFacts.

(** ** Scripts of plain prose *)
Module ProseFacts.
Import Text Re Parser TextFacts ParserFacts.

Lemma split_lines_one_line (l : string) : one_line l = true -> split_lines l = [l].
Proof.
  induction l as [|c r IH]; [reflexivity|]. cbn [one_line split_lines]. intros H.
  apply andb_true_iff in H as [Hc Hr]. apply negb_true_iff in Hc. rewrite Hc, (IH Hr).
  reflexivity.
Qed.

Lemma split_lines_append (l t : string) :
  one_line l = true ->
  split_lines (l +:+ String newline t) = l :: split_lines t.
Proof.
  induction l as [|c r IH]; intros H.
  - change (EmptyString +:+ String newline t) with (String newline t).
    cbn [split_lines]. rewrite Ascii.eqb_refl. reflexivity.
  - simpl in H. apply andb_true_iff in H as [Hc Hr]. apply negb_true_iff in Hc.
    change (String c r +:+ String newline t) with (String c (r +:+ String newline t)).
    cbn [split_lines]. rewrite Hc, (IH Hr). reflexivity.
Qed.

(** Splitting what was joined gives the lines back. *)
Lemma split_join_lines (l : string) (ls : list string) :
  Forall (fun x => one_line x = true) (l :: ls) ->
  split_lines (join_lines (l :: ls)) = l :: ls.
Proof.
  revert l. induction ls as [|l2 ls IH]; intros l H.
  - inversion H; subst. apply split_lines_one_line. assumption.
  - inversion H as [|? ? Hl Hr]; subst.
    change (join_lines (l :: l2 :: ls))
      with (l +:+ String newline (join_lines (l2 :: ls))).
    rewrite split_lines_append by exact Hl. rewrite (IH l2 Hr). reflexivity.
Qed.

Lemma is_plain_spec (line : string) :
  is_plain line = true ->
  line <> EmptyString /\ rmatch true scene_re line = None /\
  rmatch true narration_re line = None /\ rmatch false dialogue_re line = None /\
  rmatch true visual_re line = None /\ rmatch true duration_re line = None.
Proof.
  unfold is_plain. intros H. apply andb_true_iff in H as [H1 H2].
  apply negb_true_iff, is_empty_false in H1.
  destruct (rmatch true scene_re line); [discriminate|].
  destruct (rmatch true narration_re line); [discriminate|].
  destruct (rmatch false dialogue_re line); [discriminate|].
  destruct (rmatch true visual_re line); [discriminate|].
  destruct (rmatch true duration_re line); [discriminate|].
  repeat split. exact H1.
Qed.

Lemma concat_not_empty (sep x : string) (l : list string) :
  x <> EmptyString -> String.concat sep (x :: l) <> EmptyString.
Proof.
  intros H. destruct x as [|c x]; [congruence|].
  destruct l; simpl; discriminate.
Qed.

Lemma step_plain (first : string) (seen : list string) (raw : string) :
  strip first <> EmptyString ->
  is_plain (strip raw) = true ->
  step {| scenes := []; current_scene := Some (prose_scene first seen); scene_counter := 1 |}
       raw =
    {| scenes := []; current_scene := Some (prose_scene first (seen ++ [raw]));
       scene_counter := 1 |}.
Proof.
  intros Hf Hp. apply is_plain_spec in Hp as (Hne & Hsc & Hna & Hdi & Hvi & Hdu).
  unfold step. cbv zeta. apply is_empty_false in Hne. rewrite Hne, Hsc.
  cbn [current_scene scenes scene_counter]. unfold apply_line. rewrite Hna, Hdi, Hvi, Hdu.
  assert (Hd : is_empty (description (prose_scene first seen)) = false).
  { apply is_empty_false. apply concat_not_empty. exact Hf. }
  rewrite Hd. unfold set_description, prose_scene. cbn [scene_id start_cue description
    characters dialogue visual_prompts duration_hint]. do 3 f_equal.
  change (first :: seen ++ [raw]) with ((first :: seen) ++ [raw]).
  rewrite map_app. cbn [map].
  rewrite (WrapFacts.concat_snoc " " (strip raw) (strip first :: map strip seen))
    by discriminate.
  reflexivity.
Qed.

Lemma fold_step_plain (first : string) (rest seen : list string) :
  strip first <> EmptyString ->
  Forall (fun raw => is_plain (strip raw) = true) rest ->
  fold_left step rest
    {| scenes := []; current_scene := Some (prose_scene first seen); scene_counter := 1 |} =
    {| scenes := []; current_scene := Some (prose_scene first (seen ++ rest));
       scene_counter := 1 |}.
Proof.
  intros Hf. revert seen. induction rest as [|raw rest IH]; intros seen H.
  - rewrite app_nil_r. reflexivity.
  - inversion H; subst. cbn [fold_left]. rewrite step_plain by assumption.
    rewrite IH by assumption. rewrite <- app_assoc. reflexivity.
Qed.

(** X30.  A script made only of lines that none of the five patterns
    matches, none of them blank, is one scene, scene_01: its description is
    the stripped lines joined with single spaces, its only prompt is the
    first line, and it has no characters, no dialogue and no duration. *)
Theorem prose_is_one_scene (first : string) (rest : list string) :
  Forall (fun raw => one_line raw = true /\ is_plain (strip raw) = true) (first :: rest) ->
  parse_script (join_lines (first :: rest)) =
    Ok [ {| scene_id := "scene_01"; start_cue := Missing;
            description := String.concat " " (map strip (first :: rest));
            characters := []; dialogue := []; visual_prompts := [strip first];
            duration_hint := Missing |} ].
Proof.
  intros H.
  assert (H1 : Forall (fun x => one_line x = true) (first :: rest)).
  { eapply Forall_impl; [exact H|]. intros x [Hx _]. exact Hx. }
  assert (H2 : Forall (fun raw => is_plain (strip raw) = true) (first :: rest)).
  { eapply Forall_impl; [exact H|]. intros x [_ Hx]. exact Hx. }
  inversion H2 as [|? ? Hp Hr]; subst.
  pose proof (is_plain_spec _ Hp) as (Hne & Hsc & Hna & Hdi & Hvi & Hdu).
  assert (Hs : scan (join_lines (first :: rest)) =
               {| scenes := []; current_scene := Some (prose_scene first rest);
                  scene_counter := 1 |}).
  { unfold scan. rewrite split_join_lines by exact H1. cbn [fold_left].
    assert (H0 : step initial first =
                 {| scenes := []; current_scene := Some (prose_scene first []);
                    scene_counter := 1 |}).
    { unfold step. cbv zeta. rewrite (proj2 (is_empty_false _) Hne), Hsc.
      cbn [current_scene initial scenes scene_counter]. unfold apply_line.
      rewrite Hna, Hdi, Hvi, Hdu. reflexivity. }
    rewrite H0. apply (fold_step_plain first rest []); assumption. }
  unfold parse_script.
  assert (Hb : is_empty (join_lines (first :: rest))
               || is_empty (strip (join_lines (first :: rest))) = false).
  { destruct (is_empty (join_lines (first :: rest))
              || is_empty (strip (join_lines (first :: rest)))) eqn:E; [|reflexivity].
    apply empty_check in E.
    assert (A : all_space (join_lines (first :: rest)) = true).
    { destruct E as [E|E]; [rewrite E; reflexivity|exact E]. }
    rewrite all_space_split_lines, split_join_lines in A by exact H1.
    simpl in A. apply andb_true_iff in A as [A _]. apply strip_empty in A. congruence. }
  rewrite Hb. unfold close_scene. rewrite Hs. cbn [current_scene scenes scene_counter app].
  unfold _finalize_scene, prose_scene.
  pose proof (concat_not_empty " " (strip first) (map strip rest) Hne) as Hd.
  destruct (String.concat " " (map strip (first :: rest))) as [|c d] eqn:E;
    [elim Hd; exact E|].
  reflexivity.
Qed.

Lemma prose_is_one_scene_witness :
  parse_script (join_lines ["A street at dawn."; "  Rain falls on the roofs."]) =
    Ok [ {| scene_id := "scene_01"; start_cue := Missing;
            description :=
              String.concat " " (map strip ["A street at dawn."; "  Rain falls on the roofs."]);
            characters := []; dialogue := []; visual_prompts := [strip "A street at dawn."];
            duration_hint := Missing |} ].
Proof.
  apply (prose_is_one_scene "A street at dawn." ["  Rain falls on the roofs."]).
  repeat (constructor; [split; reflexivity|]). constructor.
Defined.

End ProseFacts.
